(** * Container Session Orchestrator: a shallow embedding

    The development follows the JavaScript sources of the panel backend:

    - [utils/docker.js]        (class [ContainerManager])   -> Module [Docker]
    - [WindowsConsoleHandler]  (method [calculateCPUPercent]) -> Module [WindowsConsole]
    - [websocket/console.js]   (class [ConsoleSession], the console and
                                stats namespaces)            -> Module [Console]
    - [routes/containers.js]   (the POST / create handler)   -> Module [Routes]

    JavaScript numbers are modelled by [number]: the rationals extended with
    [NaN] and the two infinities.  The result of a subtraction, a product,
    a quotient or a [parseFloat] is rounded to the nearest IEEE-754 double
    ([JsNum.double]: ties to even, overflow to an infinity).  A whole
    number is taken as it is ([of_Z], [parseInt]): up to 2^53 that is what
    the source computes, beyond it the source rounds; the sign of zero is
    outside the model.  Strings are [string]s of 8-bit characters (code
    units below 256).

    An asynchronous function is a computation of the monad [Eff.M], which
    passes the state of the world along and may throw; [await] is plain
    sequencing and every handler runs to its end before the next begins.
    What the datastore, the engine and the streams decide by themselves
    (which calls fail, the clock, the samples) is read from
    [Eff.surroundings]. *)

From stdpp Require Import gmap strings list numbers pretty.
From Stdlib Require Import Ascii QArith Qcanon Qround Qpower Lqa.

Local Open Scope Z_scope.

(** ** IEEE-754 double precision: rounding a rational to the nearest double *)

Module Binary64.

(** [2^k] for an integer [k], negative or not. *)
Definition pow2 (k : Z) : Q := (2 ^ k)%Q.

(** The binary exponent of a positive rational [a]: the [e] with
    [2^e <= a < 2^(e+1)]. *)
Definition exponent (a : Q) : Z :=
  let k := Z.log2 (Qnum a) - Z.log2 (Zpos (Qden a)) in
  if Qle_bool (pow2 k) a then k else k - 1.

(** The integer nearest to [x]; a tie goes to the even one. *)
Definition nearest_even (x : Q) : Z :=
  let f := Qfloor x in
  match (x - inject_Z f ?= 1 # 2)%Q with
  | Lt => f
  | Gt => f + 1
  | Eq => if Z.even f then f else f + 1
  end.

(** The spacing of the doubles around a positive [a] is [2^ulp_exponent]:
    53 significant bits, and no spacing finer than that of the subnormal
    numbers. *)
Definition ulp_exponent (a : Q) : Z := Z.max (exponent a - 52) (-1074).

(** The double nearest to a positive [a], or [None] when rounding takes it
    beyond the largest finite double. *)
Definition round_pos (a : Q) : option Q :=
  let ex := ulp_exponent a in
  let r := (inject_Z (nearest_even (a / pow2 ex)) * pow2 ex)%Q in
  if Qle_bool (pow2 1024) r then None else Some r.

End Binary64.

(** ** JavaScript numbers *)

Module JsNum.

Inductive number :=
  | NaN
  | Infinity (negative : bool)
  | Num (q : Qc).

#[global] Instance number_eq_dec : EqDecision number.
Proof. solve_decision. Defined.

Definition of_Z (z : Z) : number := Num (Qc_of_Z z).

Definition is_neg (q : Qc) : bool := bool_decide (q < 0)%Qc.

(** The Number value of the rational [q]: the double nearest to it, an
    infinity when that is out of range. *)
Definition double (q : Qc) : number :=
  if decide (q = 0%Qc) then Num 0%Qc
  else if is_neg q
  then match Binary64.round_pos (- q) with
       | Some r => Num (Q2Qc (- r))
       | None => Infinity true
       end
  else match Binary64.round_pos q with
       | Some r => Num (Q2Qc r)
       | None => Infinity false
       end.

(** [a - b] *)
Definition sub (a b : number) : number :=
  match a, b with
  | NaN, _ | _, NaN => NaN
  | Num x, Num y => double (x - y)%Qc
  | Infinity s, Infinity t => if Bool.eqb s t then NaN else Infinity s
  | Infinity s, Num _ => Infinity s
  | Num _, Infinity t => Infinity (negb t)
  end.

(** [a * b] *)
Definition mul (a b : number) : number :=
  match a, b with
  | NaN, _ | _, NaN => NaN
  | Num x, Num y => double (x * y)%Qc
  | Infinity s, Infinity t => Infinity (xorb s t)
  | Infinity s, Num y | Num y, Infinity s =>
      if decide (y = 0%Qc) then NaN else Infinity (xorb s (is_neg y))
  end.

(** [a / b]; a finite value divided by zero is an infinity, [0 / 0] is [NaN]. *)
Definition div (a b : number) : number :=
  match a, b with
  | NaN, _ | _, NaN => NaN
  | Num x, Num y =>
      if decide (y = 0%Qc)
      then (if decide (x = 0%Qc) then NaN else Infinity (is_neg x))
      else double (x / y)%Qc
  | Infinity _, Infinity _ => NaN
  | Infinity s, Num y => Infinity (xorb s (is_neg y))
  | Num _, Infinity _ => Num 0%Qc
  end.

(** [a > b]; every comparison with [NaN] is false. *)
Definition gt (a b : number) : bool :=
  match a, b with
  | NaN, _ | _, NaN => false
  | Num x, Num y => bool_decide (y < x)%Qc
  | Infinity s, Infinity t => negb s && t
  | Infinity s, Num _ => negb s
  | Num _, Infinity t => t
  end.

(** [a <= b] *)
Definition le (a b : number) : bool :=
  match a, b with
  | NaN, _ | _, NaN => false
  | Num x, Num y => bool_decide (x <= y)%Qc
  | Infinity s, Infinity t => s || negb t
  | Infinity s, Num _ => s
  | Num _, Infinity t => negb t
  end.

(** ToBoolean on a number: [0] and [NaN] are falsy. *)
Definition truthy (a : number) : bool :=
  match a with
  | NaN => false
  | Infinity _ => true
  | Num q => negb (bool_decide (q = 0%Qc))
  end.

(** [Math.max(a, b)] and [Math.min(a, b)]: [NaN] if either argument is. *)
Definition max (a b : number) : number :=
  match a, b with
  | NaN, _ | _, NaN => NaN
  | _, _ => if gt b a then b else a
  end.

Definition min (a b : number) : number :=
  match a, b with
  | NaN, _ | _, NaN => NaN
  | _, _ => if gt a b then b else a
  end.

(** [Math.floor(a)] *)
Definition floor (a : number) : number :=
  match a with
  | Num q => of_Z (Qfloor q)
  | _ => a
  end.

(** A property read from an engine object: [None] is [undefined]. *)
Definition field := option number.

(** ToNumber of such a value: [undefined] becomes [NaN]. *)
Definition to_number (v : field) : number := default NaN v.

(** [v || d] where [d] is a number. *)
Definition or_default (v : field) (d : number) : number :=
  match v with
  | Some n => if truthy n then n else d
  | None => d
  end.

End JsNum.

Export JsNum(number(..), of_Z, truthy, field, to_number, or_default).

(** A JavaScript value that is either a number or a string, as the memory
    and cpu settings of a container are. *)
Inductive jsval :=
  | VNum (n : number)
  | VStr (s : string).

#[global] Instance jsval_eq_dec : EqDecision jsval.
Proof. solve_decision. Defined.

(** A closed, decidable statement is settled by evaluating its decision
    procedure. *)
Ltac evaluate := apply (bool_decide_eq_true_1 _); vm_compute; reflexivity.

(** ** JavaScript string built-ins used by the sources *)

Module JsString.

Definition code (c : Ascii.ascii) : N := Ascii.N_of_ascii c.

Definition is_digit (c : Ascii.ascii) : bool :=
  ((48 <=? code c) && (code c <=? 57))%N.

Definition digit_val (c : Ascii.ascii) : Z := Z.of_N (code c) - 48.

(** Value of a hexadecimal digit, if [c] is one. *)
Definition hex_val (c : Ascii.ascii) : option Z :=
  let n := code c in
  if ((48 <=? n) && (n <=? 57))%N then Some (Z.of_N n - 48)
  else if ((97 <=? n) && (n <=? 102))%N then Some (Z.of_N n - 87)
  else if ((65 <=? n) && (n <=? 70))%N then Some (Z.of_N n - 55)
  else None.

(** White space and line terminators among the 8-bit characters. *)
Definition is_space (c : Ascii.ascii) : bool :=
  let n := code c in
  ((9 <=? n) && (n <=? 13) || (n =? 32) || (n =? 160))%N.

(** [String.prototype.toLowerCase] on one 8-bit character: the letters
    [A-Z] and the upper-case letters of Latin-1 (192 to 222, except the
    multiplication sign 215) move up by 32. *)
Definition lower (c : Ascii.ascii) : Ascii.ascii :=
  let n := code c in
  if ((65 <=? n) && (n <=? 90)
      || (192 <=? n) && (n <=? 222) && negb (n =? 215))%N
  then Ascii.ascii_of_N (n + 32)
  else c.

Fixpoint toLowerCase (s : string) : string :=
  match s with
  | EmptyString => EmptyString
  | String c r => String (lower c) (toLowerCase r)
  end.

Fixpoint trim_start (s : string) : string :=
  match s with
  | String c r => if is_space c then trim_start r else s
  | EmptyString => EmptyString
  end.

(** Longest prefix of decimal digits, and what follows it. *)
Fixpoint span_digits (s : string) : string * string :=
  match s with
  | String c r =>
      if is_digit c
      then let '(d, t) := span_digits r in (String c d, t)
      else (EmptyString, s)
  | EmptyString => (EmptyString, EmptyString)
  end.

(** Decimal value of a string of digits, most significant first. *)
Fixpoint digits_acc (acc : Z) (s : string) : Z :=
  match s with
  | String c r => digits_acc (10 * acc + digit_val c) r
  | EmptyString => acc
  end.

Definition digits_value (s : string) : Z := digits_acc 0 s.

(** Longest prefix of hexadecimal digits: its value and its length. *)
Fixpoint hex_acc (acc : Z) (len : nat) (s : string) : Z * nat :=
  match s with
  | String c r =>
      match hex_val c with
      | Some v => hex_acc (16 * acc + v) (S len) r
      | None => (acc, len)
      end
  | EmptyString => (acc, len)
  end.

Definition strip_sign (s : string) : bool * string :=
  match s with
  | String "-"%char r => (true, r)
  | String "+"%char r => (false, r)
  | _ => (false, s)
  end.

Definition signed (neg : bool) (n : number) : number :=
  if neg then JsNum.sub (Num 0%Qc) n else n.

(** [parseInt(s)] with no radix argument. *)
Definition parseInt (s : string) : number :=
  let '(neg, t) := strip_sign (trim_start s) in
  match t with
  | String "0"%char (String x r) =>
      if bool_decide (x = "x"%char \/ x = "X"%char)
      then
        let '(v, len) := hex_acc 0 0 r in
        match len with O => NaN | S _ => signed neg (of_Z v) end
      else
        let '(d, _) := span_digits t in signed neg (of_Z (digits_value d))
  | _ =>
      let '(d, _) := span_digits t in
      match d with
      | EmptyString => NaN
      | _ => signed neg (of_Z (digits_value d))
      end
  end.

Definition starts_with (p s : string) : bool :=
  bool_decide (String.substring 0 (String.length p) s = p).

(** [10 ** e] for an integer [e]. *)
Definition pow10 (e : Z) : Qc :=
  if (0 <=? e) then Qc_of_Z (10 ^ e) else (1 / Qc_of_Z (10 ^ (- e)))%Qc.

(** The exponent part [e[+-]digits] at the head of [s], if there is one. *)
Definition exponent_part (s : string) : Z :=
  match s with
  | String c r =>
      if bool_decide (c = "e"%char \/ c = "E"%char)
      then
        let '(neg, t) := strip_sign r in
        let '(d, _) := span_digits t in
        match d with
        | EmptyString => 0
        | _ => if neg then - digits_value d else digits_value d
        end
      else 0
  | EmptyString => 0
  end.

(** [parseFloat(s)] on a string: the longest prefix of the trimmed string
    that is a StrDecimalLiteral, or [NaN] when there is none; the value is
    the double nearest to the decimal that is written. *)
Definition parseFloat_string (s : string) : number :=
  let '(neg, t) := strip_sign (trim_start s) in
  if starts_with "Infinity" t then Infinity neg
  else
    let '(ip, r1) := span_digits t in
    let '(fp, r2) :=
      match r1 with
      | String "."%char r =>
          let '(f, r') := span_digits r in
          match ip, f with
          | EmptyString, EmptyString => (EmptyString, r1)
          | _, _ => (f, r')
          end
      | _ => (EmptyString, r1)
      end in
    match ip, fp with
    | EmptyString, EmptyString => NaN
    | _, _ =>
        let mant := digits_value (ip +:+ fp) in
        let e := exponent_part r2 - Z.of_nat (String.length fp) in
        signed neg (JsNum.double (Qc_of_Z mant * pow10 e)%Qc)
    end.

(** [parseFloat(v)]: the argument is first converted to a string; on a
    number that conversion followed by the parse gives the number back. *)
Definition parseFloat (v : jsval) : number :=
  match v with
  | VNum n => n
  | VStr s => parseFloat_string s
  end.

End JsString.

Export JsString.

(** ** utils/docker.js: the pure helpers of [ContainerManager] *)

Module Docker.

(** The [units] table of [parseMemory]; a key that is absent reads as
    [undefined]. *)
Definition units (u : string) : field :=
  if bool_decide (u = "b") then Some (of_Z 1)
  else if bool_decide (u = "k") then Some (of_Z 1024)
  else if bool_decide (u = "m") then Some (of_Z (1024 * 1024))
  else if bool_decide (u = "g") then Some (of_Z (1024 * 1024 * 1024))
  else None.

Definition is_unit_char (c : Ascii.ascii) : bool :=
  bool_decide (c = "b"%char \/ c = "k"%char \/ c = "m"%char \/ c = "g"%char).

(** [s.match(/^(\d+)([bkmg]?)$/)]: the two capture groups, or [None] when
    the string does not match. *)
Definition match_memory (s : string) : option (string * string) :=
  let '(d, r) := span_digits s in
  match d with
  | EmptyString => None
  | _ =>
      match r with
      | EmptyString => Some (d, EmptyString)
      | String c EmptyString =>
          if is_unit_char c then Some (d, r) else None
      | _ => None
      end
  end.

Definition default_memory : number := of_Z (512 * 1024 * 1024).

Definition parseMemory (memory : jsval) : number :=
  match memory with
  | VNum n => n
  | VStr s =>
      match match_memory (toLowerCase s) with
      | None => default_memory
      | Some (m1, m2) =>
          let value := parseInt m1 in
          let unit := if bool_decide (m2 = EmptyString) then "b" else m2 in
          JsNum.mul value (to_number (units unit))
      end
  end.

(** The part of [createContainer]'s [config] that is translated into
    resource limits; an absent property takes the default of the
    destructuring pattern. *)
Record config := {
  memory : option jsval;
  cpus : option jsval;
}.

Record HostConfig := {
  Memory : number;
  CpuQuota : number;
  CpuPeriod : number;
}.

Definition hostConfig (c : config) : HostConfig :=
  let memory := default (VStr "512m") (memory c) in
  let cpus := default (VStr "0.5") (cpus c) in
  {| Memory := parseMemory memory;
     CpuQuota := JsNum.floor (JsNum.mul (parseFloat cpus) (of_Z 100000));
     CpuPeriod := of_Z 100000 |}.

(** The object returned by [container.stats({ stream: false })], as far as
    [getContainerStats] reads it. *)
Record cpu_usage_t := { total_usage : field }.

Record cpu_stats_t := {
  cpu_usage : option cpu_usage_t;
  system_cpu_usage : field;
  online_cpus : field;
}.

Record memory_stats_t := { usage : field; limit : field }.

Record stats := {
  cpu_stats : cpu_stats_t;
  precpu_stats : cpu_stats_t;
  memory_stats : memory_stats_t;
}.

(** [stats.cpu_stats.cpu_usage.total_usage - (stats.precpu_stats.cpu_usage?.total_usage || 0)];
    reading [total_usage] of an absent [cpu_usage] raises a TypeError
    ([None] here). *)
Definition cpuDelta (s : stats) : option number :=
  cu ← cpu_usage (cpu_stats s);
  Some (JsNum.sub (to_number (total_usage cu))
          (or_default (cpu_usage (precpu_stats s) ≫= total_usage) (of_Z 0))).

Definition systemDelta (s : stats) : number :=
  JsNum.sub (to_number (system_cpu_usage (cpu_stats s)))
    (or_default (system_cpu_usage (precpu_stats s)) (of_Z 0)).

(** The numbers [getContainerStats] computes from a sample.  The returned
    object carries them rendered with [toFixed(2)] and [formatBytes]; that
    rendering is not modelled. *)
Record report := {
  cpuPercent : number;
  memoryUsage : number;
  memoryLimit : number;
  memoryPercent : number;
}.

#[global] Instance HostConfig_eq_dec : EqDecision HostConfig.
Proof. solve_decision. Defined.

#[global] Instance report_eq_dec : EqDecision report.
Proof. solve_decision. Defined.

Definition getContainerStats (s : stats) : option report :=
  cpuDelta ← cpuDelta s;
  let systemDelta := systemDelta s in
  let cpuPercent :=
    if JsNum.gt systemDelta (of_Z 0)
    then JsNum.mul (JsNum.div cpuDelta systemDelta) (of_Z 100)
    else of_Z 0 in
  let memoryUsage := or_default (usage (memory_stats s)) (of_Z 0) in
  let memoryLimit := or_default (limit (memory_stats s)) (of_Z 0) in
  let memoryPercent :=
    if JsNum.gt memoryLimit (of_Z 0)
    then JsNum.mul (JsNum.div memoryUsage memoryLimit) (of_Z 100)
    else of_Z 0 in
  Some {| cpuPercent := cpuPercent; memoryUsage := memoryUsage;
          memoryLimit := memoryLimit; memoryPercent := memoryPercent |}.

End Docker.

(** ** WindowsConsoleHandler.calculateCPUPercent *)

Module WindowsConsole.

Import Docker.

Definition calculateCPUPercent (s : stats) : option number :=
  cpuDelta ← cpuDelta s;
  let systemDelta := systemDelta s in
  if JsNum.gt systemDelta (of_Z 0) && JsNum.gt cpuDelta (of_Z 0)
  then
    let cpuCount := or_default (online_cpus (cpu_stats s)) (of_Z 1) in
    Some (JsNum.mul (JsNum.mul (JsNum.div cpuDelta systemDelta) cpuCount) (of_Z 100))
  else Some (of_Z 0).

End WindowsConsole.

(** ** The world the handlers run in: datastore, engine, sockets *)

Module Eff.

(** A thrown JavaScript error: the constructor that built it and its
    [message]. *)
Record js_error := { ctor : string; message : string }.

Definition Error (msg : string) : js_error := {| ctor := "Error"; message := msg |}.
Definition TypeError (msg : string) : js_error := {| ctor := "TypeError"; message := msg |}.
Definition ReferenceError (msg : string) : js_error :=
  {| ctor := "ReferenceError"; message := msg |}.

Inductive result (A : Type) :=
  | Ok (a : A)
  | Throw (e : js_error).
Arguments Ok {A} a.
Arguments Throw {A} e.

(** Persisted records, with the columns the orchestrator reads and writes. *)
Record container_row := {
  id : string;
  name : string;
  image : string;
  ownerId : string;
  status : string;
  dockerId : option string;
  res_memory : jsval;
  res_cpus : jsval;
}.

Record user_row := {
  user_id : string;
  username : string;
  role : string;
  user_isActive : bool;
}.

Record log_row := {
  log_containerId : string;
  command : string;
  output : option string;
  exitCode : option Z;
}.

(** In-process objects. *)
Record ConsoleSession := {
  socket : string;
  containerId : string;
  userId : string;
  dockerExec : option nat;
  stream : option nat;
  isActive : bool;
  startTime : Z;
  commandHistory : list (string * Z);
}.

(** An exec stream: what was written to it, whether it was destroyed, and
    the session whose [data]/[error]/[end] handlers are attached. *)
Record stream_obj := {
  written : list string;
  destroyed : bool;
  listener : option nat;
}.

(** A timer installed by [setInterval] in the stats namespace, with the
    variables its callback closes over. *)
Record timer := {
  delay : number;
  t_socket : string;
  t_containerId : string;
  t_dockerId : string;
}.

(** Calls on the container engine. *)
Inductive engine_call :=
  | Pull (image : string)
  | CreateContainer (name image : string) (hc : Docker.HostConfig)
  | Exec (dockerId : string) (cmd : list string) (tty : bool)
  | ExecStart (dockerId : string)
  | Stats (dockerId : string)
  | Resize (exec : nat) (h w : number).

(** Messages emitted on a socket. *)
Inductive msg :=
  | console_error (message : string) (error : option string)
  | console_connected (containerId : string) (timestamp : Z)
  | console_output (data : string) (timestamp : Z)
  | console_disconnected (message : string)
  | stats_error (message : string) (error : option string)
  | stats_subscribed (containerId : string) (interval : number)
  | stats_data (containerId : string) (stats : Docker.report) (timestamp : Z)
  | stats_unsubscribed.

Inductive event :=
  | Engine (c : engine_call)
  | Emit (socket : string) (m : msg)
  | Logger (level text : string).

#[global] Instance js_error_eq_dec : EqDecision js_error.
Proof. solve_decision. Defined.

#[global] Instance container_row_eq_dec : EqDecision container_row.
Proof. solve_decision. Defined.

#[global] Instance log_row_eq_dec : EqDecision log_row.
Proof. solve_decision. Defined.

#[global] Instance timer_eq_dec : EqDecision timer.
Proof. solve_decision. Defined.

#[global] Instance engine_call_eq_dec : EqDecision engine_call.
Proof. solve_decision. Defined.

#[global] Instance msg_eq_dec : EqDecision msg.
Proof. solve_decision. Defined.

#[global] Instance event_eq_dec : EqDecision event.
Proof. solve_decision. Defined.

(** The external calls that can fail. *)
Inductive external_op :=
  | ContainerFindUnique | ContainerFindFirst | ContainerCount
  | ContainerCreate | ContainerUpdate | ContainerDelete
  | UserFindUnique | ContainerLogCreate
  | EnginePull | EngineCreate | EngineExec | EngineExecStart
  | EngineStats | EngineResize
  | StreamWrite | StreamDestroy.

(** [process.env], for the variables the create route reads.
    [ALLOWED_IMAGES] is kept as the outcome of [JSON.parse], for a variable
    that is unset, is not valid JSON ([ImagesMalformed]) or holds an array
    of strings; a variable that holds any other JSON value is outside the
    model. *)
Inductive allowed_images_env :=
  | ImagesUnset
  | ImagesMalformed
  | ImagesArray (l : list string).

Record process_env := {
  MAX_CONTAINERS_PER_MEMBER : option string;
  ALLOWED_IMAGES : allowed_images_env;
  DEFAULT_CONTAINER_MEMORY : option string;
  DEFAULT_CONTAINER_CPU : option string;
}.

(** What the surroundings decide: the clock, which external calls fail
    (and with which message; a call that fails does so each time it is
    made), the sample the engine returns for a container, the identifier
    the engine assigns to a new container, and the process environment. *)
Record environment := {
  now : Z;
  faults : external_op → option string;
  sample : string → Docker.stats;
  engine_id : string → string;
  env : process_env;
}.

Record world := {
  containers : gmap string container_row;
  users : gmap string user_row;
  containerLogs : list log_row;
  activeSessions : gmap string nat;
  heap : gmap nat ConsoleSession;
  streams : gmap nat stream_obj;
  statsInterval : gmap string nat;
  timers : gmap nat timer;
  trace : list event;
  surroundings : environment;
}.

Definition with_containers (f : gmap string container_row → gmap string container_row)
    (w : world) : world :=
  {| containers := f (containers w); users := users w;
     containerLogs := containerLogs w; activeSessions := activeSessions w;
     heap := heap w; streams := streams w; statsInterval := statsInterval w;
     timers := timers w; trace := trace w; surroundings := surroundings w |}.

Definition with_containerLogs (f : list log_row → list log_row) (w : world) : world :=
  {| containers := containers w; users := users w;
     containerLogs := f (containerLogs w); activeSessions := activeSessions w;
     heap := heap w; streams := streams w; statsInterval := statsInterval w;
     timers := timers w; trace := trace w; surroundings := surroundings w |}.

Definition with_activeSessions (f : gmap string nat → gmap string nat) (w : world) : world :=
  {| containers := containers w; users := users w;
     containerLogs := containerLogs w; activeSessions := f (activeSessions w);
     heap := heap w; streams := streams w; statsInterval := statsInterval w;
     timers := timers w; trace := trace w; surroundings := surroundings w |}.

Definition with_heap (f : gmap nat ConsoleSession → gmap nat ConsoleSession)
    (w : world) : world :=
  {| containers := containers w; users := users w;
     containerLogs := containerLogs w; activeSessions := activeSessions w;
     heap := f (heap w); streams := streams w; statsInterval := statsInterval w;
     timers := timers w; trace := trace w; surroundings := surroundings w |}.

Definition with_streams (f : gmap nat stream_obj → gmap nat stream_obj) (w : world) : world :=
  {| containers := containers w; users := users w;
     containerLogs := containerLogs w; activeSessions := activeSessions w;
     heap := heap w; streams := f (streams w); statsInterval := statsInterval w;
     timers := timers w; trace := trace w; surroundings := surroundings w |}.

Definition with_statsInterval (f : gmap string nat → gmap string nat) (w : world) : world :=
  {| containers := containers w; users := users w;
     containerLogs := containerLogs w; activeSessions := activeSessions w;
     heap := heap w; streams := streams w; statsInterval := f (statsInterval w);
     timers := timers w; trace := trace w; surroundings := surroundings w |}.

Definition with_timers (f : gmap nat timer → gmap nat timer) (w : world) : world :=
  {| containers := containers w; users := users w;
     containerLogs := containerLogs w; activeSessions := activeSessions w;
     heap := heap w; streams := streams w; statsInterval := statsInterval w;
     timers := f (timers w); trace := trace w; surroundings := surroundings w |}.

Definition with_trace (f : list event → list event) (w : world) : world :=
  {| containers := containers w; users := users w;
     containerLogs := containerLogs w; activeSessions := activeSessions w;
     heap := heap w; streams := streams w; statsInterval := statsInterval w;
     timers := timers w; trace := f (trace w); surroundings := surroundings w |}.


(** *** Computations: state passing with exceptions *)

Definition M (A : Type) : Type := world → result A * world.

Definition ret {A} (a : A) : M A := λ w, (Ok a, w).

Definition bind {A B} (m : M A) (k : A → M B) : M B :=
  λ w, match m w with
       | (Ok a, w') => k a w'
       | (Throw e, w') => (Throw e, w')
       end.

Definition throw {A} (e : js_error) : M A := λ w, (Throw e, w).

(** [try { m } catch (e) { h e }] *)
Definition try_catch {A} (m : M A) (h : js_error → M A) : M A :=
  λ w, match m w with
       | (Ok a, w') => (Ok a, w')
       | (Throw e, w') => h e w'
       end.

Definition gets {A} (f : world → A) : M A := λ w, (Ok (f w), w).
Definition modify (f : world → world) : M unit := λ w, (Ok tt, f w).

#[global] Instance M_ret : MRet M := @ret.
#[global] Instance M_bind : MBind M := λ A B k m, bind m k.

(** An external call: it throws when the surroundings say it fails. *)
Definition external (op : external_op) : M unit :=
  λ w, match faults (surroundings w) op with
       | Some m => (Throw (Error m), w)
       | None => (Ok tt, w)
       end.

Definition record (e : event) : M unit := modify (with_trace (λ t, t ++ [e])).

Definition emit (socket : string) (m : msg) : M unit := record (Emit socket m).
Definition logger (level text : string) : M unit := record (Logger level text).

(** A call on the engine is recorded when it is issued, whether or not it
    then fails. *)
Definition engine (c : engine_call) (op : external_op) : M unit :=
  record (Engine c);; external op.

Definition Date_now : M Z := gets (λ w, now (surroundings w)).

(** Calls on the engine made anywhere in a trace. *)
Definition engine_calls (t : list event) : list engine_call :=
  omap (λ e, match e with Engine c => Some c | _ => None end) t.

(** Messages emitted on one socket, in order. *)
Definition emitted (socket : string) (t : list event) : list msg :=
  omap (λ e, match e with
             | Emit s m => if bool_decide (s = socket) then Some m else None
             | _ => None
             end) t.

(** *** The datastore client *)

Definition prisma_container_findUnique (cid : string) : M (option container_row) :=
  external ContainerFindUnique;; gets (λ w, containers w !! cid).

Definition prisma_user_findUnique (uid : string) : M (option user_row) :=
  external UserFindUnique;; gets (λ w, users w !! uid).

Definition prisma_containerLog_create (r : log_row) : M unit :=
  external ContainerLogCreate;; modify (with_containerLogs (λ l, l ++ [r])).

End Eff.

(** ** utils/docker.js: the methods of [ContainerManager] that call the engine *)

Module Manager.

Import Eff.

(** [try { body } catch (error) { logger.error(text, error); throw error }] *)
Definition logged {A} (text : string) (body : M A) : M A :=
  try_catch body (λ error, logger "error" text;; throw error).

Definition pullImage (imageName : string) : M unit :=
  logged "Failed to pull image:"
    (logger "info" "Pulling image:";;
     engine (Pull imageName) EnginePull;;
     logger "info" "Image pulled successfully:").

(** [createContainer(config)]: returns the engine-assigned identifier. *)
Definition createContainer (name image : string) (c : Docker.config) : M string :=
  logged "Failed to create container:"
    (pullImage image;;
     engine (CreateContainer name image (Docker.hostConfig c)) EngineCreate;;
     eid ← gets (λ w, engine_id (surroundings w) name);
     logger "info" "Container created successfully";;
     mret eid).

(** [execCommand(containerId, cmd, options)]: returns the exec handle and
    the stream, a fresh object of the [streams] store. *)
Definition execCommand (containerId : string) (cmd : list string) (tty : bool)
    : M (nat * nat) :=
  logged "Failed to execute command:"
    (engine (Exec containerId cmd tty) EngineExec;;
     engine (ExecStart containerId) EngineExecStart;;
     s ← gets (λ w, fresh (dom (streams w)));
     modify (with_streams
               <[s := {| written := []; destroyed := false; listener := None |}]>);;
     mret (s, s)).

Definition getContainerStats (containerId : string) : M Docker.report :=
  logged "Failed to get container stats:"
    (engine (Stats containerId) EngineStats;;
     stats ← gets (λ w, sample (surroundings w) containerId);
     match Docker.getContainerStats stats with
     | Some r => mret r
     | None =>
         throw (TypeError "Cannot read properties of undefined (reading 'total_usage')")
     end).

End Manager.

(** ** websocket/console.js *)

Module Console.

Import Eff.

(** The authenticated socket: its [id] and the user record attached to it
    by the authentication middleware when the connection was opened. *)
Record socket_t := {
  sock_id : string;
  sock_user : user_row;
}.

(** *** [class ConsoleSession]; [this] is a reference into the [heap] *)

Definition self (this : nat) : M ConsoleSession :=
  λ w, match heap w !! this with
       | Some s => (Ok s, w)
       | None => (Throw (TypeError "Cannot read properties of undefined"), w)
       end.

Definition set_isActive (b : bool) (s : ConsoleSession) : ConsoleSession :=
  {| socket := socket s; containerId := containerId s; userId := userId s;
     dockerExec := dockerExec s; stream := stream s; isActive := b;
     startTime := startTime s; commandHistory := commandHistory s |}.

Definition set_stream (v : option nat) (s : ConsoleSession) : ConsoleSession :=
  {| socket := socket s; containerId := containerId s; userId := userId s;
     dockerExec := dockerExec s; stream := v; isActive := isActive s;
     startTime := startTime s; commandHistory := commandHistory s |}.

Definition set_dockerExec (v : option nat) (s : ConsoleSession) : ConsoleSession :=
  {| socket := socket s; containerId := containerId s; userId := userId s;
     dockerExec := v; stream := stream s; isActive := isActive s;
     startTime := startTime s; commandHistory := commandHistory s |}.

Definition set_commandHistory (h : list (string * Z)) (s : ConsoleSession)
    : ConsoleSession :=
  {| socket := socket s; containerId := containerId s; userId := userId s;
     dockerExec := dockerExec s; stream := stream s; isActive := isActive s;
     startTime := startTime s; commandHistory := h |}.

(** [this.f = v] *)
Definition assign (this : nat) (f : ConsoleSession → ConsoleSession) : M unit :=
  modify (with_heap (alter f this)).

(** [new ConsoleSession(socket, containerId, userId)] *)
Definition new_session (sock : socket_t) (containerId userId : string) : M nat :=
  t ← Date_now;
  this ← gets (λ w, fresh (dom (heap w)));
  modify (with_heap
            <[this := {| socket := sock_id sock; containerId := containerId;
                         userId := userId; dockerExec := None; stream := None;
                         isActive := false; startTime := t;
                         commandHistory := [] |}]>);;
  mret this.

Definition stream_destroy (s : nat) : M unit :=
  external StreamDestroy;;
  modify (with_streams
            (alter (λ o, {| written := written o; destroyed := true;
                            listener := listener o |}) s)).

Definition stream_write (s : nat) (data : string) : M unit :=
  external StreamWrite;;
  modify (with_streams
            (alter (λ o, {| written := written o ++ [data];
                            destroyed := destroyed o;
                            listener := listener o |}) s)).

(** [stream.on('data' | 'error' | 'end', ...)] with handlers bound to [this]. *)
Definition stream_on (s this : nat) : M unit :=
  modify (with_streams
            (alter (λ o, {| written := written o; destroyed := destroyed o;
                            listener := Some this |}) s)).

Definition cleanup (this : nat) : M unit :=
  assign this (set_isActive false);;
  s ← self this;
  match stream s with
  | Some st =>
      try_catch (stream_destroy st)
        (λ error, logger "error" "Error destroying stream:");;
      assign this (set_stream None)
  | None => mret tt
  end;;
  assign this (set_dockerExec None);;
  modify (with_activeSessions (delete (socket s)));;
  try_catch
    (t ← Date_now;
     prisma_containerLog_create
       {| log_containerId := containerId s;
          command := "CONSOLE_DISCONNECT";
          output := Some ("Console session ended. Duration: "
                          +:+ pretty (t - startTime s) +:+ "ms");
          exitCode := Some 0 |};;
     logger "audit" "Console session ended")
    (λ error, logger "error" "Failed to log console session end:").

Definition start (this : nat) : M unit :=
  try_catch
    (s ← self this;
     container ← prisma_container_findUnique (containerId s);
     match container with
     | None => throw (Error "Container not found")
     | Some container =>
         user ← prisma_user_findUnique (userId s);
         role ← match user with
                | Some u => mret (role u)
                | None => throw (TypeError "Cannot read properties of null (reading 'role')")
                end;
         if bool_decide (role ≠ "ADMIN") && bool_decide (ownerId container ≠ userId s)
         then throw (Error "Access denied to this container")
         else
           match dockerId container with
           | None | Some EmptyString => throw (Error "Container has no Docker ID")
           | Some did =>
               if bool_decide (status container ≠ "RUNNING")
               then throw (Error "Container is not running")
               else
                 '(exec, stream) ← Manager.execCommand did ["/bin/sh"] true;
                 assign this (set_dockerExec (Some exec));;
                 assign this (set_stream (Some stream));;
                 assign this (set_isActive true);;
                 stream_on stream this;;
                 t ← Date_now;
                 emit (socket s) (console_connected (containerId s) t);;
                 prisma_containerLog_create
                   {| log_containerId := containerId s;
                      command := "CONSOLE_CONNECT";
                      output := Some "Console session started";
                      exitCode := Some 0 |};;
                 logger "audit" "Console session started"
           end
     end)
    (λ error,
       logger "error" "Failed to start console session:";;
       s ← self this;
       emit (socket s)
         (console_error "Failed to start console session" (Some (message error)));;
       cleanup this).

(** [h.slice(-100)]: the last hundred entries. *)
Definition last100 {A} (h : list A) : list A := drop (length h - 100) h.

Definition sendCommand (this : nat) (command : string) : M unit :=
  s ← self this;
  match isActive s, stream s with
  | true, Some st =>
      try_catch
        (t ← Date_now;
         let h := commandHistory s ++ [(command, t)] in
         assign this (set_commandHistory h);;
         (if bool_decide (100 < length h)%nat
          then assign this (set_commandHistory (last100 h))
          else mret tt);;
         stream_write st (command +:+ String "010"%char EmptyString);;
         prisma_containerLog_create
           {| log_containerId := containerId s;
              command := String.substring 0 1000 command;
              output := None;
              exitCode := None |};;
         logger "audit" "Console command executed")
        (λ error,
           logger "error" "Failed to send command:";;
           emit (socket s)
             (console_error "Failed to send command" (Some (message error))))
  | _, _ => emit (socket s) (console_error "Console session not active" None)
  end.

Definition sendInput (this : nat) (input : string) : M unit :=
  s ← self this;
  match isActive s, stream s with
  | true, Some st =>
      try_catch (stream_write st input)
        (λ error,
           logger "error" "Failed to send input:";;
           emit (socket s)
             (console_error "Failed to send input" (Some (message error))))
  | _, _ => mret tt
  end.

Definition resize (this : nat) (cols rows : number) : M unit :=
  s ← self this;
  match isActive s, dockerExec s with
  | true, Some ex =>
      try_catch (engine (Resize ex rows cols) EngineResize)
        (λ error, logger "error" "Failed to resize console:")
  | _, _ => mret tt
  end.

(** The handlers [start] attaches to the stream, run when the stream
    raises the event. *)
Definition listening (st : nat) (k : nat → M unit) : M unit :=
  o ← gets (λ w, streams w !! st ≫= listener);
  match o with
  | Some this => k this
  | None => mret tt
  end.

Definition stream_data (st : nat) (chunk : string) : M unit :=
  listening st (λ this,
    s ← self this;
    t ← Date_now;
    emit (socket s) (console_output chunk t)).

Definition stream_error (st : nat) (error : js_error) : M unit :=
  listening st (λ this,
    s ← self this;
    logger "error" "Console stream error:";;
    emit (socket s) (console_error "Stream error occurred" (Some (message error)));;
    cleanup this).

Definition stream_end (st : nat) : M unit :=
  listening st (λ this,
    s ← self this;
    logger "info" "Console stream ended";;
    emit (socket s) (console_disconnected "Console session ended");;
    cleanup this).

(** *** The [/console] namespace: one handler per inbound message *)

Definition on_console_connect (sock : socket_t) (containerId : option string) : M unit :=
  try_catch
    (match containerId with
     | None | Some EmptyString =>
         emit (sock_id sock) (console_error "Container ID is required" None)
     | Some containerId =>
         existing ← gets (λ w, activeSessions w !! sock_id sock);
         match existing with
         | Some _ =>
             emit (sock_id sock) (console_error "Console session already active" None)
         | None =>
             session ← new_session sock containerId (user_id (sock_user sock));
             modify (with_activeSessions <[sock_id sock := session]>);;
             start session
         end
     end)
    (λ error,
       logger "error" "Console connect error:";;
       emit (sock_id sock)
         (console_error "Failed to connect to console" (Some (message error)))).

Definition on_console_command (sock : socket_t) (command : string) : M unit :=
  session ← gets (λ w, activeSessions w !! sock_id sock);
  match session with
  | None => emit (sock_id sock) (console_error "No active console session" None)
  | Some session => sendCommand session command
  end.

Definition on_console_input (sock : socket_t) (input : string) : M unit :=
  session ← gets (λ w, activeSessions w !! sock_id sock);
  match session with
  | None => mret tt
  | Some session => sendInput session input
  end.

Definition on_console_resize (sock : socket_t) (cols rows : number) : M unit :=
  session ← gets (λ w, activeSessions w !! sock_id sock);
  match session with
  | None => mret tt
  | Some session => resize session cols rows
  end.

Definition on_console_disconnect (sock : socket_t) : M unit :=
  session ← gets (λ w, activeSessions w !! sock_id sock);
  match session with
  | None => mret tt
  | Some session => cleanup session
  end.

Definition on_disconnect (sock : socket_t) : M unit :=
  logger "info" "Console WebSocket disconnected";;
  on_console_disconnect sock.

(** *** The [/stats] namespace *)

Definition clearInterval (t : nat) : M unit := modify (with_timers (delete t)).

Definition setInterval (tm : timer) : M nat :=
  t ← gets (λ w, fresh (dom (timers w)));
  modify (with_timers <[t := tm]>);;
  mret t.

(** The delay handed to [setInterval]:
    [Math.max(1000, Math.min(10000, interval))]. *)
Definition clamp (interval : number) : number :=
  JsNum.max (of_Z 1000) (JsNum.min (of_Z 10000) interval).

(** [stats:subscribe]; [interval] is [None] when the message carries none,
    and the destructuring default [2000] applies. *)
Definition on_stats_subscribe (sock : socket_t) (containerId : option string)
    (interval : option number) : M unit :=
  try_catch
    (let interval := default (of_Z 2000) interval in
     match containerId with
     | None | Some EmptyString =>
         emit (sock_id sock) (stats_error "Container ID is required" None)
     | Some containerId =>
         container ← prisma_container_findUnique containerId;
         match container with
         | None => emit (sock_id sock) (stats_error "Container not found" None)
         | Some container =>
             if bool_decide (role (sock_user sock) ≠ "ADMIN")
                && bool_decide (ownerId container ≠ user_id (sock_user sock))
             then emit (sock_id sock)
                    (stats_error "Access denied to this container" None)
             else
               match dockerId container with
               | None | Some EmptyString =>
                   emit (sock_id sock) (stats_error "Container is not running" None)
               | Some did =>
                   if bool_decide (status container ≠ "RUNNING")
                   then emit (sock_id sock)
                          (stats_error "Container is not running" None)
                   else
                     old ← gets (λ w, statsInterval w !! sock_id sock);
                     match old with
                     | Some t => clearInterval t
                     | None => mret tt
                     end;;
                     t ← setInterval {| delay := clamp interval;
                                        t_socket := sock_id sock;
                                        t_containerId := containerId;
                                        t_dockerId := did |};
                     modify (with_statsInterval <[sock_id sock := t]>);;
                     emit (sock_id sock) (stats_subscribed containerId interval)
               end
         end
     end)
    (λ error,
       logger "error" "Stats subscribe error:";;
       emit (sock_id sock)
         (stats_error "Failed to subscribe to stats" (Some (message error)))).

(** One firing of the timer's callback; a cleared timer does not fire. *)
Definition stats_tick (t : nat) : M unit :=
  tm ← gets (λ w, timers w !! t);
  match tm with
  | None => mret tt
  | Some tm =>
      try_catch
        (stats ← Manager.getContainerStats (t_dockerId tm);
         now ← Date_now;
         emit (t_socket tm) (stats_data (t_containerId tm) stats now))
        (λ error,
           logger "error" "Failed to get container stats:";;
           emit (t_socket tm)
             (stats_error "Failed to get container stats" (Some (message error))))
  end.

Definition on_stats_unsubscribe (sock : socket_t) : M unit :=
  old ← gets (λ w, statsInterval w !! sock_id sock);
  match old with
  | Some t =>
      clearInterval t;;
      modify (with_statsInterval (delete (sock_id sock)))
  | None => mret tt
  end;;
  emit (sock_id sock) stats_unsubscribed.

Definition on_stats_disconnect (sock : socket_t) : M unit :=
  old ← gets (λ w, statsInterval w !! sock_id sock);
  match old with
  | Some t => clearInterval t
  | None => mret tt
  end.

End Console.

(** ** routes/containers.js: POST /api/containers *)

Module Routes.

Import Eff.

Definition ValidationError (msg : string) : js_error :=
  {| ctor := "ValidationError"; message := msg |}.
Definition ConflictError (msg : string) : js_error :=
  {| ctor := "ConflictError"; message := msg |}.

(** *** The datastore calls of the route *)

Definition prisma_container_count (ownerId' : string) : M nat :=
  external ContainerCount;;
  gets (λ w, size (filter (λ kv, ownerId kv.2 = ownerId') (containers w))).

Definition prisma_container_findFirst (name' ownerId' : string)
    : M (option container_row) :=
  external ContainerFindFirst;;
  gets (λ w, head (filter (λ r, name r = name' ∧ ownerId r = ownerId')
                     (map_to_list (containers w)).*2)).

(** [prisma.container.create({ data })]: the datastore picks an identifier
    that no record has. *)
Definition prisma_container_create (data : string → container_row) : M container_row :=
  external ContainerCreate;;
  i ← gets (λ w, fresh (dom (containers w)));
  modify (with_containers <[i := data i]>);;
  mret (data i).

Definition prisma_container_update (where_id : string)
    (data : container_row → container_row) : M container_row :=
  external ContainerUpdate;;
  r ← gets (λ w, containers w !! where_id);
  match r with
  | None => throw (Error "Record to update not found.")
  | Some r =>
      modify (with_containers <[where_id := data r]>);;
      mret (data r)
  end.

(** [prisma.container.delete({ where: { id } })]; [None] is an [undefined]
    identifier, which the client rejects. *)
Definition prisma_container_delete (where_id : option string) : M unit :=
  external ContainerDelete;;
  match where_id with
  | None => throw (Error "Argument `where` needs at least one of `id` arguments.")
  | Some i =>
      r ← gets (λ w, containers w !! i);
      match r with
      | None => throw (Error "Record to delete does not exist.")
      | Some _ => modify (with_containers (delete i))
      end
  end.

(** *** Helper functions of the module *)

Definition checkContainerLimit (userId userRole : string) : M bool :=
  if bool_decide (userRole = "ADMIN") then mret true
  else
    containerCount ← prisma_container_count userId;
    v ← gets (λ w, MAX_CONTAINERS_PER_MEMBER (env (surroundings w)));
    let parsed := parseInt (default "undefined" v) in
    let maxContainers := if truthy parsed then parsed else of_Z 1 in
    mret (JsNum.gt maxContainers (of_Z (Z.of_nat containerCount))).

Definition getAllowedImages : M (list string) :=
  v ← gets (λ w, ALLOWED_IMAGES (env (surroundings w)));
  match v with
  | ImagesArray (a :: l) => mret (a :: l)
  | ImagesArray [] | ImagesUnset =>
      mret ["node:18-alpine"; "node:16-alpine"; "python:3.11-alpine";
            "python:3.9-alpine"; "nginx:alpine"; "ubuntu:22.04"]
  | ImagesMalformed =>
      logger "error" "Error parsing allowed images:";;
      mret ["node:18-alpine"; "python:3.11-alpine"]
  end.

(** [s.split(':')[0]] *)
Fixpoint before_colon (s : string) : string :=
  match s with
  | EmptyString => EmptyString
  | String c r => if bool_decide (c = ":"%char) then EmptyString
                  else String c (before_colon r)
  end.

(** *** Lexical scopes

    An identifier is looked up in the scope of the block that mentions it;
    a name that no enclosing scope declares raises a ReferenceError.  A
    [const] belongs to the block that declares it. *)

Inductive binding :=
  | Bound
  | BoundRow (r : container_row).

Definition scope := gmap string binding.

Definition declare (x : string) (b : binding) (sc : scope) : scope := <[x := b]> sc.

Definition resolve (sc : scope) (x : string) : M binding :=
  match sc !! x with
  | Some b => mret b
  | None => throw (ReferenceError (x +:+ " is not defined"))
  end.

(** [b.id] and [b?.id] *)
Definition member_id (b : binding) : M string :=
  match b with
  | BoundRow r => mret (id r)
  | Bound => throw (TypeError "Cannot read properties of undefined (reading 'id')")
  end.

Definition optional_id (b : binding) : option string :=
  match b with
  | BoundRow r => Some (id r)
  | Bound => None
  end.

(** Names declared at the top level of the module, after those every
    module is given; the runtime has no global named [container]. *)
Definition module_scope : list string :=
  ["exports"; "require"; "module"; "__filename"; "__dirname";
   "express"; "body"; "param"; "query"; "validationResult"; "getPrismaClient";
   "getDockerClient"; "ContainerManager"; "verifyToken";
   "requireContainerOwnership"; "auditLog"; "containerLimiter"; "asyncHandler";
   "sendSuccessResponse"; "ValidationError"; "NotFoundError"; "ConflictError";
   "logger"; "router"; "containerManager"; "createContainerValidation";
   "updateContainerValidation"; "checkContainerLimit"; "getAllowedImages";
   "syncContainerStatus"].

(** Parameters and [const]s of the handler's function body, outside its
    [try] statement. *)
Definition handler_scope : list string :=
  ["req"; "res"; "errors"; "name"; "image"; "cmd"; "env"; "ports"; "resources";
   "userId"; "userRole"; "canCreateContainer"; "allowedImages";
   "imageWithoutTag"; "isImageAllowed"; "prisma"; "existingContainer"].

Definition function_scope : scope :=
  list_to_map ((λ x, (x, Bound)) <$> (handler_scope ++ module_scope)).

(** *** The handler *)

(** The request, as far as resources and ownership go: [cmd], [env] and
    [ports] of the body are passed through by the handler and are left
    out, as are the matching columns of the record.  [validation_errors]
    is what [validationResult(req)] holds. *)
Record request := {
  validation_errors : list string;
  body_name : string;
  body_image : string;
  resources_memory : option jsval;
  resources_cpus : option jsval;
  req_user : user_row;
}.

Inductive response :=
  | Success (statusCode : Z) (message : string) (container : container_row).

Definition js_truthy (v : jsval) : bool :=
  match v with
  | VNum n => truthy n
  | VStr s => negb (bool_decide (s = EmptyString))
  end.

(** [a || b] on values that may be [undefined]. *)
Definition or_else (a : option jsval) (b : jsval) : jsval :=
  match a with
  | Some v => if js_truthy v then v else b
  | None => b
  end.

(** The [catch (error)] block of the handler's [try] statement.  Its scope
    is the function's scope and [error]: the [const]s of the [try] block
    are not in it. *)
Definition create_handler_catch (error : js_error) : M response :=
  let block := declare "error" Bound function_scope in
  try_catch
    ((* container?.id *)
     container ← resolve block "container";
     prisma_container_delete (optional_id container))
    (λ cleanupError, logger "error" "Failed to cleanup container record:");;
  throw error.

(** The block of the handler's [try] statement. *)
Definition create_handler_try (req : request) : M response :=
  let name := body_name req in
  let image := body_image req in
  let userId := user_id (req_user req) in
  penv ← gets (λ w, env (surroundings w));
  container ← prisma_container_create (λ i,
    {| id := i; name := name; image := image; ownerId := userId;
       status := "CREATED"; dockerId := None;
       res_memory :=
         or_else (resources_memory req)
           (or_else (VStr <$> DEFAULT_CONTAINER_MEMORY penv) (VStr "512m"));
       res_cpus :=
         or_else (resources_cpus req)
           (or_else
              (Some (VNum (parseFloat
                 (VStr (default "undefined" (DEFAULT_CONTAINER_CPU penv))))))
              (VNum (Num (1 / 2)%Qc))) |});
  let block := declare "container" (BoundRow container) function_scope in
  cid ← resolve block "container" ≫= member_id;
  dockerContainer ← Manager.createContainer ("panel_" +:+ cid) image
    {| Docker.memory := Some (or_else (resources_memory req) (VStr "512m"));
       Docker.cpus :=
         Some (or_else (resources_cpus req) (VNum (Num (1 / 2)%Qc))) |};
  let block := declare "dockerContainer" Bound block in
  cid ← resolve block "container" ≫= member_id;
  updatedContainer ← prisma_container_update cid (λ r,
    {| id := id r; name := Eff.name r; image := Eff.image r;
       ownerId := ownerId r; status := "CREATED";
       dockerId := Some dockerContainer;
       res_memory := res_memory r; res_cpus := res_cpus r |});
  logger "info" "Container created successfully";;
  mret (Success 201 "Container created successfully" updatedContainer).

Definition create_handler (req : request) : M response :=
  (if bool_decide (validation_errors req = []) then mret tt
   else throw (ValidationError "Validation failed"));;
  let name := body_name req in
  let image := body_image req in
  let userId := user_id (req_user req) in
  let userRole := role (req_user req) in
  canCreateContainer ← checkContainerLimit userId userRole;
  if negb canCreateContainer
  then throw (ConflictError
                "Container limit reached. Members can only have 1 active container.")
  else
    allowedImages ← getAllowedImages;
    let imageWithoutTag := before_colon image in
    let isImageAllowed :=
      existsb (λ allowed, bool_decide (allowed = image)
                          || bool_decide (before_colon allowed = imageWithoutTag))
        allowedImages in
    if negb isImageAllowed && bool_decide (userRole ≠ "ADMIN")
    then throw (ValidationError
                  ("Image " +:+ image +:+ " is not allowed. Allowed images: "
                   +:+ String.concat ", " allowedImages))
    else
      existingContainer ← prisma_container_findFirst name userId;
      match existingContainer with
      | Some _ => throw (ConflictError "Container with this name already exists")
      | None => try_catch (create_handler_try req) create_handler_catch
      end.

End Routes.

(** ** The specification's statements, in its own words, and the notions
    the properties are stated with *)

Module Stated.

Fixpoint all_digits (s : string) : bool :=
  match s with
  | EmptyString => true
  | String c r => is_digit c && all_digits r
  end.

(** "digits": one or more decimal digits. *)
Definition digits (ds : string) : Prop := ds ≠ EmptyString ∧ all_digits ds = true.

(** "an optional unit b, k, m, or g" *)
Definition optional_unit (u : string) : Prop :=
  u = "" ∨ u = "b" ∨ u = "k" ∨ u = "m" ∨ u = "g".

(** "value times 1, 1024, 1024^2, or 1024^3; missing unit means bytes" *)
Definition unit_bytes (u : string) : Z :=
  if bool_decide (u = "k") then 1024
  else if bool_decide (u = "m") then 1024 ^ 2
  else if bool_decide (u = "g") then 1024 ^ 3
  else 1.



(** What may follow the digits of a string: nothing, or a character that
    is no digit. *)
Definition stops (r : string) : Prop :=
  match r with
  | EmptyString => True
  | String c _ => is_digit c = false
  end.

(** "(cpuDelta / systemDelta) * onlineCPUs * 100" *)
Definition stated_cpuPercent (s : Docker.stats) : option number :=
  cpuDelta ← Docker.cpuDelta s;
  Some (JsNum.mul
          (JsNum.mul (JsNum.div cpuDelta (Docker.systemDelta s))
             (to_number (Docker.online_cpus (Docker.cpu_stats s))))
          (of_Z 100)).

(** The state CLOSED of a console session: inactive, with no stream and
    no exec handle. *)
Definition CLOSED (s : Eff.ConsoleSession) : Prop :=
  Eff.isActive s = false ∧ Eff.stream s = None ∧ Eff.dockerExec s = None.

(** The session object once [cleanup] has run on it. *)
Definition closed (s : Eff.ConsoleSession) : Eff.ConsoleSession :=
  Console.set_dockerExec None (Console.set_stream None (Console.set_isActive false s)).

(** The CONSOLE_DISCONNECT entry of a session that ends at time [t]. *)
Definition disconnect_entry (s : Eff.ConsoleSession) (t : Z) : Eff.log_row :=
  {| Eff.log_containerId := Eff.containerId s;
     Eff.command := "CONSOLE_DISCONNECT";
     Eff.output := Some ("Console session ended. Duration: "
                         +:+ pretty (t - Eff.startTime s) +:+ "ms");
     Eff.exitCode := Some 0 |}.

(** A failed [start]: from world [w] it ends in world [w'], having sent
    the failure notification with reason [msg], made no call on the engine,
    and left the session CLOSED and out of the registry. *)
Definition start_failed_with (msg : string) (w : Eff.world) (this : nat)
    (s : Eff.ConsoleSession) (w' : Eff.world) : Prop :=
  Console.start this w = (Eff.Ok tt, w')
  ∧ Eff.emitted (Eff.socket s) (Eff.trace w')
    = Eff.emitted (Eff.socket s) (Eff.trace w)
      ++ [Eff.console_error "Failed to start console session" (Some msg)]
  ∧ Eff.engine_calls (Eff.trace w') = Eff.engine_calls (Eff.trace w)
  ∧ (∃ s', Eff.heap w' !! this = Some s' ∧ CLOSED s')
  ∧ Eff.activeSessions w' !! Eff.socket s = None.


(** The number of CONSOLE_DISCONNECT entries in a log. *)
Definition disconnects (l : list Eff.log_row) : nat :=
  length (filter (λ r, Eff.command r = "CONSOLE_DISCONNECT") l).

End Stated.

(** ** Sample data used by the examples *)

Module Scenario.

Import Eff.

Definition counters (total system : Z) (cpus : Z) : Docker.cpu_stats_t :=
  {| Docker.cpu_usage := Some {| Docker.total_usage := Some (of_Z total) |};
     Docker.system_cpu_usage := Some (of_Z system);
     Docker.online_cpus := Some (of_Z cpus) |}.

(** A four-core container that used 250 of the 1000 units of system time
    between the two readings, and 50 of 200 bytes of memory. *)
Definition four_cores : Docker.stats :=
  {| Docker.cpu_stats := counters 350 2000 4;
     Docker.precpu_stats := counters 100 1000 4;
     Docker.memory_stats :=
       {| Docker.usage := Some (of_Z 50); Docker.limit := Some (of_Z 200) |} |}.

(** A sample whose system counter did not advance and whose memory limit
    is zero. *)
Definition stalled : Docker.stats :=
  {| Docker.cpu_stats := counters 200 1000 4;
     Docker.precpu_stats := counters 100 1000 4;
     Docker.memory_stats :=
       {| Docker.usage := Some (of_Z 50); Docker.limit := Some (of_Z 0) |} |}.

Definition alice : user_row :=
  {| user_id := "u1"; username := "alice"; role := "MEMBER"; user_isActive := true |}.
Definition bob : user_row :=
  {| user_id := "u2"; username := "bob"; role := "MEMBER"; user_isActive := true |}.

(** Carol is an administrator; [carol_demoted] is her record after
    PUT /api/admin/users/u3 changed her role to MEMBER. *)
Definition carol : user_row :=
  {| user_id := "u3"; username := "carol"; role := "ADMIN"; user_isActive := true |}.

(** Alice's running container. *)
Definition c1 : container_row :=
  {| id := "c1"; name := "web"; image := "node:18-alpine"; ownerId := "u1";
     status := "RUNNING"; dockerId := Some "e1";
     res_memory := VStr "512m"; res_cpus := VStr "0.5" |}.

(** What [getContainerStats] reports on [four_cores]. *)
Definition four_cores_report : Docker.report :=
  {| Docker.cpuPercent := of_Z 25; Docker.memoryUsage := of_Z 50;
     Docker.memoryLimit := of_Z 200; Docker.memoryPercent := of_Z 25 |}.

Definition no_faults : external_op → option string := λ _, None.

(** The engine refuses to create containers. *)
Definition engine_create_fails : external_op → option string :=
  λ op, match op with EngineCreate => Some "no such image" | _ => None end.

(** The record update after the engine call fails. *)
Definition update_fails : external_op → option string :=
  λ op, match op with ContainerUpdate => Some "connection lost" | _ => None end.

Definition surroundings0 (f : external_op → option string) : environment :=
  {| now := 1000; faults := f; sample := λ _, four_cores;
     engine_id := λ n, "e-" +:+ n;
     env := {| MAX_CONTAINERS_PER_MEMBER := None; ALLOWED_IMAGES := ImagesUnset;
               DEFAULT_CONTAINER_MEMORY := None; DEFAULT_CONTAINER_CPU := None |} |}.

Definition world0 (cs : gmap string container_row) (f : external_op → option string)
    : world :=
  {| containers := cs; users := {[ "u1" := alice; "u2" := bob; "u3" := carol ]};
     containerLogs := []; activeSessions := ∅; heap := ∅; streams := ∅;
     statsInterval := ∅; timers := ∅; trace := [];
     surroundings := surroundings0 f |}.

Definition alice_socket : Console.socket_t :=
  {| Console.sock_id := "s1"; Console.sock_user := alice |}.
Definition bob_socket : Console.socket_t :=
  {| Console.sock_id := "s2"; Console.sock_user := bob |}.

(** A console session object of [user] on [container], as the constructor
    builds it, at reference [0] and registered for socket [sock]. *)
Definition with_session (sock container user : string) (w : world) : world :=
  with_activeSessions <[sock := 0%nat]>
    (with_heap <[0%nat := {| socket := sock; containerId := container;
                             userId := user; dockerExec := None; stream := None;
                             isActive := false; startTime := 400;
                             commandHistory := [] |}]> w).

(** Alice asks for a container named [web] from an allowed image. *)
Definition create_web : Routes.request :=
  {| Routes.validation_errors := []; Routes.body_name := "web";
     Routes.body_image := "node:18-alpine"; Routes.resources_memory := None;
     Routes.resources_cpus := None; Routes.req_user := alice |}.

End Scenario.

(** ** Notions used to state properties of runs of several handlers *)

Module Notions.

Import Eff Console.

(** The session object once [start] has attached the exec handle [ex] and
    the stream [st] to it. *)
Definition opened (ex st : nat) (s : ConsoleSession) : ConsoleSession :=
  set_isActive true (set_stream (Some st) (set_dockerExec (Some ex) s)).

(** The entries [start] and [sendCommand] write to the container log. *)
Definition connect_entry (cid : string) : log_row :=
  {| log_containerId := cid; command := "CONSOLE_CONNECT";
     output := Some "Console session started"; exitCode := Some 0 |}.

Definition command_entry (cid cmd : string) : log_row :=
  {| log_containerId := cid; command := String.substring 0 1000 cmd;
     output := None; exitCode := None |}.

Definition newline : string := String "010"%char EmptyString.

(** The stream object once it was destroyed. *)
Definition destroy (o : stream_obj) : stream_obj :=
  {| written := written o; destroyed := true; listener := listener o |}.

(** The stream object once [data] was written to it. *)
Definition wrote (data : string) (o : stream_obj) : stream_obj :=
  {| written := written o ++ [data]; destroyed := destroyed o;
     listener := listener o |}.

(** What [f] leaves of a session object: everything but the command
    history. *)
Definition keeps_session (f : ConsoleSession → ConsoleSession) : Prop :=
  ∀ x, socket (f x) = socket x ∧ isActive (f x) = isActive x
       ∧ stream (f x) = stream x ∧ dockerExec (f x) = dockerExec x
       ∧ containerId (f x) = containerId x ∧ userId (f x) = userId x
       ∧ startTime (f x) = startTime x.

(** The session object [console:connect] constructs for the container
    [cid], and the world once it is registered, before [start] runs. *)
Definition fresh_session (sock : socket_t) (cid : string) (w : world)
    : ConsoleSession :=
  {| socket := sock_id sock; containerId := cid;
     userId := user_id (sock_user sock); dockerExec := None; stream := None;
     isActive := false; startTime := now (surroundings w);
     commandHistory := [] |}.

Definition registered (sock : socket_t) (cid : string) (w : world) : world :=
  with_activeSessions <[sock_id sock := fresh (dom (heap w))]>
    (with_heap <[fresh (dom (heap w)) := fresh_session sock cid w]> w).

(** A [start] that fails with the reason [msg] after the calls [calls] on
    the engine: the client is told so, the session is closed and out of
    the registry, and the log gains its CONSOLE_DISCONNECT entry unless
    the datastore rejects it. *)
Definition start_refused (msg : string) (calls : list engine_call)
    (w : world) (this : nat) (s : ConsoleSession) (w' : world) : Prop :=
  start this w = (Ok tt, w')
  ∧ heap w' = <[this := Stated.closed s]> (heap w)
  ∧ activeSessions w' = delete (socket s) (activeSessions w)
  ∧ emitted (socket s) (trace w')
    = emitted (socket s) (trace w)
      ++ [console_error "Failed to start console session" (Some msg)]
  ∧ engine_calls (trace w') = engine_calls (trace w) ++ calls
  ∧ containerLogs w'
    = containerLogs w
      ++ match faults (surroundings w) ContainerLogCreate with
         | None => [Stated.disconnect_entry s (now (surroundings w))]
         | Some _ => []
         end
  ∧ (∀ st, stream s ≠ Some st → streams w' !! st = streams w !! st).

(** A [console:connect] that is refused with the reason [msg]: the client
    is told so, the connection has no session afterwards, no stream was
    opened, and the calls [calls] were made on the engine. *)
Definition connect_refused (msg : string) (calls : list engine_call)
    (sock : socket_t) (cid : string) (w w' : world) : Prop :=
  on_console_connect sock (Some cid) w = (Ok tt, w')
  ∧ emitted (sock_id sock) (trace w')
    = emitted (sock_id sock) (trace w)
      ++ [console_error "Failed to start console session" (Some msg)]
  ∧ engine_calls (trace w') = engine_calls (trace w) ++ calls
  ∧ activeSessions w' !! sock_id sock = None
  ∧ (∃ s, heap w' !! fresh (dom (heap w)) = Some s
          ∧ isActive s = false ∧ stream s = None ∧ dockerExec s = None)
  ∧ streams w' = streams w
  ∧ ¬ (∃ r, r ∈ containerLogs w' ∧ (r ∉ containerLogs w)
            ∧ command r = "CONSOLE_CONNECT").

(** A session is either open (active, with a stream and an exec handle)
    or closed (inactive, with neither). *)
Definition coherent (s : ConsoleSession) : Prop :=
  (isActive s = true ∧ is_Some (stream s) ∧ is_Some (dockerExec s))
  ∨ (isActive s = false ∧ stream s = None ∧ dockerExec s = None).

(** Every session object is coherent, and the registry maps a connection
    to a session object of that connection. *)
Definition sessions_ok (w : world) : Prop :=
  (∀ this s, heap w !! this = Some s → coherent s)
  ∧ (∀ sid this, activeSessions w !! sid = Some this →
       ∃ s, heap w !! this = Some s ∧ socket s = sid).

(** What can happen in the [/console] namespace: the six messages of a
    connection, and the three events of an exec stream. *)
Inductive console_event :=
  | ConsoleConnect (sock : socket_t) (containerId : option string)
  | ConsoleCommand (sock : socket_t) (command : string)
  | ConsoleInput (sock : socket_t) (input : string)
  | ConsoleResize (sock : socket_t) (cols rows : number)
  | ConsoleDisconnect (sock : socket_t)
  | SocketDisconnect (sock : socket_t)
  | StreamData (st : nat) (chunk : string)
  | StreamError (st : nat) (error : js_error)
  | StreamEnd (st : nat).

Definition console_handler (e : console_event) : M unit :=
  match e with
  | ConsoleConnect sock containerId => on_console_connect sock containerId
  | ConsoleCommand sock command => on_console_command sock command
  | ConsoleInput sock input => on_console_input sock input
  | ConsoleResize sock cols rows => on_console_resize sock cols rows
  | ConsoleDisconnect sock => on_console_disconnect sock
  | SocketDisconnect sock => on_disconnect sock
  | StreamData st chunk => stream_data st chunk
  | StreamError st error => stream_error st error
  | StreamEnd st => stream_end st
  end.

(** What can happen in the [/stats] namespace: the messages of a
    connection, its closing, and the firing of a timer. *)
Inductive stats_event :=
  | StatsSubscribe (sock : socket_t) (containerId : option string)
      (interval : option number)
  | StatsUnsubscribe (sock : socket_t)
  | StatsDisconnect (sock : socket_t)
  | StatsTick (t : nat).

Definition stats_handler (e : stats_event) : M unit :=
  match e with
  | StatsSubscribe sock containerId interval =>
      on_stats_subscribe sock containerId interval
  | StatsUnsubscribe sock => on_stats_unsubscribe sock
  | StatsDisconnect sock => on_stats_disconnect sock
  | StatsTick t => stats_tick t
  end.

(** The world after the handlers of the events [es] ran one after the
    other, whatever each of them returned. *)
Definition after {E} (handler : E → M unit) (es : list E) (w : world) : world :=
  foldl (λ w e, (handler e w).2) w es.

(** Every timer is the one its connection holds: a connection has at most
    one timer. *)
Definition one_timer_each (w : world) : Prop :=
  ∀ t tm, timers w !! t = Some tm → statsInterval w !! t_socket tm = Some t.

(** The event is a message of the connection [sid], or its closing. *)
Definition of_connection (sid : string) (e : stats_event) : Prop :=
  match e with
  | StatsSubscribe sock _ _ | StatsUnsubscribe sock | StatsDisconnect sock =>
      sock_id sock = sid
  | StatsTick _ => False
  end.

(** No timer delivers to the connection [sid]. *)
Definition silent (sid : string) (w : world) : Prop :=
  ∀ t tm, timers w !! t = Some tm → t_socket tm ≠ sid.

(** No two containers of one owner have the same name. *)
Definition names_unique (cs : gmap string container_row) : Prop :=
  ∀ i j r1 r2, cs !! i = Some r1 → cs !! j = Some r2 →
    ownerId r1 = ownerId r2 → name r1 = name r2 → i = j.

(** The record the create route writes before it calls the engine, and
    the limits it then asks the engine for. *)
Definition provisional_row (req : Routes.request) (w : world) (i : string)
    : container_row :=
  {| id := i; name := Routes.body_name req; image := Routes.body_image req;
     ownerId := user_id (Routes.req_user req); status := "CREATED";
     dockerId := None;
     res_memory :=
       Routes.or_else (Routes.resources_memory req)
         (Routes.or_else
            (VStr <$> DEFAULT_CONTAINER_MEMORY (env (surroundings w)))
            (VStr "512m"));
     res_cpus :=
       Routes.or_else (Routes.resources_cpus req)
         (Routes.or_else
            (Some (VNum (parseFloat
               (VStr (default "undefined"
                        (DEFAULT_CONTAINER_CPU (env (surroundings w))))))))
            (VNum (Num (1 / 2)%Qc))) |}.

Definition requested_limits (req : Routes.request) : Docker.HostConfig :=
  Docker.hostConfig
    {| Docker.memory :=
         Some (Routes.or_else (Routes.resources_memory req) (VStr "512m"));
       Docker.cpus :=
         Some (Routes.or_else (Routes.resources_cpus req)
                 (VNum (Num (1 / 2)%Qc))) |}.

Definition with_dockerId (d : string) (r : container_row) : container_row :=
  {| id := id r; name := name r; image := image r; ownerId := ownerId r;
     status := "CREATED"; dockerId := Some d;
     res_memory := res_memory r; res_cpus := res_cpus r |}.

(** The image passes the allow-list: it is on the list, or it names the
    repository of an image on the list, whatever its tag. *)
Definition image_allowed (image : string) (allowed : list string) : Prop :=
  ∃ a, a ∈ allowed
    ∧ (a = image ∨ Routes.before_colon a = Routes.before_colon image).

(** The limit [checkContainerLimit] applies when MAX_CONTAINERS_PER_MEMBER
    is [v]. *)
Definition member_limit (v : option string) (limit : Z) : Prop :=
  (v = None ∧ limit = 1)
  ∨ (∃ ds, v = Some ds ∧ Stated.digits ds ∧ limit = digits_value ds ∧ 0 < limit).

(** The message of the quota refusal. *)
Definition limit_reached : string :=
  "Container limit reached. Members can only have 1 active container.".

(** The number of containers a user owns. *)
Definition owned (uid : string) (cs : gmap string container_row) : nat :=
  size (filter (λ kv, ownerId kv.2 = uid) cs).

End Notions.

(** ** routes/containers.js: the validation rules of the create route *)

Module Validation.

(** [/^\d+[kmg]?$/i.test(s)], the rule for [resources.memory]. *)
Definition memory_rule (s : string) : bool :=
  let '(d, r) := span_digits s in
  match d, r with
  | EmptyString, _ => false
  | _, EmptyString => true
  | _, String c EmptyString =>
      bool_decide (c = "k"%char ∨ c = "m"%char ∨ c = "g"%char
                   ∨ c = "K"%char ∨ c = "M"%char ∨ c = "G"%char)
  | _, _ => false
  end.


End Validation.

(** ** middleware/auth.js *)

Module Auth.

Import Eff.

(** What a middleware does with a request: it hands it on with [next()],
    or it answers it with a status code and a message. *)
Inductive outcome :=
  | Next
  | Respond (statusCode : Z) (message : string).

#[global] Instance outcome_eq_dec : EqDecision outcome.
Proof. solve_decision. Defined.




(** [requireRole(roles)]; [user] is [None] when no earlier middleware set
    [req.user]. *)
Definition requireRole (roles : list string) (user : option user_row) : M outcome :=
  match user with
  | None => mret (Respond 401 "Authentication required")
  | Some user =>
      if bool_decide (role user ∈ roles) then mret Next
      else
        logger "security" "Unauthorized access attempt";;
        mret (Respond 403 "Insufficient permissions")
  end.

Definition requireAdmin : option user_row → M outcome := requireRole ["ADMIN"].
Definition requireMember : option user_row → M outcome := requireRole ["MEMBER"; "ADMIN"].

(** [requireContainerOwnership]: [containerId] is [req.params.containerId]
    and [user] is [req.user]. *)
Definition requireContainerOwnership (containerId : string) (user : user_row)
    : M outcome :=
  try_catch
    (let userId := user_id user in
     let userRole := role user in
     if bool_decide (userRole = "ADMIN") then mret Next
     else
       container ← prisma_container_findUnique containerId;
       match container with
       | None => mret (Respond 404 "Container not found")
       | Some container =>
           if bool_decide (ownerId container ≠ userId)
           then
             logger "security" "Unauthorized container access attempt";;
             mret (Respond 403 "Access denied to this container")
           else mret Next
       end)
    (λ error,
       logger "error" "Container ownership check error:";;
       mret (Respond 500 "Authorization error")).

(** [userRateLimit(maxRequests, windowMs)]: the middleware it returns, on
    the request of [key] ([req.user?.id || req.ip]) arriving at time
    [now].  The map [requests] of the closure is passed in and out. *)
Definition userRateLimit (maxRequests windowMs : Z) (key : string) (now : Z)
    (requests : gmap string (list Z)) : outcome * gmap string (list Z) :=
  let windowStart := now - windowMs in
  let requests :=
    match requests !! key with
    | Some userRequests =>
        <[key := filter (λ time, windowStart < time) userRequests]> requests
    | None => requests
    end in
  let currentRequests := default [] (requests !! key) in
  if bool_decide (maxRequests ≤ Z.of_nat (length currentRequests))
  then (Respond 429 "Too many requests", requests)
  else (Next, <[key := currentRequests ++ [now]]> requests).

(** The requests [reqs], each a key and its arrival time, served in order
    by one limiter: the outcome of each. *)
Fixpoint serve (maxRequests windowMs : Z) (reqs : list (string * Z))
    (requests : gmap string (list Z)) : list outcome :=
  match reqs with
  | [] => []
  | (key, now) :: reqs =>
      let '(o, requests) := userRateLimit maxRequests windowMs key now requests in
      o :: serve maxRequests windowMs reqs requests
  end.

(** The arrival times of the requests of [key] that were handed on. *)
Fixpoint let_through (key : string) (reqs : list (string * Z)) (os : list outcome)
    : list Z :=
  match reqs, os with
  | (k, t) :: reqs, o :: os =>
      if bool_decide (k = key) && bool_decide (o = Next)
      then t :: let_through key reqs os
      else let_through key reqs os
  | _, _ => []
  end.

(** The timestamps the limiter holds for [key]. *)
Definition recorded (key : string) (requests : gmap string (list Z)) : list Z :=
  default [] (requests !! key).

(** The times [l] do not decrease, and none is before [t0]. *)
Fixpoint in_order (t0 : Z) (l : list Z) : Prop :=
  match l with
  | [] => True
  | t :: l => t0 ≤ t ∧ in_order t l
  end.

(** How many of the times [l] lie in the window of length [windowMs] that
    ends at [t]. *)
Definition within (windowMs t : Z) (l : list Z) : nat :=
  length (filter (λ x, t - windowMs < x ∧ x ≤ t) l).

(** The limiter holds, for the key, the admitted requests that are newer
    than the window ending at [t0]; none is later than [t0]; and no
    window holds more than [maxRequests] of them. *)
Definition accounts (maxRequests windowMs : Z) (key : string)
    (requests : gmap string (list Z)) (h : list Z) (t0 : Z) : Prop :=
  (∀ x, x ∈ h → x ≤ t0)
  ∧ filter (λ x, t0 - windowMs < x) (recorded key requests)
    = filter (λ x, t0 - windowMs < x) h
  ∧ ∀ t, Z.of_nat (within windowMs t h) ≤ maxRequests.

End Auth.

(** ** routes/containers.js: the routes on one container that need the
    engine only for statistics *)

Module Http.

Import Eff.

Definition NotFoundError (msg : string) : js_error :=
  {| ctor := "NotFoundError"; message := msg |}.

(** What [sendSuccessResponse(res, data, message)] sends: status 200, the
    message, and the data unless it is [null]. *)
Inductive reply (A : Type) :=
  | Sent (statusCode : Z) (message : string) (data : option A).
Arguments Sent {A} statusCode message data.

(** GET /api/containers/:id/stats *)
Definition stats_handler (id : string) : M (reply Docker.report) :=
  container ← prisma_container_findUnique id;
  match container with
  | None => throw (NotFoundError "Container not found")
  | Some container =>
      match dockerId container with
      | None | Some EmptyString =>
          throw (Routes.ValidationError "Container has no Docker ID")
      | Some did =>
          stats ← Manager.getContainerStats did;
          mret (Sent 200 "Container stats retrieved successfully" (Some stats))
      end
  end.

(** [prisma.container.findFirst({ where: { name, ownerId, id: { not: id } } })] *)
Definition prisma_container_findFirst_other (name' ownerId' id' : string)
    : M (option container_row) :=
  external ContainerFindFirst;;
  gets (λ w, head (filter (λ kv, name kv.2 = name' ∧ ownerId kv.2 = ownerId'
                                  ∧ kv.1 ≠ id')
                     (map_to_list (containers w))).*2).

Definition set_name (n : string) (r : container_row) : container_row :=
  {| id := id r; name := n; image := image r; ownerId := ownerId r;
     status := status r; dockerId := dockerId r;
     res_memory := res_memory r; res_cpus := res_cpus r |}.

Definition set_status (st : string) (r : container_row) : container_row :=
  {| id := id r; name := name r; image := image r; ownerId := ownerId r;
     status := st; dockerId := dockerId r;
     res_memory := res_memory r; res_cpus := res_cpus r |}.

(** PUT /api/containers/:id; [name] is [None] when the body has none, and
    the update then leaves the column as it is. *)
Definition update_handler (validation_errors : list string) (id : string)
    (name : option string) (user : user_row) : M (reply container_row) :=
  (if bool_decide (validation_errors = []) then mret tt
   else throw (Routes.ValidationError "Validation failed"));;
  match name with
  | None | Some EmptyString => mret tt
  | Some name =>
      existingContainer ← prisma_container_findFirst_other name (user_id user) id;
      match existingContainer with
      | Some _ => throw (Routes.ConflictError "Container with this name already exists")
      | None => mret tt
      end
  end;;
  container ← Routes.prisma_container_update id
                (λ r, match name with Some n => set_name n r | None => r end);
  mret (Sent 200 "Container updated successfully" (Some container)).

End Http.

(** ** The start, stop, restart and delete routes

    These routes call the engine for one container.  The calls are kept in
    [issued], next to the world of the other handlers; which of them the
    engine refuses is read from [refuses]. *)

Module Lifecycle.

Import Eff Http.

(** [container.start()], [container.stop({ t })], [container.restart({ t })]
    and [container.remove({ force })] on the container [dockerId].
    [force] is the query parameter as received, [None] when the request
    has none and the default [false] applies. *)
Inductive container_call :=
  | Start (dockerId : string)
  | Stop (dockerId : string) (t : Z)
  | Restart (dockerId : string) (t : Z)
  | Remove (dockerId : string) (force : option string).

#[global] Instance container_call_eq_dec : EqDecision container_call.
Proof. solve_decision. Defined.

Record server := {
  state : world;
  issued : list container_call;
  refuses : container_call → option string;
}.

Definition H (A : Type) : Type := server → result A * server.

#[global] Instance H_ret : MRet H := λ A a s, (Ok a, s).

#[global] Instance H_bind : MBind H :=
  λ A B k m s, match m s with
               | (Ok a, s') => k a s'
               | (Throw e, s') => (Throw e, s')
               end.

Definition raise {A} (e : js_error) : H A := λ s, (Throw e, s).

(** [try { m } catch (e) { h e }] *)
Definition attempt {A} (m : H A) (h : js_error → H A) : H A :=
  λ s, match m s with
       | (Ok a, s') => (Ok a, s')
       | (Throw e, s') => h e s'
       end.

(** A computation on the world, run on the world of the server. *)
Definition lift {A} (m : M A) : H A :=
  λ s, let '(r, w) := m (state s) in
       (r, {| state := w; issued := issued s; refuses := refuses s |}).

(** A call on the engine is recorded when it is issued, whether or not the
    engine then refuses it. *)
Definition call (c : container_call) : H unit :=
  λ s, let s' := {| state := state s; issued := issued s ++ [c];
                    refuses := refuses s |} in
       match refuses s c with
       | Some m => (Throw (Error m), s')
       | None => (Ok tt, s')
       end.

(** *** The methods of [ContainerManager] *)

Definition startContainer (containerId : string) : H bool :=
  attempt
    (call (Start containerId);;
     lift (logger "info" "Container started");;
     mret true)
    (λ error, lift (logger "error" "Failed to start container:");; raise error).

Definition stopContainer (containerId : string) (timeout : Z) : H bool :=
  attempt
    (call (Stop containerId timeout);;
     lift (logger "info" "Container stopped");;
     mret true)
    (λ error, lift (logger "error" "Failed to stop container:");; raise error).

Definition restartContainer (containerId : string) (timeout : Z) : H bool :=
  attempt
    (call (Restart containerId timeout);;
     lift (logger "info" "Container restarted");;
     mret true)
    (λ error, lift (logger "error" "Failed to restart container:");; raise error).

Definition removeContainer (containerId : string) (force : option string) : H bool :=
  attempt
    (call (Remove containerId force);;
     lift (logger "info" "Container removed");;
     mret true)
    (λ error, lift (logger "error" "Failed to remove container:");; raise error).

(** *** The routes *)

(** The record of the route's container and its engine identifier, or the
    error the route throws when either is missing. *)
Definition find_with_dockerId (id : string) : H (container_row * string) :=
  container ← lift (prisma_container_findUnique id);
  match container with
  | None => raise (NotFoundError "Container not found")
  | Some container =>
      match dockerId container with
      | None | Some EmptyString =>
          raise (Routes.ValidationError "Container has no Docker ID")
      | Some did => mret (container, did)
      end
  end.

Definition action_log (id command output : string) : log_row :=
  {| log_containerId := id; Eff.command := command; Eff.output := Some output;
     exitCode := Some 0 |}.

(** POST /api/containers/:id/start *)
Definition start_handler (id : string) : H (reply unit) :=
  '(container, did) ← find_with_dockerId id;
  startContainer did;;
  lift (Routes.prisma_container_update id (set_status "RUNNING"));;
  lift (prisma_containerLog_create
          (action_log id "START" "Container started successfully"));;
  mret (Sent 200 "Container started successfully" None).

(** POST /api/containers/:id/stop; [timeout] is [None] when the body has
    none, and the default [10] applies. *)
Definition stop_handler (id : string) (timeout : option Z) : H (reply unit) :=
  let timeout := default 10 timeout in
  '(container, did) ← find_with_dockerId id;
  stopContainer did timeout;;
  lift (Routes.prisma_container_update id (set_status "STOPPED"));;
  lift (prisma_containerLog_create
          (action_log id "STOP"
             ("Container stopped successfully (timeout: "
              +:+ pretty timeout +:+ "s)")));;
  mret (Sent 200 "Container stopped successfully" None).

(** POST /api/containers/:id/restart *)
Definition restart_handler (id : string) (timeout : option Z) : H (reply unit) :=
  let timeout := default 10 timeout in
  '(container, did) ← find_with_dockerId id;
  restartContainer did timeout;;
  lift (Routes.prisma_container_update id (set_status "RUNNING"));;
  lift (prisma_containerLog_create
          (action_log id "RESTART"
             ("Container restarted successfully (timeout: "
              +:+ pretty timeout +:+ "s)")));;
  mret (Sent 200 "Container restarted successfully" None).

(** DELETE /api/containers/:id *)
Definition delete_handler (id : string) (force : option string) : H (reply unit) :=
  container ← lift (prisma_container_findUnique id);
  match container with
  | None => raise (NotFoundError "Container not found")
  | Some container =>
      match dockerId container with
      | None | Some EmptyString => mret tt
      | Some did =>
          attempt (removeContainer did force;; mret tt)
            (λ error, lift (logger "warn" "Failed to remove Docker container:"))
      end;;
      lift (Routes.prisma_container_delete (Some id));;
      mret (Sent 200 "Container deleted successfully" None)
  end.

(** *** The three actions, to state what they have in common *)

Inductive action :=
  | DoStart
  | DoStop (timeout : option Z)
  | DoRestart (timeout : option Z).

Definition handler (a : action) (id : string) : H (reply unit) :=
  match a with
  | DoStart => start_handler id
  | DoStop timeout => stop_handler id timeout
  | DoRestart timeout => restart_handler id timeout
  end.

(** The call an action makes on the engine, the status it records, the
    log entry it writes and the message of its answer. *)
Definition action_call (a : action) (did : string) : container_call :=
  match a with
  | DoStart => Start did
  | DoStop timeout => Stop did (default 10 timeout)
  | DoRestart timeout => Restart did (default 10 timeout)
  end.

Definition action_status (a : action) : string :=
  match a with
  | DoStart | DoRestart _ => "RUNNING"
  | DoStop _ => "STOPPED"
  end.

Definition action_entry (a : action) (id : string) : log_row :=
  match a with
  | DoStart => action_log id "START" "Container started successfully"
  | DoStop timeout =>
      action_log id "STOP"
        ("Container stopped successfully (timeout: "
         +:+ pretty (default 10 timeout) +:+ "s)")
  | DoRestart timeout =>
      action_log id "RESTART"
        ("Container restarted successfully (timeout: "
         +:+ pretty (default 10 timeout) +:+ "s)")
  end.

Definition action_message (a : action) : string :=
  match a with
  | DoStart => "Container started successfully"
  | DoStop _ => "Container stopped successfully"
  | DoRestart _ => "Container restarted successfully"
  end.

End Lifecycle.

(** ** The middleware ahead of the handler of a route *)

Module Express.

Import Eff Auth Lifecycle.



End Express.

(** ** More sample data *)

Module Samples.

Import Eff.

(** The record a failed create leaves behind: no engine identifier. *)
Definition provisional : container_row :=
  {| id := "c2"; name := "api"; image := "node:18-alpine"; ownerId := "u1";
     status := "CREATED"; dockerId := None;
     res_memory := VStr "512m"; res_cpus := VStr "0.5" |}.

(** Alice's container, stopped. *)
Definition c1_stopped : container_row := Http.set_status "STOPPED" Scenario.c1.

(** The engine is unreachable for exec calls. *)
Definition exec_fails : external_op → option string :=
  λ op, match op with EngineExec => Some "connect ECONNREFUSED" | _ => None end.

(** The datastore rejects log entries. *)
Definition log_fails : external_op → option string :=
  λ op, match op with ContainerLogCreate => Some "connection lost" | _ => None end.

(** The stream refuses writes. *)
Definition write_fails : external_op → option string :=
  λ op, match op with StreamWrite => Some "write after end" | _ => None end.

(** The engine cannot pull images. *)
Definition pull_fails : external_op → option string :=
  λ op, match op with EnginePull => Some "pull access denied" | _ => None end.

(** The engine does not answer stats calls. *)
Definition stats_fails : external_op → option string :=
  λ op, match op with EngineStats => Some "no such container" | _ => None end.

(** The world with Alice's console open on [c1]: session [0] with stream
    [0]. *)
Definition console_open : world :=
  (Console.on_console_connect Scenario.alice_socket (Some "c1")
     (Scenario.world0 {[ "c1" := Scenario.c1 ]} Scenario.no_faults)).2.

(** The same world in other surroundings. *)
Definition with_surroundings (e : environment) (w : world) : world :=
  {| containers := containers w; users := users w;
     containerLogs := containerLogs w; activeSessions := activeSessions w;
     heap := heap w; streams := streams w; statsInterval := statsInterval w;
     timers := timers w; trace := trace w; surroundings := e |}.

(** Alice's console is open and its stream stops accepting writes. *)
Definition console_stalled : world :=
  with_surroundings (Scenario.surroundings0 write_fails) console_open.

(** The session object of Alice's open console. *)
Definition alice_session : ConsoleSession :=
  {| socket := "s1"; containerId := "c1"; userId := "u1";
     dockerExec := Some 0%nat; stream := Some 0%nat; isActive := true;
     startTime := 1000; commandHistory := [] |}.

(** A deployment whose default memory limit is configured as one
    gibibyte. *)
Definition configured : world :=
  with_surroundings
    {| now := 1000; faults := Scenario.no_faults;
       sample := λ _, Scenario.four_cores; engine_id := λ n, "e-" +:+ n;
       env := {| MAX_CONTAINERS_PER_MEMBER := None;
                 ALLOWED_IMAGES := ImagesUnset;
                 DEFAULT_CONTAINER_MEMORY := Some "1g";
                 DEFAULT_CONTAINER_CPU := None |} |}
    (Scenario.world0 ∅ Scenario.no_faults).

Definition server0 (cs : gmap string container_row)
    (r : Lifecycle.container_call → option string) : Lifecycle.server :=
  {| Lifecycle.state := Scenario.world0 cs Scenario.no_faults;
     Lifecycle.issued := []; Lifecycle.refuses := r |}.

(** The same server, with the external calls that fail given by [f]. *)
Definition server_with (f : external_op → option string)
    (cs : gmap string container_row)
    (r : Lifecycle.container_call → option string) : Lifecycle.server :=
  {| Lifecycle.state := Scenario.world0 cs f;
     Lifecycle.issued := []; Lifecycle.refuses := r |}.

Definition engine_accepts : Lifecycle.container_call → option string := λ _, None.
Definition engine_refuses : Lifecycle.container_call → option string :=
  λ _, Some "no such container".

End Samples.
(** ** Rounding to the nearest double *)

Module Binary64Facts.
Import Binary64.
Local Open Scope Q_scope.

Lemma pow2_pos k : 0 < pow2 k.
Proof. apply Qpower_0_lt. reflexivity. Qed.

Lemma pow2_plus j k : pow2 (j + k) == pow2 j * pow2 k.
Proof. apply Qpower_plus. discriminate. Qed.

Lemma pow2_lt_inv j k : pow2 j < pow2 k → (j < k)%Z.
Proof. intros H. apply (Qpower_lt_compat_l_inv 2); [exact H | reflexivity]. Qed.

Lemma pow2_le j k : (j ≤ k)%Z → pow2 j <= pow2 k.
Proof. intros H. apply Qpower_le_compat_l; [exact H | discriminate]. Qed.

Lemma pow2_Z k : (0 ≤ k)%Z → pow2 k == inject_Z (2 ^ k).
Proof. intros H. unfold pow2. rewrite Zpower_Qpower by exact H. reflexivity. Qed.

Lemma pow2_opp k : pow2 (- k) * pow2 k == 1.
Proof.
  rewrite <- pow2_plus. replace (- k + k)%Z with 0%Z by lia. reflexivity.
Qed.

(** The exponent is a lower bound: [2^e <= a]. *)
Lemma exponent_le a : 0 < a → pow2 (exponent a) <= a.
Proof.
  intros Ha. unfold exponent. destruct a as [n d]. cbn [Qnum Qden].
  set (k := (Z.log2 n - Z.log2 (Z.pos d))%Z).
  destruct (Qle_bool (pow2 k) (n # d)) eqn:E; [by apply Qle_bool_iff|].
  assert (Hn : (0 < n)%Z) by (unfold Qlt in Ha; simpl in Ha; lia).
  destruct (Z.log2_spec n Hn) as [Hn1 _].
  destruct (Z.log2_spec (Z.pos d) (Pos2Z.is_pos d)) as [_ Hd2].
  assert (Hln := Z.log2_nonneg n). assert (Hld := Z.log2_nonneg (Z.pos d)).
  replace (k - 1)%Z with (Z.log2 n + - (Z.succ (Z.log2 (Z.pos d))))%Z
    by (unfold k; lia).
  rewrite pow2_plus.
  assert (H1 : pow2 (Z.log2 n) <= inject_Z n).
  { rewrite pow2_Z by lia. rewrite <- Zle_Qle. exact Hn1. }
  assert (H2 : inject_Z (Z.pos d) <= pow2 (Z.succ (Z.log2 (Z.pos d)))).
  { rewrite pow2_Z by lia. rewrite <- Zle_Qle. lia. }
  assert (H3 := pow2_opp (Z.succ (Z.log2 (Z.pos d)))).
  assert (H4 := pow2_pos (- Z.succ (Z.log2 (Z.pos d)))).
  assert (H5 := pow2_pos (Z.log2 n)).
  assert (Hq : n # d == inject_Z n / inject_Z (Z.pos d)) by apply Qmake_Qdiv.
  rewrite Hq.
  assert (Hdpos : 0 < inject_Z (Z.pos d)) by (rewrite <- (Zlt_Qlt 0); lia).
  apply Qle_shift_div_l; [exact Hdpos|].
  set (x := pow2 (Z.log2 n)) in *. set (y := pow2 (- Z.succ (Z.log2 (Z.pos d)))) in *.
  set (z := pow2 (Z.succ (Z.log2 (Z.pos d)))) in *.
  set (N := inject_Z n) in *. set (D := inject_Z (Z.pos d)) in *.
  clearbody x y z N D. clear - H1 H2 H3 H4 H5 Hdpos.
  assert (H6 : 0 <= y * (z - D)) by (apply Qmult_le_0_compat; lra).
  assert (H7 : 0 <= x * (1 - y * D)) by (apply Qmult_le_0_compat; lra).
  lra.
Qed.

Lemma exponent_lt a k : 0 < a → a < pow2 k → (exponent a < k)%Z.
Proof.
  intros Ha Hk. apply pow2_lt_inv.
  apply Qle_lt_trans with a; [by apply exponent_le | exact Hk].
Qed.

Lemma ulp_exponent_le a t :
  0 < a → a < pow2 (t + 53) → (-1074 ≤ t)%Z → (ulp_exponent a ≤ t)%Z.
Proof.
  intros Ha Hk Ht. unfold ulp_exponent.
  assert (H := exponent_lt a _ Ha Hk). lia.
Qed.

Lemma nearest_even_le x M : x <= inject_Z M → (nearest_even x ≤ M)%Z.
Proof.
  intros H. unfold nearest_even.
  assert (Hf := Qfloor_le x). assert (Hc := Qlt_floor x).
  assert (HfM : (Qfloor x ≤ M)%Z).
  { rewrite <- (Qfloor_Z M). by apply Qfloor_resp_le. }
  assert (Hup : 0 < x - inject_Z (Qfloor x) → (Qfloor x + 1 ≤ M)%Z).
  { intros Hr. assert (Qfloor x < M)%Z; [|lia].
    rewrite Zlt_Qlt. lra. }
  destruct (Qcompare_spec (x - inject_Z (Qfloor x)) (1 # 2)) as [E|E|E].
  - destruct (Z.even (Qfloor x)); [done|]. apply Hup. lra.
  - done.
  - apply Hup. lra.
Qed.

Lemma nearest_even_ge x M : inject_Z M <= x → (M ≤ nearest_even x)%Z.
Proof.
  intros H. unfold nearest_even.
  assert (HfM : (M ≤ Qfloor x)%Z).
  { rewrite <- (Qfloor_Z M). by apply Qfloor_resp_le. }
  destruct (x - inject_Z (Qfloor x) ?= 1 # 2); [destruct (Z.even _)|..]; lia.
Qed.

(** Rounding does not cross a point of the grid it rounds to. *)
Lemma round_pos_grid a t lo hi :
  0 < a → (ulp_exponent a ≤ t)%Z →
  inject_Z lo * pow2 t <= a → a <= inject_Z hi * pow2 t →
  inject_Z hi * pow2 t < pow2 1024 →
  ∃ r, round_pos a = Some r
    ∧ inject_Z lo * pow2 t <= r ∧ r <= inject_Z hi * pow2 t.
Proof.
  intros Ha Ht Hlo Hhi Hmax. unfold round_pos.
  set (ex := ulp_exponent a) in *.
  assert (Hn : (0 ≤ t - ex)%Z) by lia.
  assert (Hpt : pow2 t == inject_Z (2 ^ (t - ex)) * pow2 ex).
  { rewrite <- pow2_Z by lia. rewrite <- pow2_plus. by replace (t - ex + ex)%Z with t by lia. }
  assert (Hp := pow2_pos ex).
  set (p := pow2 ex) in *. set (g := (2 ^ (t - ex))%Z) in *.
  assert (Hge : (lo * g ≤ nearest_even (a / p))%Z).
  { apply nearest_even_ge. apply Qle_shift_div_l; [exact Hp|].
    rewrite inject_Z_mult. rewrite Hpt in Hlo. lra. }
  assert (Hle : (nearest_even (a / p) ≤ hi * g)%Z).
  { apply nearest_even_le. apply Qle_shift_div_r; [exact Hp|].
    rewrite inject_Z_mult. rewrite Hpt in Hhi. lra. }
  set (m := nearest_even (a / p)) in *.
  assert (H1 : inject_Z lo * pow2 t <= inject_Z m * p).
  { rewrite Hpt. rewrite Zle_Qle, inject_Z_mult in Hge.
    set (L := inject_Z lo) in *. set (G := inject_Z g) in *. set (Mq := inject_Z m) in *.
    clearbody L G Mq p. clear - Hge Hp. nra. }
  assert (H2 : inject_Z m * p <= inject_Z hi * pow2 t).
  { rewrite Hpt. rewrite Zle_Qle, inject_Z_mult in Hle.
    set (Hq := inject_Z hi) in *. set (G := inject_Z g) in *. set (Mq := inject_Z m) in *.
    clearbody Hq G Mq p. clear - Hle Hp. nra. }
  destruct (Qle_bool (pow2 1024) (inject_Z m * p)) eqn:E.
  - apply Qle_bool_iff in E. lra.
  - eexists. split; [reflexivity|]. split; assumption.
Qed.


(** *** The Number value of a rational *)

Lemma this_of_Z z : (Qc_of_Z z == inject_Z z)%Q.
Proof. reflexivity. Qed.

Lemma this_mul (a b : Qc) : ((a * b)%Qc == a * b)%Q.
Proof. unfold Qcmult. apply Qred_correct. Qed.

Lemma this_div (a b : Qc) : ((a / b)%Qc == a / b)%Q.
Proof.
  unfold Qcdiv. rewrite this_mul. unfold Qcinv.
  change (this (Q2Qc (/ b))) with (Qred (/ b)). by rewrite Qred_correct.
Qed.


Lemma Q2Qc_this (r : Q) : (Q2Qc r : Q) == r.
Proof. apply Qred_correct. Qed.

Lemma this_opp (q : Qc) : ((- q)%Qc : Q) == - (q : Q).
Proof. apply Qred_correct. Qed.

(** A rational between two whole numbers below 2^53 in magnitude rounds to
    a finite double between them. *)
Lemma double_between (lo hi : Z) (q : Qc) :
  (- 2 ^ 53 < lo)%Z → (hi < 2 ^ 53)%Z →
  inject_Z lo <= q → q <= inject_Z hi →
  ∃ p : Qc, JsNum.double q = Num p ∧ inject_Z lo <= p ∧ p <= inject_Z hi.
Proof.
  intros Hlo Hhi H1 H2. unfold JsNum.double.
  destruct (decide (q = 0%Qc)) as [->|Hq].
  { exists 0%Qc. split; [reflexivity|]. split; assumption. }
  assert (H53 : pow2 (0 + 53) == inject_Z (2 ^ 53)) by (by rewrite pow2_Z).
  assert (Hbig : inject_Z (2 ^ 53) < pow2 1024).
  { rewrite <- H53. apply Qpower_lt_compat_l; [lia | reflexivity]. }
  assert (Hlo' : - inject_Z (2 ^ 53) < inject_Z lo).
  { rewrite <- inject_Z_opp, <- Zlt_Qlt. lia. }
  assert (Hhi' : inject_Z hi < inject_Z (2 ^ 53)) by (by rewrite <- Zlt_Qlt).
  assert (Ohi : inject_Z (- hi) * pow2 0 == - inject_Z hi).
  { rewrite inject_Z_opp. change (pow2 0) with 1. ring. }
  assert (Olo : inject_Z (- lo) * pow2 0 == - inject_Z lo).
  { rewrite inject_Z_opp. change (pow2 0) with 1. ring. }
  assert (Phi : inject_Z hi * pow2 0 == inject_Z hi).
  { change (pow2 0) with 1. ring. }
  assert (Plo : inject_Z lo * pow2 0 == inject_Z lo).
  { change (pow2 0) with 1. ring. }
  set (B := inject_Z (2 ^ 53)) in *. clearbody B.
  unfold JsNum.is_neg. case_bool_decide as Hneg.
  - assert (Ha : 0 < - (q : Q)).
    { apply Qclt_alt in Hneg. apply Qlt_alt in Hneg.
      change (Q2Qc 0 : Q) with 0 in Hneg. lra. }
    destruct (round_pos_grid (- (q : Q)) 0 (- hi) (- lo)) as (r & -> & Hr1 & Hr2).
    + exact Ha.
    + apply ulp_exponent_le; [exact Ha | | lia]. lra.
    + lra.
    + lra.
    + lra.
    + eexists. split; [reflexivity|].
      pose proof (Q2Qc_this (- r)). lra.
  - assert (Ha : 0 < (q : Q)).
    { assert (¬ (q : Q) == 0) by (intros E; apply Hq; by apply Qc_is_canon).
      assert (0 <= (q : Q)).
      { apply Qnot_lt_le. intros L. apply Hneg. apply Qclt_alt. by apply Qlt_alt. }
      lra. }
    destruct (round_pos_grid q 0 lo hi) as (r & -> & Hr1 & Hr2).
    + exact Ha.
    + apply ulp_exponent_le; [exact Ha | | lia]. lra.
    + lra.
    + lra.
    + lra.
    + eexists. split; [reflexivity|]. pose proof (Q2Qc_this r). lra.
Qed.

(** A whole number of at most 53 bits, times a power of two, is a double. *)
Lemma double_shifted (m k : Z) :
  (0 ≤ m < 2 ^ 53)%Z → (0 ≤ k ≤ 970)%Z →
  JsNum.double (Qc_of_Z (m * 2 ^ k)) = of_Z (m * 2 ^ k).
Proof.
  intros Hm Hk. unfold JsNum.double, of_Z.
  destruct (decide (Qc_of_Z (m * 2 ^ k) = 0%Qc)) as [E|Hq]; [by rewrite E|].
  assert (Hpk : (0 < 2 ^ k)%Z) by (apply Z.pow_pos_nonneg; lia).
  assert (Hmk : (0 < m * 2 ^ k)%Z).
  { assert (m ≠ 0)%Z by (intros ->; apply Hq; by apply Qc_is_canon). nia. }
  assert (Hthis : (Qc_of_Z (m * 2 ^ k) : Q) == inject_Z m * pow2 k).
  { change (Qc_of_Z (m * 2 ^ k) : Q) with (inject_Z (m * 2 ^ k)).
    by rewrite inject_Z_mult, <- pow2_Z by lia. }
  assert (Hpos : 0 < (Qc_of_Z (m * 2 ^ k) : Q)).
  { change (Qc_of_Z (m * 2 ^ k) : Q) with (inject_Z (m * 2 ^ k)).
    by rewrite <- (Zlt_Qlt 0). }
  unfold JsNum.is_neg. rewrite bool_decide_eq_false_2.
  2:{ intros L. apply Qclt_alt in L. apply Qlt_alt in L.
      change (Q2Qc 0 : Q) with 0 in L. lra. }
  assert (Hm53 : inject_Z m < pow2 53).
  { rewrite pow2_Z by lia. rewrite <- Zlt_Qlt. lia. }
  assert (Hk' := pow2_pos k).
  destruct (round_pos_grid (Qc_of_Z (m * 2 ^ k)) k m m) as (r & -> & Hr1 & Hr2).
  - exact Hpos.
  - apply ulp_exponent_le; [exact Hpos | | lia].
    rewrite Hthis, pow2_plus.
    set (a := inject_Z m) in *. set (b := pow2 k) in *. set (c := pow2 53) in *.
    clearbody a b c. clear - Hm53 Hk'. nra.
  - rewrite Hthis. apply Qle_refl.
  - rewrite Hthis. apply Qle_refl.
  - apply Qlt_le_trans with (pow2 53 * pow2 k).
    + set (a := inject_Z m) in *. set (b := pow2 k) in *. set (c := pow2 53) in *.
      clearbody a b c. clear - Hm53 Hk'. nra.
    + rewrite <- pow2_plus. apply pow2_le. lia.
  - f_equal. apply Qc_is_canon. rewrite Q2Qc_this.
    change (Qc_of_Z (m * 2 ^ k) : Q) with (inject_Z (m * 2 ^ k)).
    rewrite inject_Z_mult, <- pow2_Z by lia. by apply Qle_antisym.
Qed.



End Binary64Facts.

(** * Properties

    ** Resource translation and statistics *)

Module DockerFacts.

Import Docker Stated.
Import Binary64Facts.

(** *** The built-ins and the translation on sample values *)

Example parseInt_samples :
  parseInt "42" = of_Z 42 ∧ parseInt "  -17px" = of_Z (-17)
  ∧ parseInt "0x1F" = of_Z 31 ∧ parseInt "010" = of_Z 10
  ∧ parseInt "abc" = NaN ∧ parseInt "" = NaN ∧ parseInt "undefined" = NaN.
Proof. repeat split; evaluate. Qed.

Example parseFloat_samples :
  parseFloat (VStr "0.5") = Num (1 / 2)%Qc
  ∧ parseFloat (VStr " 1.25e2cores") = of_Z 125
  ∧ parseFloat (VStr ".5") = Num (1 / 2)%Qc
  ∧ parseFloat (VStr "-Infinity") = Infinity true
  ∧ parseFloat (VStr "cores") = NaN
  ∧ parseFloat (VNum (of_Z 2)) = of_Z 2.
Proof. repeat split; evaluate. Qed.

Example parseMemory_samples :
  parseMemory (VStr "512m") = of_Z 536870912
  ∧ parseMemory (VStr "1g") = of_Z 1073741824
  ∧ parseMemory (VStr "100k") = of_Z 102400
  ∧ parseMemory (VStr "2048") = of_Z 2048
  ∧ parseMemory (VStr "2048b") = of_Z 2048
  ∧ parseMemory (VStr "512mb") = of_Z 536870912
  ∧ parseMemory (VStr "1.5g") = of_Z 536870912
  ∧ parseMemory (VStr "") = of_Z 536870912
  ∧ parseMemory (VNum (of_Z 4096)) = of_Z 4096.
Proof. repeat split; evaluate. Qed.

(** With no setting at all a container gets 512 MiB and half a CPU. *)
Example hostConfig_defaults :
  hostConfig {| memory := None; cpus := None |}
  = {| Memory := of_Z 536870912; CpuQuota := of_Z 50000; CpuPeriod := of_Z 100000 |}.
Proof. evaluate. Qed.

(** *** Characters *)

Ltac by_char c :=
  destruct c as [[] [] [] [] [] [] [] []]; try discriminate; try reflexivity.

Lemma digit_not_space c : is_digit c = true → is_space c = false.
Proof. by_char c. Qed.

Lemma digit_lower c : is_digit c = true → lower c = c.
Proof. by_char c. Qed.


Lemma digit_not_unit c : is_digit c = true → is_unit_char c = false.
Proof. by_char c. Qed.

Lemma digit_hex c : is_digit c = true → hex_val c = Some (digit_val c).
Proof. by_char c. Qed.

Lemma digit_strip_sign c r : is_digit c = true → strip_sign (String c r) = (false, String c r).
Proof. by_char c. Qed.

Lemma digit_not_x c : is_digit c = true → bool_decide (c = "x"%char ∨ c = "X"%char) = false.
Proof. by_char c. Qed.

(** *** Strings of digits *)

Lemma append_cons c s t : String c s +:+ t = String c (s +:+ t).
Proof. reflexivity. Qed.

Lemma append_nil s : "" +:+ s = s.
Proof. reflexivity. Qed.

Lemma append_empty_r s : s +:+ "" = s.
Proof.
  induction s as [|c s IH]; [reflexivity|]. by rewrite append_cons, IH.
Qed.

Lemma toLowerCase_app s t : toLowerCase (s +:+ t) = toLowerCase s +:+ toLowerCase t.
Proof.
  induction s as [|c s IH]; [reflexivity|].
  rewrite append_cons. simpl. by rewrite IH.
Qed.

Lemma toLowerCase_digits ds : all_digits ds = true → toLowerCase ds = ds.
Proof.
  induction ds as [|c ds IH]; simpl; [reflexivity|].
  intros [Hc Hd]%andb_prop. by rewrite digit_lower, IH.
Qed.

Lemma span_digits_app ds r :
  all_digits ds = true → stops r → span_digits (ds +:+ r) = (ds, r).
Proof.
  intros Hd Hr. induction ds as [|c ds IH].
  - rewrite append_nil. destruct r as [|c r]; simpl in *; [reflexivity | by rewrite Hr].
  - simpl in Hd. apply andb_prop in Hd as [Hc Hd].
    rewrite append_cons. simpl. by rewrite Hc, IH.
Qed.

Lemma span_digits_spec s d r :
  span_digits s = (d, r) → s = d +:+ r ∧ all_digits d = true ∧ stops r.
Proof.
  revert d r. induction s as [|c s IH]; simpl; intros d r E.
  - by inversion E.
  - destruct (is_digit c) eqn:Hc.
    + destruct (span_digits s) as [d' r'] eqn:E'. inversion E; subst.
      destruct (IH d' r eq_refl) as (-> & Hd & Hr).
      rewrite append_cons. simpl. by rewrite Hc, Hd.
    + inversion E; subst. rewrite append_nil. simpl. by rewrite Hc.
Qed.

Lemma parseInt_digits ds : digits ds → parseInt ds = of_Z (digits_value ds).
Proof.
  intros [Hne Hd]. destruct ds as [|c ds]; [done|].
  simpl in Hd. apply andb_prop in Hd as [Hc Hd].
  unfold parseInt. simpl trim_start. rewrite (digit_not_space c Hc).
  rewrite (digit_strip_sign c ds Hc).
  assert (Hs : span_digits (String c ds) = (String c ds, "")).
  { rewrite <- (append_empty_r (String c ds)) at 1.
    apply span_digits_app; [simpl; by rewrite Hc, Hd | done]. }
  assert (Hgen : (let '(d, _) := span_digits (String c ds) in
                  match d with
                  | "" => NaN
                  | String _ _ => signed false (of_Z (digits_value d))
                  end) = of_Z (digits_value (String c ds))).
  { by rewrite Hs. }
  destruct ds as [|x ds].
  - destruct c as [[] [] [] [] [] [] [] []]; try discriminate Hc; exact Hgen.
  - simpl in Hd. apply andb_prop in Hd as [Hx Hd'].
    destruct c as [[] [] [] [] [] [] [] []]; try discriminate Hc; try exact Hgen.
    rewrite (digit_not_x x Hx). by rewrite Hs.
Qed.

Lemma optional_unit_stops u : optional_unit u → stops u.
Proof. intros [->|[->|[->|[->| ->]]]]; done. Qed.

Lemma match_memory_shape ds u :
  digits ds → optional_unit u → match_memory (ds +:+ u) = Some (ds, u).
Proof.
  intros [Hne Hd] Hu. unfold match_memory.
  rewrite (span_digits_app ds u Hd (optional_unit_stops u Hu)).
  destruct ds as [|c ds]; [done|].
  by destruct Hu as [->|[->|[->|[->| ->]]]].
Qed.

(** The product of a whole number of at most 53 bits and a power of two
    is exact. *)
Lemma mul_shifted m k :
  0 ≤ m < 2 ^ 53 → 0 ≤ k ≤ 970 →
  JsNum.mul (of_Z m) (of_Z (2 ^ k)) = of_Z (m * 2 ^ k).
Proof.
  intros Hm Hk. unfold of_Z at 1 2. cbn [JsNum.mul].
  rewrite <- Z2Qc_inj_mul. by apply double_shifted.
Qed.

Lemma digits_value_nonneg_acc acc s : 0 ≤ acc → all_digits s = true → 0 ≤ digits_acc acc s.
Proof.
  revert acc. induction s as [|c s IH]; simpl; intros acc Hacc Hd; [done|].
  apply andb_prop in Hd as [Hc Hd]. apply IH; [|done].
  unfold digit_val, is_digit, code in *.
  apply andb_prop in Hc as [H1 H2].
  apply N.leb_le in H1. lia.
Qed.

Lemma unit_bytes_pow2 u :
  optional_unit u → ∃ k, 0 ≤ k ≤ 30 ∧ unit_bytes u = 2 ^ k.
Proof.
  intros [->|[->|[->|[->| ->]]]];
    [exists 0 | exists 0 | exists 10 | exists 20 | exists 30]; by vm_compute.
Qed.

Lemma units_optional u :
  optional_unit u →
  to_number (units (if bool_decide (u = "") then "b" else u)) = of_Z (unit_bytes u).
Proof. by intros [->|[->|[->|[->| ->]]]]. Qed.

Lemma parseMemory_shape ds u :
  digits ds → optional_unit (toLowerCase u) → digits_value ds < 2 ^ 53 →
  parseMemory (VStr (ds +:+ u)) = of_Z (digits_value ds * unit_bytes (toLowerCase u)).
Proof.
  intros Hd Hu Hv. unfold parseMemory.
  rewrite toLowerCase_app, (toLowerCase_digits ds (proj2 Hd)).
  rewrite (match_memory_shape ds _ Hd Hu).
  rewrite (parseInt_digits ds Hd), (units_optional _ Hu).
  destruct (unit_bytes_pow2 _ Hu) as (k & Hk & ->).
  apply mul_shifted; [|lia]. split; [|done].
  apply digits_value_nonneg_acc; [done | apply Hd].
Qed.












(** *** Statistics *)

Lemma le_zero_not_gt a : JsNum.le a (of_Z 0) = true → JsNum.gt a (of_Z 0) = false.
Proof.
  destruct a as [|neg|x]; simpl; [done | by intros -> |].
  intros H. apply bool_decide_eq_true_1 in H. apply bool_decide_eq_false_2.
  by apply Qcle_not_lt.
Qed.

(** What [getContainerStats] returns, in terms of the two deltas. *)
Lemma getContainerStats_inv s r :
  getContainerStats s = Some r →
  ∃ cd, cpuDelta s = Some cd
    ∧ cpuPercent r
      = (if JsNum.gt (systemDelta s) (of_Z 0)
         then JsNum.mul (JsNum.div cd (systemDelta s)) (of_Z 100)
         else of_Z 0)
    ∧ memoryUsage r = or_default (usage (memory_stats s)) (of_Z 0)
    ∧ memoryLimit r = or_default (limit (memory_stats s)) (of_Z 0)
    ∧ memoryPercent r
      = (if JsNum.gt (memoryLimit r) (of_Z 0)
         then JsNum.mul (JsNum.div (memoryUsage r) (memoryLimit r)) (of_Z 100)
         else of_Z 0).
Proof.
  unfold getContainerStats. destruct (cpuDelta s) as [cd|]; [|done].
  simpl. intros [= <-]. by exists cd.
Qed.

(** C3 (the code departs from it): [getContainerStats] never reads the
    engine-reported number of online CPUs, so its CPU percentage is the
    same whatever that number is.  On a four-core sample with
    cpuDelta = 250 and systemDelta = 1000 it reports
    (250 / 1000) * 100 = 25, where the stated formula
    (cpuDelta / systemDelta) * onlineCPUs * 100 gives 100, the value that
    [calculateCPUPercent] computes on the same sample. *)
Theorem getContainerStats_omits_online_cpus :
  (∀ cu sys n n' pre mem,
     cpuPercent <$> getContainerStats
       {| cpu_stats := {| cpu_usage := cu; system_cpu_usage := sys;
                          online_cpus := n |};
          precpu_stats := pre; memory_stats := mem |}
     = cpuPercent <$> getContainerStats
       {| cpu_stats := {| cpu_usage := cu; system_cpu_usage := sys;
                          online_cpus := n' |};
          precpu_stats := pre; memory_stats := mem |})
  ∧ cpuDelta Scenario.four_cores = Some (of_Z 250)
  ∧ systemDelta Scenario.four_cores = of_Z 1000
  ∧ online_cpus (cpu_stats Scenario.four_cores) = Some (of_Z 4)
  ∧ cpuPercent <$> getContainerStats Scenario.four_cores = Some (of_Z 25)
  ∧ stated_cpuPercent Scenario.four_cores = Some (of_Z 100)
  ∧ WindowsConsole.calculateCPUPercent Scenario.four_cores = Some (of_Z 100).
Proof.
  split; [reflexivity|]. split; [evaluate|]. split; [evaluate|].
  split; [reflexivity|]. split; [evaluate|]. split; evaluate.
Qed.

(** C7: the percentages never divide by zero.  If systemDelta <= 0 the CPU
    percentage is exactly 0, if the memory limit is 0 the memory percentage
    is exactly 0, and whenever a percentage is a quotient its divisor is
    greater than 0. *)
Theorem percentages_guarded s r :
  getContainerStats s = Some r →
  (JsNum.le (systemDelta s) (of_Z 0) = true → cpuPercent r = of_Z 0)
  ∧ (limit (memory_stats s) = Some (of_Z 0) → memoryPercent r = of_Z 0)
  ∧ (cpuPercent r = of_Z 0
     ∨ JsNum.gt (systemDelta s) (of_Z 0) = true
       ∧ ∃ cd, cpuDelta s = Some cd
          ∧ cpuPercent r = JsNum.mul (JsNum.div cd (systemDelta s)) (of_Z 100))
  ∧ (memoryPercent r = of_Z 0
     ∨ JsNum.gt (memoryLimit r) (of_Z 0) = true
       ∧ memoryPercent r
         = JsNum.mul (JsNum.div (memoryUsage r) (memoryLimit r)) (of_Z 100)).
Proof.
  intros (cd & Hcd & Hcpu & Hu & Hl & Hmem)%getContainerStats_inv.
  split; [|split; [|split]].
  - intros Hle. by rewrite Hcpu, (le_zero_not_gt _ Hle).
  - intros Hz. rewrite Hmem, Hl, Hz. reflexivity.
  - destruct (JsNum.gt (systemDelta s) (of_Z 0)); [right | by left].
    split; [done|]. by exists cd.
  - destruct (JsNum.gt (memoryLimit r) (of_Z 0)); [by right | by left].
Qed.

Lemma percentages_guarded_witness :
  ∃ r, getContainerStats Scenario.stalled = Some r
    ∧ cpuPercent r = of_Z 0 ∧ memoryPercent r = of_Z 0.
Proof.
  assert (H : getContainerStats Scenario.stalled
              = Some {| cpuPercent := of_Z 0; memoryUsage := of_Z 50;
                        memoryLimit := of_Z 0; memoryPercent := of_Z 0 |})
    by evaluate.
  destruct (percentages_guarded _ _ H) as (Hcpu & Hmem & _).
  eexists. split; [exact H|]. split.
  - apply Hcpu. by vm_compute.
  - apply Hmem. reflexivity.
Defined.

End DockerFacts.

(** ** Console sessions and stats subscriptions *)

Module ConsoleFacts.

Import Eff Console Stated.

(** Unfolds the plumbing of a computation so that it runs on a symbolic
    world. *)
Ltac run :=
  repeat (cbn [mbind mret M_bind M_ret bind ret throw try_catch gets modify
               fst snd];
          unfold mbind, mret, M_bind, M_ret, bind, ret, throw, try_catch, gets,
                 modify, record, emit, logger, external, Date_now).

(** *** Traces *)

Lemma engine_calls_snoc_logger t l x :
  engine_calls (t ++ [Logger l x]) = engine_calls t.
Proof. unfold engine_calls. rewrite omap_app. simpl. apply app_nil_r. Qed.

Lemma engine_calls_snoc_emit t s m :
  engine_calls (t ++ [Emit s m]) = engine_calls t.
Proof. unfold engine_calls. rewrite omap_app. simpl. apply app_nil_r. Qed.

Lemma engine_calls_snoc_engine t c :
  engine_calls (t ++ [Engine c]) = engine_calls t ++ [c].
Proof. unfold engine_calls. by rewrite omap_app. Qed.

Lemma emitted_snoc_logger sid t l x :
  emitted sid (t ++ [Logger l x]) = emitted sid t.
Proof. unfold emitted. rewrite omap_app. simpl. apply app_nil_r. Qed.

Lemma emitted_snoc_emit sid t m :
  emitted sid (t ++ [Emit sid m]) = emitted sid t ++ [m].
Proof. unfold emitted. rewrite omap_app. simpl. by rewrite bool_decide_eq_true_2. Qed.

Lemma emitted_snoc_engine sid t c :
  emitted sid (t ++ [Engine c]) = emitted sid t.
Proof. unfold emitted. rewrite omap_app. simpl. apply app_nil_r. Qed.

Create Rewrite HintDb trace_db.
#[export] Hint Rewrite engine_calls_snoc_logger engine_calls_snoc_emit
  engine_calls_snoc_engine emitted_snoc_logger emitted_snoc_emit
  emitted_snoc_engine : trace_db.

(** *** [cleanup] *)

Lemma closed_closed s : closed (closed s) = closed s.
Proof. reflexivity. Qed.

Lemma cleanup_effect w this s :
  heap w !! this = Some s →
  ∃ w', cleanup this w = (Ok tt, w')
    ∧ heap w' !! this = Some (closed s)
    ∧ activeSessions w' = delete (socket s) (activeSessions w)
    ∧ containerLogs w'
      = containerLogs w
        ++ match faults (surroundings w) ContainerLogCreate with
           | None => [disconnect_entry s (now (surroundings w))]
           | Some _ => []
           end
    ∧ engine_calls (trace w') = engine_calls (trace w)
    ∧ (∀ sid, emitted sid (trace w') = emitted sid (trace w))
    ∧ containers w' = containers w
    ∧ users w' = users w
    ∧ surroundings w' = surroundings w.
Proof.
  intros Hs. unfold cleanup, assign, self, stream_destroy, prisma_containerLog_create.
  run. simpl. rewrite lookup_alter_eq, Hs. simpl.
  destruct (faults (surroundings w) StreamDestroy) as [m|] eqn:Hd;
    destruct (faults (surroundings w) ContainerLogCreate) as [m'|] eqn:Hl;
    destruct (stream s) as [st|] eqn:Hst; run;
    repeat (progress (simpl; rewrite ?Hd, ?Hl, ?lookup_alter_eq, ?Hs));
    eexists; (split; [reflexivity|]); simpl;
    rewrite ?lookup_alter_eq, ?Hs; simpl;
    autorewrite with trace_db;
    repeat split; try reflexivity; try (by rewrite app_nil_r);
    try (unfold closed; destruct s; simpl in *; by subst);
    intros; autorewrite with trace_db; reflexivity.
Qed.

Lemma closed_CLOSED s : CLOSED (closed s).
Proof. by repeat split. Qed.

(** C4, as stated, fails: two invocations of [cleanup] on one session
    leave two CONSOLE_DISCONNECT entries in the log, not one. *)
Lemma cleanup_twice_two_entries :
  let w := Scenario.with_session "s1" "c1" "u1"
             (Scenario.world0 {[ "c1" := Scenario.c1 ]} Scenario.no_faults) in
  let w2 := (cleanup 0 (cleanup 0 w).2).2 in
  disconnects (containerLogs w) = 0%nat
  ∧ disconnects (containerLogs w2) = 2%nat
  ∧ disconnects (containerLogs w2) ≠ 1%nat.
Proof. vm_compute. repeat split. discriminate. Qed.

(** The connection-close handlers invoke [cleanup] only on a session that
    the registry still holds. *)
Lemma disconnect_without_session sock w :
  activeSessions w !! sock_id sock = None →
  on_console_disconnect sock w = (Ok tt, w).
Proof. intros H. unfold on_console_disconnect. run. by rewrite H. Qed.

(** C4 (amended): [cleanup] may be invoked twice.  Each invocation leaves
    the session CLOSED and the registry without an entry for the
    connection; each invocation whose log write succeeds appends its own
    CONSOLE_DISCONNECT entry, so two of them append two.  The
    connection-close handler looks the session up in the registry, so
    after a first [cleanup] it does not invoke [cleanup] again and the log
    stays as it is. *)
Theorem cleanup_twice w this s :
  heap w !! this = Some s →
  ∃ w1 w2, cleanup this w = (Ok tt, w1) ∧ cleanup this w1 = (Ok tt, w2)
    ∧ (∃ s1, heap w1 !! this = Some s1 ∧ CLOSED s1)
    ∧ (∃ s2, heap w2 !! this = Some s2 ∧ CLOSED s2)
    ∧ activeSessions w1 !! socket s = None
    ∧ activeSessions w2 !! socket s = None
    ∧ (faults (surroundings w) ContainerLogCreate = None →
       disconnects (containerLogs w1) = S (disconnects (containerLogs w))
       ∧ disconnects (containerLogs w2) = S (S (disconnects (containerLogs w))))
    ∧ (is_Some (faults (surroundings w) ContainerLogCreate) →
       containerLogs w2 = containerLogs w)
    ∧ (∀ sock, sock_id sock = socket s →
       on_console_disconnect sock w1 = (Ok tt, w1)).
Proof.
  intros Hs.
  destruct (cleanup_effect w this s Hs)
    as (w1 & E1 & H1 & R1 & L1 & _ & _ & _ & _ & S1).
  destruct (cleanup_effect w1 this (closed s) H1)
    as (w2 & E2 & H2 & R2 & L2 & _).
  assert (N1 : activeSessions w1 !! socket s = None)
    by (rewrite R1; apply lookup_delete_eq).
  exists w1, w2. split; [done|]. split; [done|].
  split; [exists (closed s); split; [done | apply closed_CLOSED]|].
  split; [exists (closed (closed s)); split; [done | apply closed_CLOSED]|].
  split; [done|].
  split; [rewrite R2; apply lookup_delete_eq|].
  split; [|split].
  - intros Hl. rewrite L2, S1, L1, Hl. unfold disconnects.
    rewrite !filter_app, !length_app. simpl. lia.
  - intros [m Hl]. rewrite L2, S1, L1, Hl. by rewrite !app_nil_r.
  - intros sock Hsock. apply disconnect_without_session. by rewrite Hsock.
Qed.

Lemma cleanup_twice_witness :
  ∃ w1 w2,
    cleanup 0 (Scenario.with_session "s1" "c1" "u1"
                 (Scenario.world0 ∅ Scenario.no_faults)) = (Ok tt, w1)
    ∧ cleanup 0 w1 = (Ok tt, w2)
    ∧ activeSessions w2 !! "s1" = None.
Proof.
  destruct (cleanup_twice
              (Scenario.with_session "s1" "c1" "u1"
                 (Scenario.world0 ∅ Scenario.no_faults)) 0%nat
              {| socket := "s1"; containerId := "c1"; userId := "u1";
                 dockerExec := None; stream := None; isActive := false;
                 startTime := 400; commandHistory := [] |})
    as (w1 & w2 & E1 & E2 & _ & _ & _ & R2 & _ & _ & _);
    [vm_compute; reflexivity|].
  exists w1, w2. repeat split; assumption.
Defined.

(** *** [start] *)

Lemma start_not_found w this s :
  heap w !! this = Some s →
  faults (surroundings w) ContainerFindUnique = None →
  containers w !! containerId s = None →
  ∃ w', start_failed_with "Container not found" w this s w'.
Proof.
  intros Hs F1 Hc. unfold start_failed_with, start, self, prisma_container_findUnique.
  run. rewrite Hs, F1. simpl. rewrite Hc. simpl. rewrite Hs. simpl.
  match goal with |- context [cleanup this ?w0] =>
    destruct (cleanup_effect w0 this s Hs) as (w' & E & H & R & _ & C & M & _)
  end.
  exists w'. split; [done|]. rewrite C, M. simpl. autorewrite with trace_db.
  repeat split; try done.
  - exists (closed s). split; [done | apply closed_CLOSED].
  - rewrite R. apply lookup_delete_eq.
Qed.

Lemma start_access_denied w this s c u :
  heap w !! this = Some s →
  faults (surroundings w) ContainerFindUnique = None →
  faults (surroundings w) UserFindUnique = None →
  containers w !! containerId s = Some c →
  users w !! userId s = Some u →
  role u ≠ "ADMIN" →
  ownerId c ≠ userId s →
  ∃ w', start_failed_with "Access denied to this container" w this s w'.
Proof.
  intros Hs F1 F2 Hc Hu Hr Ho.
  unfold start_failed_with, start, self, prisma_container_findUnique,
    prisma_user_findUnique.
  run. rewrite Hs, F1. simpl. rewrite Hc, F2. simpl. rewrite Hu. simpl.
  rewrite !bool_decide_eq_true_2 by assumption. simpl. rewrite Hs. simpl.
  match goal with |- context [cleanup this ?w0] =>
    destruct (cleanup_effect w0 this s Hs) as (w' & E & H & R & _ & C & M & _)
  end.
  exists w'. split; [done|]. rewrite C, M. simpl. autorewrite with trace_db.
  repeat split; try done.
  - exists (closed s). split; [done | apply closed_CLOSED].
  - rewrite R. apply lookup_delete_eq.
Qed.

(** C5: a [console:connect] by a user who is neither the owner of the
    container nor an administrator: the start fails with the notification
    that access is denied, the session ends CLOSED and out of the registry,
    and no call is made on the engine. *)
Theorem start_refuses_strangers w this s c u :
  heap w !! this = Some s →
  faults (surroundings w) ContainerFindUnique = None →
  faults (surroundings w) UserFindUnique = None →
  containers w !! containerId s = Some c →
  users w !! userId s = Some u →
  role u ≠ "ADMIN" →
  ownerId c ≠ userId s →
  ∃ w', start this w = (Ok tt, w')
    ∧ emitted (socket s) (trace w')
      = emitted (socket s) (trace w)
        ++ [console_error "Failed to start console session"
              (Some "Access denied to this container")]
    ∧ engine_calls (trace w') = engine_calls (trace w)
    ∧ (∃ s', heap w' !! this = Some s' ∧ CLOSED s')
    ∧ activeSessions w' !! socket s = None.
Proof. exact (start_access_denied w this s c u). Qed.

Lemma start_refuses_strangers_witness :
  ∃ w', start 0 (Scenario.with_session "s2" "c1" "u2"
                   (Scenario.world0 {[ "c1" := Scenario.c1 ]} Scenario.no_faults))
        = (Ok tt, w')
    ∧ engine_calls (trace w') = [].
Proof.
  destruct (start_refuses_strangers
              (Scenario.with_session "s2" "c1" "u2"
                 (Scenario.world0 {[ "c1" := Scenario.c1 ]} Scenario.no_faults))
              0%nat
              {| socket := "s2"; containerId := "c1"; userId := "u2";
                 dockerExec := None; stream := None; isActive := false;
                 startTime := 400; commandHistory := [] |}
              Scenario.c1 Scenario.bob)
    as (w' & E & _ & C & _);
    [vm_compute; reflexivity | reflexivity | reflexivity
    | vm_compute; reflexivity | vm_compute; reflexivity
    | discriminate | discriminate |].
  exists w'. split; assumption.
Defined.

(** C9: the existence check comes first.  A [console:connect] that names a
    container with no record fails with 'Container not found', whoever asks;
    one that names another user's container fails with 'Access denied to
    this container'.  The two replies differ. *)
Theorem existence_checked_before_ownership w this s :
  heap w !! this = Some s →
  faults (surroundings w) ContainerFindUnique = None →
  (containers w !! containerId s = None →
   ∃ w', start_failed_with "Container not found" w this s w')
  ∧ (∀ c u, containers w !! containerId s = Some c →
       faults (surroundings w) UserFindUnique = None →
       users w !! userId s = Some u →
       role u ≠ "ADMIN" →
       ownerId c ≠ userId s →
       ∃ w', start_failed_with "Access denied to this container" w this s w')
  ∧ "Container not found" ≠ "Access denied to this container".
Proof.
  intros Hs F1. split; [|split; [|done]].
  - by apply start_not_found.
  - intros c u Hc F2 Hu Hr Ho. by apply (start_access_denied w this s c u).
Qed.

Lemma existence_checked_before_ownership_witness :
  ∃ w', start_failed_with "Container not found"
          (Scenario.with_session "s2" "c9" "u2"
             (Scenario.world0 {[ "c1" := Scenario.c1 ]} Scenario.no_faults))
          0%nat
          {| socket := "s2"; containerId := "c9"; userId := "u2";
             dockerExec := None; stream := None; isActive := false;
             startTime := 400; commandHistory := [] |}
          w'.
Proof.
  refine (proj1 (existence_checked_before_ownership
                   (Scenario.with_session "s2" "c9" "u2"
                      (Scenario.world0 {[ "c1" := Scenario.c1 ]} Scenario.no_faults))
                   0%nat _ _ _) _);
    [vm_compute; reflexivity | reflexivity | vm_compute; reflexivity].
Defined.

(** *** [sendInput] and [sendCommand] on a session that is not active *)

(** C10: while the session is not active (the flag is off or there is no
    stream), [sendInput] changes nothing: nothing is written and nothing is
    emitted; [sendCommand] in the same situation emits 'Console session not
    active' and does nothing else. *)
Theorem sendInput_silent_when_inactive w this s input command :
  heap w !! this = Some s →
  isActive s = false ∨ stream s = None →
  sendInput this input w = (Ok tt, w)
  ∧ sendCommand this command w
    = (Ok tt, with_trace
                (λ t, t ++ [Emit (socket s)
                              (console_error "Console session not active" None)])
                w).
Proof.
  intros Hs Hin. unfold sendInput, sendCommand, self. run. rewrite Hs.
  destruct Hin as [-> | ->]; [done|]. by destruct (isActive s).
Qed.

Lemma sendInput_silent_when_inactive_witness :
  sendInput 0 "ls" (Scenario.with_session "s1" "c1" "u1"
                      (Scenario.world0 ∅ Scenario.no_faults))
  = (Ok tt, Scenario.with_session "s1" "c1" "u1"
              (Scenario.world0 ∅ Scenario.no_faults)).
Proof.
  refine (proj1 (sendInput_silent_when_inactive
                   (Scenario.with_session "s1" "c1" "u1"
                      (Scenario.world0 ∅ Scenario.no_faults))
                   0%nat
                   {| socket := "s1"; containerId := "c1"; userId := "u1";
                      dockerExec := None; stream := None; isActive := false;
                      startTime := 400; commandHistory := [] |}
                   "ls" "ls" _ _));
    [vm_compute; reflexivity | left; reflexivity].
Defined.

End ConsoleFacts.

(** ** The connection handlers on the sample data *)

Module HandlerFacts.

Import Eff Console Stated.
Import ConsoleFacts.

(** The request-level form of the refusal: a [console:connect] on a
    connection with no session, by a user who is neither owner nor
    administrator. *)
Lemma connect_refuses_strangers sock cid w c u :
  cid ≠ "" →
  activeSessions w !! sock_id sock = None →
  faults (surroundings w) ContainerFindUnique = None →
  faults (surroundings w) UserFindUnique = None →
  containers w !! cid = Some c →
  users w !! user_id (sock_user sock) = Some u →
  role u ≠ "ADMIN" →
  ownerId c ≠ user_id (sock_user sock) →
  ∃ w', on_console_connect sock (Some cid) w = (Ok tt, w')
    ∧ emitted (sock_id sock) (trace w')
      = emitted (sock_id sock) (trace w)
        ++ [console_error "Failed to start console session"
              (Some "Access denied to this container")]
    ∧ engine_calls (trace w') = engine_calls (trace w)
    ∧ activeSessions w' !! sock_id sock = None.
Proof.
  intros Hcid Hnone F1 F2 Hc Hu Hr Ho.
  unfold on_console_connect, new_session. destruct cid as [|a cid]; [done|].
  run. rewrite Hnone. simpl.
  set (this := fresh (dom (heap w))).
  set (s := {| socket := sock_id sock; containerId := String a cid;
               userId := user_id (sock_user sock); dockerExec := None;
               stream := None; isActive := false;
               startTime := now (surroundings w); commandHistory := [] |}).
  set (w1 := with_activeSessions _ _).
  destruct (start_access_denied w1 this s c u) as (w' & E & Hm & Hc' & _ & Hr');
    try done.
  { subst w1. simpl. apply lookup_insert_eq. }
  rewrite E. exists w'. by repeat split.
Qed.

(** The request-level form of the failed lookup: whoever asks. *)
Lemma connect_not_found sock cid w :
  cid ≠ "" →
  activeSessions w !! sock_id sock = None →
  faults (surroundings w) ContainerFindUnique = None →
  containers w !! cid = None →
  ∃ w', on_console_connect sock (Some cid) w = (Ok tt, w')
    ∧ emitted (sock_id sock) (trace w')
      = emitted (sock_id sock) (trace w)
        ++ [console_error "Failed to start console session"
              (Some "Container not found")]
    ∧ engine_calls (trace w') = engine_calls (trace w)
    ∧ activeSessions w' !! sock_id sock = None.
Proof.
  intros Hcid Hnone F1 Hc.
  unfold on_console_connect, new_session. destruct cid as [|a cid]; [done|].
  run. rewrite Hnone. simpl.
  set (this := fresh (dom (heap w))).
  set (s := {| socket := sock_id sock; containerId := String a cid;
               userId := user_id (sock_user sock); dockerExec := None;
               stream := None; isActive := false;
               startTime := now (surroundings w); commandHistory := [] |}).
  set (w1 := with_activeSessions _ _).
  destruct (start_not_found w1 this s) as (w' & E & Hm & Hc' & _ & Hr');
    try done.
  { subst w1. simpl. apply lookup_insert_eq. }
  rewrite E. exists w'. by repeat split.
Qed.

(** Alice connects to her running container: the connected notification,
    one CONSOLE_CONNECT entry, an active session in the registry, and the
    two engine calls of [execCommand]. *)
Example alice_connects :
  let w := (on_console_connect Scenario.alice_socket (Some "c1")
              (Scenario.world0 {[ "c1" := Scenario.c1 ]} Scenario.no_faults)).2 in
  emitted "s1" (trace w) = [console_connected "c1" 1000]
  ∧ command <$> containerLogs w = ["CONSOLE_CONNECT"]
  ∧ activeSessions w !! "s1" = Some 0%nat
  ∧ isActive <$> heap w !! 0%nat = Some true
  ∧ engine_calls (trace w) = [Exec "e1" ["/bin/sh"] true; ExecStart "e1"].
Proof. by vm_compute. Qed.

(** She then sends the command [ls]: the text and a newline reach the
    stream, and the history has one entry. *)
Example alice_sends_ls :
  let w := (on_console_connect Scenario.alice_socket (Some "c1")
              (Scenario.world0 {[ "c1" := Scenario.c1 ]} Scenario.no_faults)).2 in
  let w' := (on_console_command Scenario.alice_socket "ls" w).2 in
  written <$> streams w' !! 0%nat = Some ["ls" +:+ String "010"%char ""]
  ∧ commandHistory <$> heap w' !! 0%nat = Some [("ls", 1000)]
  ∧ command <$> containerLogs w' = ["CONSOLE_CONNECT"; "ls"].
Proof. by vm_compute. Qed.

(** The stream ends: the disconnected notification and one
    CONSOLE_DISCONNECT entry; the socket's own disconnect, which comes
    later, finds no session in the registry and adds nothing. *)
Example stream_ends_then_socket_disconnects :
  let w := (on_console_connect Scenario.alice_socket (Some "c1")
              (Scenario.world0 {[ "c1" := Scenario.c1 ]} Scenario.no_faults)).2 in
  let w1 := (stream_end 0 w).2 in
  let w2 := (on_disconnect Scenario.alice_socket w1).2 in
  emitted "s1" (trace w1)
  = [console_connected "c1" 1000; console_disconnected "Console session ended"]
  ∧ disconnects (containerLogs w1) = 1%nat
  ∧ activeSessions w1 !! "s1" = None
  ∧ disconnects (containerLogs w2) = 1%nat.
Proof. by vm_compute. Qed.

(** Bob asks for the console of Alice's container. *)
Example bob_is_refused :
  let w := (on_console_connect Scenario.bob_socket (Some "c1")
              (Scenario.world0 {[ "c1" := Scenario.c1 ]} Scenario.no_faults)).2 in
  emitted "s2" (trace w)
  = [console_error "Failed to start console session"
       (Some "Access denied to this container")]
  ∧ engine_calls (trace w) = []
  ∧ activeSessions w !! "s2" = None.
Proof. by vm_compute. Qed.

End HandlerFacts.

(** ** The stats namespace *)

Module StatsFacts.

Import Eff Console Stated Auth Lifecycle Express.
Import ConsoleFacts.






(** *** Ownership and the periodic fetch *)




(** *** The two middlewares ahead of the HTTP routes *)







End StatsFacts.

(** ** The create route *)

Module RoutesFacts.

Import Eff Routes.
Import ConsoleFacts.

Lemma container_not_in_catch_scope :
  declare "error" Bound function_scope !! "container" = None.
Proof. by vm_compute. Qed.

(** Whatever the error and the state, the [catch] block issues no delete:
    resolving [container] fails, the failure is logged, and the error is
    thrown again with the container table as it was. *)
Lemma create_handler_catch_effect error w :
  create_handler_catch error w
  = (Throw error,
     with_trace (λ t, t ++ [Logger "error" "Failed to cleanup container record:"]) w).
Proof.
  unfold create_handler_catch, resolve.
  rewrite container_not_in_catch_scope. reflexivity.
Qed.

Lemma container_in_try_scope b (sc : scope) :
  declare "container" b sc !! "container" = Some b
  ∧ declare "dockerContainer" Bound (declare "container" b sc) !! "container"
    = Some b.
Proof.
  unfold declare, scope. split; [apply lookup_insert_eq|].
  rewrite lookup_insert_ne by discriminate. apply lookup_insert_eq.
Qed.

(** A [try] block that throws after the datastore accepted the provisional
    record leaves that record in the table, as it was written. *)
Lemma failed_try_leaves_record req w e w1 :
  create_handler_try req w = (Throw e, w1) →
  faults (surroundings w) ContainerCreate = None →
  ∃ r, containers w1 !! fresh (dom (containers w)) = Some r
    ∧ status r = "CREATED" ∧ dockerId r = None
    ∧ name r = body_name req ∧ ownerId r = user_id (req_user req).
Proof.
  intros E Fc. revert E.
  unfold create_handler_try, prisma_container_create, prisma_container_update,
    Manager.createContainer, Manager.pullImage, Manager.logged, engine, resolve.
  generalize function_scope. intros sc.
  run. simpl. rewrite Fc. simpl.
  match goal with |- context [BoundRow ?c] =>
    destruct (container_in_try_scope (BoundRow c) sc) as [-> ->]
  end.
  simpl.
  destruct (faults (surroundings w) EnginePull) as [m1|]; simpl.
  { intros [= <- <-]. simpl. rewrite lookup_insert_eq. by eexists. }
  destruct (faults (surroundings w) EngineCreate) as [m2|]; simpl.
  { intros [= <- <-]. simpl. rewrite lookup_insert_eq. by eexists. }
  destruct (faults (surroundings w) ContainerUpdate) as [m3|]; simpl.
  { intros [= <- <-]. simpl. rewrite lookup_insert_eq. by eexists. }
  rewrite lookup_insert_eq. simpl. discriminate.
Qed.

(** C1 (the code departs from it): when the engine refuses to create the
    container, or when the record update after the engine call fails, the
    original error is propagated, but the provisional record is not
    deleted: the [catch] block issues no delete, and the record stays in
    the table with status CREATED and no engine identifier. *)
Theorem failed_create_keeps_provisional_record :
  (∀ req w e w1,
     create_handler_try req w = (Throw e, w1) →
     faults (surroundings w) ContainerCreate = None →
     ∃ w' r, try_catch (create_handler_try req) create_handler_catch w
             = (Throw e, w')
       ∧ containers w' !! fresh (dom (containers w)) = Some r
       ∧ status r = "CREATED" ∧ dockerId r = None)
  ∧ (let w := Scenario.world0 ∅ Scenario.engine_create_fails in
     let out := create_handler Scenario.create_web w in
     containers w !! "0" = None
     ∧ out.1 = Throw (Error "no such image")
     ∧ status <$> containers out.2 !! "0" = Some "CREATED"
     ∧ dockerId <$> containers out.2 !! "0" = Some None)
  ∧ (let w := Scenario.world0 ∅ Scenario.update_fails in
     let out := create_handler Scenario.create_web w in
     out.1 = Throw (Error "connection lost")
     ∧ status <$> containers out.2 !! "0" = Some "CREATED"
     ∧ dockerId <$> containers out.2 !! "0" = Some None
     ∧ ∃ hc, engine_calls (trace out.2)
             = [Pull "node:18-alpine"; CreateContainer "panel_0" "node:18-alpine" hc]).
Proof.
  split; [|split].
  - intros req w e w1 E Fc.
    destruct (failed_try_leaves_record req w e w1 E Fc) as (r & Hr & Hs & Hd & _).
    unfold try_catch at 1. rewrite E, create_handler_catch_effect.
    eexists _, r. split; [reflexivity|]. by repeat split.
  - by vm_compute.
  - vm_compute. repeat split. eexists. reflexivity.
Qed.

(** When nothing fails the record ends with the engine identifier. *)
Lemma create_succeeds :
  let out := create_handler Scenario.create_web
               (Scenario.world0 ∅ Scenario.no_faults) in
  dockerId <$> containers out.2 !! "0" = Some (Some "e-panel_0")
  ∧ status <$> containers out.2 !! "0" = Some "CREATED".
Proof. by vm_compute. Qed.

End RoutesFacts.

(** ** Console sessions: the successful path, failures of the engine and
    of the datastore, and what the stream events do *)

Module SessionFacts.

Import Eff Console Stated Notions.
Import ConsoleFacts.

Lemma emitted_app sid t1 t2 : emitted sid (t1 ++ t2) = emitted sid t1 ++ emitted sid t2.
Proof. apply omap_app. Qed.

Lemma engine_calls_app t1 t2 :
  engine_calls (t1 ++ t2) = engine_calls t1 ++ engine_calls t2.
Proof. apply omap_app. Qed.

Lemma closed_opened ex st s : closed (opened ex st s) = closed s.
Proof. reflexivity. Qed.

Lemma opened_coherent ex st s : coherent (opened ex st s).
Proof. left. by repeat split. Qed.

Lemma closed_coherent s : coherent (closed s).
Proof. right. by repeat split. Qed.

(** The whole effect of [cleanup] on the session objects, the streams and
    the timers. *)
Lemma cleanup_heap w this s :
  heap w !! this = Some s →
  ∃ w', cleanup this w = (Ok tt, w')
    ∧ heap w' = <[this := closed s]> (heap w)
    ∧ activeSessions w' = delete (socket s) (activeSessions w)
    ∧ (∀ st, stream s ≠ Some st → streams w' !! st = streams w !! st)
    ∧ (∀ st, listener <$> streams w' !! st = listener <$> streams w !! st)
    ∧ (∀ st, stream s = Some st →
         faults (surroundings w) StreamDestroy = None →
         streams w' !! st = destroy <$> streams w !! st)
    ∧ timers w' = timers w
    ∧ statsInterval w' = statsInterval w
    ∧ surroundings w' = surroundings w.
Proof.
  intros Hs. unfold cleanup, assign, self, stream_destroy, prisma_containerLog_create.
  run. simpl. rewrite lookup_alter_eq, Hs. simpl.
  destruct (faults (surroundings w) StreamDestroy) as [m|] eqn:Hd;
    destruct (faults (surroundings w) ContainerLogCreate) as [m'|] eqn:Hl;
    destruct (stream s) as [st|] eqn:Hst; run;
    repeat (progress (simpl; rewrite ?Hd, ?Hl, ?lookup_alter_eq, ?Hs));
    eexists; (split; [reflexivity|]); simpl;
    (split;
     [apply map_eq; intros i; destruct (decide (i = this)) as [->|Hi];
      [rewrite !lookup_alter_eq, lookup_insert_eq, Hs; simpl;
       unfold closed; destruct s; simpl in *; by subst
      |by rewrite !lookup_alter_ne, lookup_insert_ne] |]);
    (split; [reflexivity|]);
    (split; [intros st' Hne;
             first [reflexivity | rewrite lookup_alter_ne; [reflexivity | congruence]] |]);
    (split; [intros st';
             first [reflexivity
                   | destruct (decide (st' = st)) as [->|Hne];
                     [rewrite lookup_alter_eq; by destruct (streams w !! st)
                     | by rewrite lookup_alter_ne]] |]);
    (split; [intros st' Hst' Hd'; try discriminate; injection Hst' as <-;
             by rewrite lookup_alter_eq |]);
    done.
Qed.

(** [cleanup], all told. *)
Lemma cleanup_all w this s :
  heap w !! this = Some s →
  ∃ w', cleanup this w = (Ok tt, w')
    ∧ heap w' = <[this := closed s]> (heap w)
    ∧ activeSessions w' = delete (socket s) (activeSessions w)
    ∧ containerLogs w'
      = containerLogs w
        ++ match faults (surroundings w) ContainerLogCreate with
           | None => [disconnect_entry s (now (surroundings w))]
           | Some _ => []
           end
    ∧ engine_calls (trace w') = engine_calls (trace w)
    ∧ (∀ sid, emitted sid (trace w') = emitted sid (trace w))
    ∧ (∀ st, stream s ≠ Some st → streams w' !! st = streams w !! st)
    ∧ (∀ st, listener <$> streams w' !! st = listener <$> streams w !! st)
    ∧ dom (streams w') = dom (streams w)
    ∧ surroundings w' = surroundings w
    ∧ (∀ st, stream s = Some st →
         faults (surroundings w) StreamDestroy = None →
         streams w' !! st = destroy <$> streams w !! st)
    ∧ timers w' = timers w ∧ statsInterval w' = statsInterval w
    ∧ containers w' = containers w ∧ users w' = users w.
Proof.
  intros Hs.
  destruct (cleanup_effect w this s Hs) as (w1 & E1 & _ & _ & L & C & M & Hc & Hu & _).
  destruct (cleanup_heap w this s Hs) as (w2 & E2 & Hh & Hr & S1 & S2 & S3 & T1 & T2 & Su).
  rewrite E1 in E2. injection E2 as <-.
  exists w1. repeat split; try done.
  apply set_eq. intros st. rewrite !elem_of_dom.
  specialize (S2 st).
  destruct (streams w1 !! st), (streams w !! st); simpl in S2;
    try discriminate; split; intros [? ?]; eauto.
Qed.

(** Runs the [cleanup] at the end of a [catch] block. *)
Ltac catch_cleanup this s Hs :=
  match goal with |- context [cleanup this ?w1] =>
    let w' := fresh "w'" in
    destruct (cleanup_all w1 this s Hs)
      as (w' & Ecl & Hheap & Hreg & Hlog & Hcalls & Hemit & Hstr & Hlis & Hdom
          & Hsur & Hdes & _);
    exists w'; split; [done|]
  end.

(** *** [start] when every check passes *)

Lemma start_opens w this s c u did :
  heap w !! this = Some s →
  faults (surroundings w) ContainerFindUnique = None →
  faults (surroundings w) UserFindUnique = None →
  faults (surroundings w) EngineExec = None →
  faults (surroundings w) EngineExecStart = None →
  faults (surroundings w) ContainerLogCreate = None →
  containers w !! containerId s = Some c →
  users w !! userId s = Some u →
  role u = "ADMIN" ∨ ownerId c = userId s →
  dockerId c = Some did → did ≠ "" →
  status c = "RUNNING" →
  let st := fresh (dom (streams w)) in
  ∃ w', start this w = (Ok tt, w')
    ∧ heap w' = <[this := opened st st s]> (heap w)
    ∧ streams w'
      = <[st := {| written := []; destroyed := false; listener := Some this |}]>
          (streams w)
    ∧ activeSessions w' = activeSessions w
    ∧ containerLogs w' = containerLogs w ++ [connect_entry (containerId s)]
    ∧ trace w'
      = trace w ++ [Engine (Exec did ["/bin/sh"] true); Engine (ExecStart did);
                    Emit (socket s)
                      (console_connected (containerId s) (now (surroundings w)));
                    Logger "audit" "Console session started"].
Proof.
  intros Hs F1 F2 F3 F4 F5 Hc Hu Hauth Hd Hdid Hst st.
  unfold start, self, prisma_container_findUnique, prisma_user_findUnique,
    Manager.execCommand, Manager.logged, engine, assign, stream_on,
    prisma_containerLog_create.
  run. rewrite Hs, F1. simpl. rewrite Hc, F2. simpl. rewrite Hu. simpl.
  assert (bool_decide (role u ≠ "ADMIN") && bool_decide (ownerId c ≠ userId s)
          = false) as ->.
  { destruct Hauth as [Ha|Ha]; rewrite Ha.
    - by rewrite bool_decide_eq_false_2 by (intros ?; done).
    - rewrite (bool_decide_eq_false_2 (_ ≠ userId _)) by (intros ?; done).
      apply andb_false_r. }
  rewrite Hd. destruct did as [|a did]; [done|].
  rewrite Hst. rewrite bool_decide_eq_false_2 by (intros ?; done).
  simpl. rewrite F3. simpl. rewrite F4. simpl. rewrite F5. simpl.
  eexists. split; [reflexivity|]. simpl.
  split; [|split; [|split; [done|split; [done|]]]].
  - apply map_eq. intros i. destruct (decide (i = this)) as [->|Hi].
    + rewrite !lookup_alter_eq, lookup_insert_eq, Hs. reflexivity.
    + by rewrite !lookup_alter_ne, lookup_insert_ne.
  - apply map_eq. intros i. fold st. destruct (decide (i = st)) as [->|Hi].
    + rewrite lookup_alter_eq, !lookup_insert_eq. reflexivity.
    + by rewrite lookup_alter_ne, !lookup_insert_ne.
  - by rewrite <- !app_assoc.
Qed.

(** X1: A [console:connect] that passes every check: the session of the
    connection is registered and open on a fresh stream whose events it
    listens to, the client is told [console:connected], the log gains one
    CONSOLE_CONNECT entry, and the engine received the two calls of
    [execCommand] for an interactive [/bin/sh].  The role that is checked
    is the one in the user table when the request is handled.  While the
    session is registered a further [console:connect] on the connection,
    for whatever container, is answered 'Console session already active'
    and changes nothing else. *)
Theorem connect_opens_console sock cid w c u did :
  cid ≠ "" →
  activeSessions w !! sock_id sock = None →
  faults (surroundings w) ContainerFindUnique = None →
  faults (surroundings w) UserFindUnique = None →
  faults (surroundings w) EngineExec = None →
  faults (surroundings w) EngineExecStart = None →
  faults (surroundings w) ContainerLogCreate = None →
  containers w !! cid = Some c →
  users w !! user_id (sock_user sock) = Some u →
  role u = "ADMIN" ∨ ownerId c = user_id (sock_user sock) →
  dockerId c = Some did → did ≠ "" →
  status c = "RUNNING" →
  ∃ w' this st,
    on_console_connect sock (Some cid) w = (Ok tt, w')
    ∧ activeSessions w' !! sock_id sock = Some this
    ∧ heap w' !! this
      = Some {| socket := sock_id sock; containerId := cid;
                userId := user_id (sock_user sock); dockerExec := Some st;
                stream := Some st; isActive := true;
                startTime := now (surroundings w); commandHistory := [] |}
    ∧ streams w !! st = None
    ∧ streams w' !! st
      = Some {| written := []; destroyed := false; listener := Some this |}
    ∧ emitted (sock_id sock) (trace w')
      = emitted (sock_id sock) (trace w)
        ++ [console_connected cid (now (surroundings w))]
    ∧ engine_calls (trace w')
      = engine_calls (trace w) ++ [Exec did ["/bin/sh"] true; ExecStart did]
    ∧ containerLogs w' = containerLogs w ++ [connect_entry cid]
    ∧ (∀ cid', cid' ≠ "" →
       on_console_connect sock (Some cid') w'
       = (Ok tt, with_trace
                   (λ t, t ++ [Emit (sock_id sock)
                                 (console_error "Console session already active"
                                    None)])
                   w')).
Proof.
  intros Hcid Hnone F1 F2 F3 F4 F5 Hc Hu Hauth Hd Hdid Hst.
  unfold on_console_connect at 1, new_session. destruct cid as [|a cid]; [done|].
  run. rewrite Hnone. simpl.
  set (this := fresh (dom (heap w))).
  set (s := {| socket := sock_id sock; containerId := String a cid;
               userId := user_id (sock_user sock); dockerExec := None;
               stream := None; isActive := false;
               startTime := now (surroundings w); commandHistory := [] |}).
  set (w1 := with_activeSessions _ _).
  destruct (start_opens w1 this s c u did)
    as (w' & E & Hh & Hs' & Hr & Hl & Ht); try done.
  { subst w1. simpl. apply lookup_insert_eq. }
  rewrite E. exists w', this, (fresh (dom (streams w))).
  split; [done|].
  split; [rewrite Hr; subst w1; simpl; apply lookup_insert_eq|].
  split; [rewrite Hh; apply lookup_insert_eq|].
  split; [apply not_elem_of_dom, is_fresh|].
  split; [rewrite Hs'; apply lookup_insert_eq|].
  split; [rewrite Ht, emitted_app; subst w1 s; simpl;
          by rewrite bool_decide_eq_true_2|].
  split; [by rewrite Ht, engine_calls_app|].
  split; [done|].
  intros cid' Hcid'. unfold on_console_connect. destruct cid' as [|b cid']; [done|].
  run. rewrite Hr. subst w1. simpl. by rewrite lookup_insert_eq.
Qed.

Lemma connect_opens_console_witness :
  ∃ w' this st,
    on_console_connect Scenario.alice_socket (Some "c1")
      (Scenario.world0 {[ "c1" := Scenario.c1 ]} Scenario.no_faults) = (Ok tt, w')
    ∧ activeSessions w' !! "s1" = Some this
    ∧ isActive <$> heap w' !! this = Some true
    ∧ listener <$> streams w' !! st = Some (Some this).
Proof.
  destruct (connect_opens_console Scenario.alice_socket "c1"
              (Scenario.world0 {[ "c1" := Scenario.c1 ]} Scenario.no_faults)
              Scenario.c1 Scenario.alice "e1")
    as (w' & this & st & E & Hr & Hh & _ & Hs & _);
    [discriminate | reflexivity | reflexivity | reflexivity | reflexivity
    | reflexivity | reflexivity | vm_compute; reflexivity
    | vm_compute; reflexivity | right; reflexivity | reflexivity
    | discriminate | reflexivity |].
  exists w', this, st. split; [exact E|]. split; [exact Hr|].
  split; [by rewrite Hh | by rewrite Hs].
Defined.

(** *** [sendCommand] and [sendInput] on an open session *)

Lemma last100_short {A} (h : list A) : (length h ≤ 100)%nat → last100 h = h.
Proof. intros H. unfold last100. by replace (length h - 100)%nat with 0%nat by lia. Qed.

Lemma last100_length {A} (h : list A) : (length (last100 h) ≤ 100)%nat.
Proof. unfold last100. rewrite length_drop. lia. Qed.

Lemma last100_last {A} (h : list A) x : last (last100 (h ++ [x])) = Some x.
Proof.
  unfold last100. rewrite length_app. simpl.
  rewrite drop_app_le by lia. apply last_snoc.
Qed.

Lemma substring_length n m s : (String.length (String.substring n m s) ≤ m)%nat.
Proof.
  revert n m. induction s as [|c s IH]; intros [|n] [|m]; simpl; try lia.
  - specialize (IH 0%nat m). lia.
  - apply (IH n 0%nat).
  - apply (IH n (S m)).
Qed.

(** What [sendCommand] does on an open session, whichever calls fail. *)
Lemma sendCommand_open w this s st command :
  heap w !! this = Some s → isActive s = true → stream s = Some st →
  let h := last100 (commandHistory s ++ [(command, now (surroundings w))]) in
  ∃ w', sendCommand this command w = (Ok tt, w')
    ∧ heap w' = <[this := set_commandHistory h s]> (heap w)
    ∧ activeSessions w' = activeSessions w
    ∧ engine_calls (trace w') = engine_calls (trace w)
    ∧ match faults (surroundings w) StreamWrite with
      | Some m =>
          streams w' = streams w ∧ containerLogs w' = containerLogs w
          ∧ emitted (socket s) (trace w')
            = emitted (socket s) (trace w)
              ++ [console_error "Failed to send command" (Some m)]
      | None =>
          streams w' = alter (wrote (command +:+ newline)) st (streams w)
          ∧ match faults (surroundings w) ContainerLogCreate with
            | Some m =>
                containerLogs w' = containerLogs w
                ∧ emitted (socket s) (trace w')
                  = emitted (socket s) (trace w)
                    ++ [console_error "Failed to send command" (Some m)]
            | None =>
                containerLogs w'
                = containerLogs w ++ [command_entry (containerId s) command]
                ∧ ∀ sid, emitted sid (trace w') = emitted sid (trace w)
            end
      end.
Proof.
  intros Hs Ha Hst h.
  assert (Hheap1 : (length (commandHistory s ++ [(command, now (surroundings w))]) ≤ 100)%nat →
            alter (set_commandHistory (commandHistory s ++ [(command, now (surroundings w))]))
              this (heap w)
            = <[this := set_commandHistory h s]> (heap w)).
  { intros Hlen. subst h. rewrite last100_short by done.
    apply map_eq. intros i. destruct (decide (i = this)) as [->|Hi].
    - by rewrite lookup_alter_eq, lookup_insert_eq, Hs.
    - by rewrite lookup_alter_ne, lookup_insert_ne. }
  assert (Hheap2 : ∀ h0,
            alter (set_commandHistory h) this (alter (set_commandHistory h0) this (heap w))
            = <[this := set_commandHistory h s]> (heap w)).
  { intros h0. apply map_eq. intros i. destruct (decide (i = this)) as [->|Hi].
    - by rewrite !lookup_alter_eq, lookup_insert_eq, Hs.
    - by rewrite !lookup_alter_ne, lookup_insert_ne. }
  unfold sendCommand, self, assign, stream_write, prisma_containerLog_create.
  run. rewrite Hs, Ha, Hst. simpl.
  case_bool_decide as Hlen; simpl;
    destruct (faults (surroundings w) StreamWrite) as [m|] eqn:Hw; simpl;
    try (destruct (faults (surroundings w) ContainerLogCreate) as [m'|] eqn:Hl; simpl);
    eexists; (split; [reflexivity|]); simpl;
    (split; [first [apply Hheap2 | apply Hheap1; lia]|]);
    (split; [reflexivity|]);
    autorewrite with trace_db;
    (split; [reflexivity|]);
    repeat split; try reflexivity;
    intros; by autorewrite with trace_db.
Qed.

(** X2: A command sent on an open session, when the stream and the datastore
    accept it: the stream receives the command followed by a newline, the
    log gains one entry that carries at most the first 1000 characters of
    the command, and nothing is sent to the client.  Raw input sent with
    [sendInput] is written to the stream as it is; it is not logged and
    not recorded in the history. *)
Theorem command_written_and_logged w this s st o command input :
  heap w !! this = Some s → isActive s = true → stream s = Some st →
  streams w !! st = Some o →
  faults (surroundings w) StreamWrite = None →
  faults (surroundings w) ContainerLogCreate = None →
  (∃ w', sendCommand this command w = (Ok tt, w')
     ∧ streams w' !! st = Some (wrote (command +:+ newline) o)
     ∧ containerLogs w'
       = containerLogs w ++ [command_entry (containerId s) command]
     ∧ (String.length (Eff.command (command_entry (containerId s) command))
        ≤ 1000)%nat
     ∧ ((String.length command ≤ 1000)%nat →
        Eff.command (command_entry (containerId s) command) = command)
     ∧ (∀ sid, emitted sid (trace w') = emitted sid (trace w))
     ∧ engine_calls (trace w') = engine_calls (trace w))
  ∧ sendInput this input w
    = (Ok tt, with_streams (alter (wrote input) st) w).
Proof.
  intros Hs Ha Hst Ho Fw Fl. split.
  - destruct (sendCommand_open w this s st command Hs Ha Hst)
      as (w' & E & _ & _ & Hc & Hrest).
    rewrite Fw, Fl in Hrest. destruct Hrest as (Hstr & Hlog & Hem).
    exists w'. split; [done|].
    split; [by rewrite Hstr, lookup_alter_eq, Ho|].
    split; [done|]. split; [apply substring_length|].
    split; [|done].
    intros Hlen. simpl. clear -Hlen. revert Hlen. generalize 1000%nat.
    induction command as [|c r IH]; intros [|n] Hn; simpl in *; try done; try lia.
    f_equal. apply IH. lia.
  - unfold sendInput, self, stream_write. run. by rewrite Hs, Ha, Hst, Fw.
Qed.

Lemma command_written_and_logged_witness :
  ∃ w', sendCommand 0 "ls -la" Samples.console_open = (Ok tt, w')
    ∧ written <$> streams w' !! 0%nat = Some ["ls -la" +:+ newline]
    ∧ command <$> last (containerLogs w') = Some "ls -la".
Proof.
  destruct (proj1 (command_written_and_logged Samples.console_open 0%nat
              Samples.alice_session
              0%nat
              {| written := []; destroyed := false; listener := Some 0%nat |}
              "ls -la" ""
              ltac:(vm_compute; reflexivity) eq_refl eq_refl
              ltac:(vm_compute; reflexivity) eq_refl eq_refl))
    as (w' & E & Hstr & Hlog & _).
  exists w'. split; [exact E|]. split; [by rewrite Hstr|].
  rewrite Hlog. by rewrite last_snoc.
Defined.

(** X3: The command history of an open session holds at most 100 entries
    after every command, whatever it held before: the new entry is the
    last one and the oldest entries are dropped first.  The command is
    recorded even when writing it to the stream or logging it fails. *)
Theorem history_keeps_last_hundred w this s st command :
  heap w !! this = Some s → isActive s = true → stream s = Some st →
  ∃ w' s', sendCommand this command w = (Ok tt, w')
    ∧ heap w' !! this = Some s'
    ∧ commandHistory s'
      = last100 (commandHistory s ++ [(command, now (surroundings w))])
    ∧ (length (commandHistory s') ≤ 100)%nat
    ∧ last (commandHistory s') = Some (command, now (surroundings w))
    ∧ ((length (commandHistory s) < 100)%nat →
       commandHistory s' = commandHistory s ++ [(command, now (surroundings w))])
    ∧ isActive s' = true ∧ stream s' = Some st
    ∧ activeSessions w' = activeSessions w.
Proof.
  intros Hs Ha Hst.
  destruct (sendCommand_open w this s st command Hs Ha Hst)
    as (w' & E & Hh & Hr & _).
  eexists w', _. split; [done|].
  split; [rewrite Hh; apply lookup_insert_eq|]. simpl.
  split; [done|]. split; [apply last100_length|].
  split; [apply last100_last|].
  split; [|done].
  intros Hlen. apply last100_short. rewrite length_app. simpl. lia.
Qed.

Lemma history_keeps_last_hundred_witness :
  ∃ w' s', sendCommand 0 "ls -la" Samples.console_open = (Ok tt, w')
    ∧ heap w' !! 0%nat = Some s'
    ∧ commandHistory s' = [("ls -la", 1000)].
Proof.
  destruct (history_keeps_last_hundred Samples.console_open 0%nat
              Samples.alice_session
              0%nat "ls -la"
              ltac:(vm_compute; reflexivity) eq_refl eq_refl)
    as (w' & s' & E & Hh & Hc & _).
  exists w', s'. split; [exact E|]. split; [exact Hh|exact Hc].
Defined.

(** A stream that refuses a write: [sendCommand] and [sendInput] report
    the failure to the client with the stream's message.  Nothing reaches
    the stream and the log, and the session stays open and registered. *)
Lemma write_failure_is_reported w this s st m command input :
  heap w !! this = Some s → isActive s = true → stream s = Some st →
  faults (surroundings w) StreamWrite = Some m →
  (∃ w' s', sendCommand this command w = (Ok tt, w')
     ∧ emitted (socket s) (trace w')
       = emitted (socket s) (trace w)
         ++ [console_error "Failed to send command" (Some m)]
     ∧ streams w' = streams w ∧ containerLogs w' = containerLogs w
     ∧ activeSessions w' = activeSessions w
     ∧ heap w' !! this = Some s' ∧ isActive s' = true ∧ stream s' = Some st)
  ∧ sendInput this input w
    = (Ok tt, with_trace
                (λ t, t ++ [Logger "error" "Failed to send input:";
                            Emit (socket s)
                              (console_error "Failed to send input" (Some m))])
                w).
Proof.
  intros Hs Ha Hst Fw. split.
  - destruct (sendCommand_open w this s st command Hs Ha Hst)
      as (w' & E & Hh & Hr & _ & Hrest).
    rewrite Fw in Hrest. destruct Hrest as (Hstr & Hlog & Hem).
    eexists w', _. split; [done|]. split; [done|]. split; [done|].
    split; [done|]. split; [done|].
    split; [rewrite Hh; apply lookup_insert_eq|]. by simpl.
  - unfold sendInput, self, stream_write. run. rewrite Hs, Ha, Hst, Fw. simpl.
    unfold with_trace. simpl. by rewrite <- app_assoc.
Qed.

(** *** [resize] *)

(** [resize] is best effort: it always returns, it sends nothing to the
    client whether or not the engine accepts the call, and it leaves the
    sessions, the streams and the log as they are.  The engine is called,
    with the rows as height and the columns as width, only on a session
    that is active and has an exec handle. *)
Lemma resize_is_best_effort w this s cols rows :
  heap w !! this = Some s →
  ∃ w', resize this cols rows w = (Ok tt, w')
    ∧ (∀ sid, emitted sid (trace w') = emitted sid (trace w))
    ∧ engine_calls (trace w')
      = engine_calls (trace w)
        ++ match isActive s, dockerExec s with
           | true, Some ex => [Resize ex rows cols]
           | _, _ => []
           end
    ∧ heap w' = heap w ∧ streams w' = streams w
    ∧ activeSessions w' = activeSessions w
    ∧ containerLogs w' = containerLogs w.
Proof.
  intros Hs. unfold resize, self, engine. run. rewrite Hs.
  destruct (isActive s); [destruct (dockerExec s) as [ex|]|]; simpl;
    try (eexists; split; [reflexivity|]; by rewrite app_nil_r).
  destruct (faults (surroundings w) EngineResize) as [m|]; simpl;
    eexists; (split; [reflexivity|]); simpl; autorewrite with trace_db;
    (split; [intros; by autorewrite with trace_db |]); done.
Qed.

(** *** The events of the exec stream *)

Lemma after_cons {E} (handler : E → M unit) e es w :
  after handler (e :: es) w = after handler es (handler e w).2.
Proof. reflexivity. Qed.

Lemma stream_data_relays w st o this s chunk :
  streams w !! st = Some o → listener o = Some this →
  heap w !! this = Some s →
  stream_data st chunk w
  = (Ok tt, with_trace
              (λ t, t ++ [Emit (socket s)
                            (console_output chunk (now (surroundings w)))]) w).
Proof.
  intros Ho Hl Hs. unfold stream_data, listening, self. run. rewrite Ho. simpl.
  by rewrite Hl, Hs.
Qed.

(** X4: The chunks an exec stream delivers are relayed to the client of the
    session that listens to it one message per chunk and in the order of
    their arrival; nothing else changes. *)
Theorem output_relayed_in_order w st o this s chunks :
  streams w !! st = Some o → listener o = Some this →
  heap w !! this = Some s →
  after console_handler (StreamData st <$> chunks) w
  = with_trace
      (λ t, t ++ ((λ chunk, Emit (socket s)
                              (console_output chunk (now (surroundings w))))
                  <$> chunks))
      w.
Proof.
  intros Ho Hl Hs. revert w Ho Hs.
  induction chunks as [|c chunks IH]; intros w Ho Hs.
  - simpl. unfold with_trace. rewrite app_nil_r. by destruct w.
  - rewrite fmap_cons, after_cons. simpl console_handler.
    rewrite (stream_data_relays w st o this s c Ho Hl Hs). simpl.
    rewrite IH by done. unfold with_trace. simpl. by rewrite <- app_assoc.
Qed.

Lemma output_relayed_in_order_witness :
  emitted "s1"
    (trace (after console_handler (StreamData 0 <$> ["a"; "b"])
              Samples.console_open))
  = emitted "s1" (trace Samples.console_open)
    ++ [console_output "a" 1000; console_output "b" 1000].
Proof.
  rewrite (output_relayed_in_order Samples.console_open 0%nat
             {| written := []; destroyed := false; listener := Some 0%nat |}
             0%nat Samples.alice_session ["a"; "b"]
             ltac:(vm_compute; reflexivity) eq_refl
             ltac:(vm_compute; reflexivity)).
  simpl. rewrite emitted_app. f_equal.
Defined.

(** X5: When the exec stream ends or fails, the client is told so (with the
    stream's message in the case of a failure), the session is closed and
    taken out of the registry, and no call is made on the engine.  A
    command that arrives on the connection afterwards is answered
    'No active console session'. *)
Theorem stream_end_closes_session w st o this s error :
  streams w !! st = Some o → listener o = Some this →
  heap w !! this = Some s →
  ∀ e note,
    (e = StreamEnd st ∧ note = console_disconnected "Console session ended")
    ∨ (e = StreamError st error
       ∧ note = console_error "Stream error occurred" (Some (message error))) →
    ∃ w', console_handler e w = (Ok tt, w')
      ∧ heap w' !! this = Some (closed s)
      ∧ activeSessions w' !! socket s = None
      ∧ emitted (socket s) (trace w') = emitted (socket s) (trace w) ++ [note]
      ∧ engine_calls (trace w') = engine_calls (trace w)
      ∧ ∀ sock command, sock_id sock = socket s →
          on_console_command sock command w'
          = (Ok tt, with_trace
                      (λ t, t ++ [Emit (socket s)
                                    (console_error "No active console session"
                                       None)])
                      w').
Proof.
  intros Ho Hl Hs e note He.
  assert (Hgoal : ∀ w0, heap w0 !! this = Some s →
            emitted (socket s) (trace w0) = emitted (socket s) (trace w) ++ [note] →
            engine_calls (trace w0) = engine_calls (trace w) →
            ∃ w', cleanup this w0 = (Ok tt, w')
              ∧ heap w' !! this = Some (closed s)
              ∧ activeSessions w' !! socket s = None
              ∧ emitted (socket s) (trace w') = emitted (socket s) (trace w) ++ [note]
              ∧ engine_calls (trace w') = engine_calls (trace w)
              ∧ ∀ sock command, sock_id sock = socket s →
                  on_console_command sock command w'
                  = (Ok tt, with_trace
                              (λ t, t ++ [Emit (socket s)
                                            (console_error "No active console session"
                                               None)])
                              w')).
  { intros w0 Hs0 Hem Hen.
    destruct (cleanup_all w0 this s Hs0) as (w' & E & Hh & Hr & _ & C & M & _).
    exists w'. split; [done|].
    split; [rewrite Hh; apply lookup_insert_eq|].
    split; [rewrite Hr; apply lookup_delete_eq|].
    split; [by rewrite M|]. split; [by rewrite C|].
    intros sock command Hsock. unfold on_console_command. run.
    by rewrite Hsock, Hr, lookup_delete_eq. }
  destruct He as [[-> ->]|[-> ->]]; simpl.
  - unfold stream_end, listening, self. run. rewrite Ho. simpl. rewrite Hl, Hs. simpl.
    apply Hgoal; simpl; by autorewrite with trace_db.
  - unfold stream_error, listening, self. run. rewrite Ho. simpl. rewrite Hl, Hs. simpl.
    apply Hgoal; simpl; by autorewrite with trace_db.
Qed.

Lemma stream_end_closes_session_witness :
  ∃ w', stream_end 0 Samples.console_open = (Ok tt, w')
    ∧ activeSessions w' !! "s1" = None
    ∧ isActive <$> heap w' !! 0%nat = Some false.
Proof.
  destruct (stream_end_closes_session Samples.console_open 0%nat
              {| written := []; destroyed := false; listener := Some 0%nat |}
              0%nat Samples.alice_session (Error "")
              ltac:(vm_compute; reflexivity) eq_refl
              ltac:(vm_compute; reflexivity)
              (StreamEnd 0) (console_disconnected "Console session ended")
              (or_introl (conj eq_refl eq_refl)))
    as (w' & E & Hh & Hr & _).
  exists w'. split; [exact E|]. split; [exact Hr|]. by rewrite Hh.
Defined.

(** *** [console:connect] when [start] fails *)

(** [console:connect] on a connection without a session hands over to
    [start] on the fresh session, once registered. *)
Lemma connect_runs_start sock cid w w' :
  cid ≠ "" →
  activeSessions w !! sock_id sock = None →
  start (fresh (dom (heap w))) (registered sock cid w) = (Ok tt, w') →
  on_console_connect sock (Some cid) w = (Ok tt, w').
Proof.
  intros Hcid Hnone E. unfold on_console_connect, new_session.
  destruct cid as [|a cid]; [done|]. run. rewrite Hnone. simpl.
  unfold registered, fresh_session in E. by rewrite E.
Qed.

Lemma registered_session sock cid w :
  heap (registered sock cid w) !! fresh (dom (heap w))
  = Some (fresh_session sock cid w).
Proof. simpl. apply lookup_insert_eq. Qed.

(** A refused [start] is a refused [console:connect]. *)
Lemma refused_connect msg calls sock cid w w' :
  cid ≠ "" →
  activeSessions w !! sock_id sock = None →
  start_refused msg calls (registered sock cid w) (fresh (dom (heap w)))
    (fresh_session sock cid w) w' →
  connect_refused msg calls sock cid w w'.
Proof.
  intros Hcid Hnone (E & Hh & Hr & Hem & Hen & Hl & Hstr).
  split; [by apply connect_runs_start|].
  split; [done|]. split; [done|].
  split; [rewrite Hr; apply lookup_delete_eq|].
  split; [exists (closed (fresh_session sock cid w)); split;
          [rewrite Hh; apply lookup_insert_eq | done]|].
  split; [apply map_eq; intros st; by apply Hstr|].
  intros (r & Hin & Hnin & Hcmd). rewrite Hl in Hin. simpl in Hin.
  apply elem_of_app in Hin as [Hin|Hin]; [done|].
  destruct (faults (surroundings w) ContainerLogCreate).
  - by apply elem_of_nil in Hin.
  - apply list_elem_of_singleton in Hin. by subst r.
Qed.

(** Every check of [start] passes and the engine then refuses the exec,
    or refuses to start it. *)
Lemma start_engine_failure w this s c u did m :
  heap w !! this = Some s →
  faults (surroundings w) ContainerFindUnique = None →
  faults (surroundings w) UserFindUnique = None →
  containers w !! containerId s = Some c →
  users w !! userId s = Some u →
  role u = "ADMIN" ∨ ownerId c = userId s →
  dockerId c = Some did → did ≠ "" →
  status c = "RUNNING" →
  faults (surroundings w) EngineExec = Some m
  ∨ faults (surroundings w) EngineExec = None
    ∧ faults (surroundings w) EngineExecStart = Some m →
  ∃ w', start_refused m
          (Exec did ["/bin/sh"] true
           :: match faults (surroundings w) EngineExec with
              | Some _ => []
              | None => [ExecStart did]
              end)
          w this s w'.
Proof.
  intros Hs F1 F2 Hc Hu Hauth Hd Hdid Hst Hm.
  unfold start_refused, start, self, prisma_container_findUnique,
    prisma_user_findUnique, Manager.execCommand, Manager.logged, engine.
  run. rewrite Hs, F1. simpl. rewrite Hc, F2. simpl. rewrite Hu. simpl.
  assert (bool_decide (role u ≠ "ADMIN") && bool_decide (ownerId c ≠ userId s)
          = false) as ->.
  { destruct Hauth as [Ha|Ha]; rewrite Ha.
    - by rewrite bool_decide_eq_false_2 by (intros ?; done).
    - rewrite (bool_decide_eq_false_2 (_ ≠ userId _)) by (intros ?; done).
      apply andb_false_r. }
  rewrite Hd. destruct did as [|a did]; [done|].
  rewrite Hst. rewrite bool_decide_eq_false_2 by (intros ?; done).
  simpl.
  destruct Hm as [Fe|[Fe Fs]]; rewrite Fe; simpl; [|rewrite Fs; simpl];
    rewrite Hs; simpl; catch_cleanup this s Hs;
    (split; [done|]); (split; [done|]);
    rewrite Hcalls, Hemit, Hlog; simpl; autorewrite with trace_db;
    rewrite <- ?app_assoc; done.
Qed.

(** The requester may use the container, but it has no engine identifier
    or is not running. *)
Lemma start_not_ready w this s c u :
  heap w !! this = Some s →
  faults (surroundings w) ContainerFindUnique = None →
  faults (surroundings w) UserFindUnique = None →
  containers w !! containerId s = Some c →
  users w !! userId s = Some u →
  role u = "ADMIN" ∨ ownerId c = userId s →
  (dockerId c = None ∨ dockerId c = Some "" →
   ∃ w', start_refused "Container has no Docker ID" [] w this s w')
  ∧ (∀ did, dockerId c = Some did → did ≠ "" → status c ≠ "RUNNING" →
     ∃ w', start_refused "Container is not running" [] w this s w').
Proof.
  intros Hs F1 F2 Hc Hu Hauth.
  assert (Hpass : bool_decide (role u ≠ "ADMIN")
                  && bool_decide (ownerId c ≠ userId s) = false).
  { destruct Hauth as [Ha|Ha]; rewrite Ha.
    - by rewrite bool_decide_eq_false_2 by (intros ?; done).
    - rewrite (bool_decide_eq_false_2 (_ ≠ userId _)) by (intros ?; done).
      apply andb_false_r. }
  split.
  - intros Hd.
    unfold start_refused, start, self, prisma_container_findUnique,
      prisma_user_findUnique.
    run. rewrite Hs, F1. simpl. rewrite Hc, F2. simpl. rewrite Hu. simpl.
    rewrite Hpass.
    destruct Hd as [-> | ->]; simpl; rewrite Hs; simpl;
      catch_cleanup this s Hs;
      (split; [done|]); (split; [done|]);
      rewrite Hcalls, Hemit, Hlog; simpl; autorewrite with trace_db;
      by rewrite app_nil_r.
  - intros did Hd Hdid Hst.
    unfold start_refused, start, self, prisma_container_findUnique,
      prisma_user_findUnique.
    run. rewrite Hs, F1. simpl. rewrite Hc, F2. simpl. rewrite Hu. simpl.
    rewrite Hpass, Hd. destruct did as [|a did]; [done|].
    rewrite bool_decide_eq_true_2 by done. simpl. rewrite Hs. simpl.
    catch_cleanup this s Hs.
    (split; [done|]); (split; [done|]).
    rewrite Hcalls, Hemit, Hlog. simpl. autorewrite with trace_db.
    by rewrite app_nil_r.
Qed.

(** X6: A [console:connect] by the owner or an administrator to a container
    that is running, when the engine refuses the exec or refuses to start
    it: the client is told that the session failed to start, with the
    engine's message; the connection is left without a session, no stream
    exists that did not exist before, and the log gains no CONSOLE_CONNECT
    entry.  The engine received the exec call, and the start call if the
    exec was accepted. *)
Theorem engine_failure_refuses_connect sock cid w c u did m :
  cid ≠ "" →
  activeSessions w !! sock_id sock = None →
  faults (surroundings w) ContainerFindUnique = None →
  faults (surroundings w) UserFindUnique = None →
  containers w !! cid = Some c →
  users w !! user_id (sock_user sock) = Some u →
  role u = "ADMIN" ∨ ownerId c = user_id (sock_user sock) →
  dockerId c = Some did → did ≠ "" →
  status c = "RUNNING" →
  faults (surroundings w) EngineExec = Some m
  ∨ faults (surroundings w) EngineExec = None
    ∧ faults (surroundings w) EngineExecStart = Some m →
  ∃ w', connect_refused m
          (Exec did ["/bin/sh"] true
           :: match faults (surroundings w) EngineExec with
              | Some _ => []
              | None => [ExecStart did]
              end)
          sock cid w w'.
Proof.
  intros Hcid Hnone F1 F2 Hc Hu Hauth Hd Hdid Hst Hm.
  destruct (start_engine_failure (registered sock cid w) (fresh (dom (heap w)))
              (fresh_session sock cid w) c u did m) as (w' & Hr); try done.
  { apply registered_session. }
  exists w'. by apply refused_connect.
Qed.

Lemma engine_failure_refuses_connect_witness :
  ∃ w', connect_refused "connect ECONNREFUSED" [Exec "e1" ["/bin/sh"] true]
          Scenario.alice_socket "c1"
          (Scenario.world0 {[ "c1" := Scenario.c1 ]} Samples.exec_fails) w'.
Proof.
  apply (engine_failure_refuses_connect Scenario.alice_socket "c1"
           (Scenario.world0 {[ "c1" := Scenario.c1 ]} Samples.exec_fails)
           Scenario.c1 Scenario.alice "e1" "connect ECONNREFUSED");
    [discriminate | reflexivity | reflexivity | reflexivity
    | vm_compute; reflexivity | vm_compute; reflexivity | right; reflexivity
    | reflexivity | discriminate | reflexivity | left; reflexivity].
Defined.

(** X7: A [console:connect] by the owner or an administrator to a container
    that cannot take a console: with no engine identifier the reason is
    'Container has no Docker ID', whatever the status; with one but a
    status other than RUNNING it is 'Container is not running'.  In both
    cases no call is made on the engine and the connection is left
    without a session. *)
Theorem connect_requires_running sock cid w c u :
  cid ≠ "" →
  activeSessions w !! sock_id sock = None →
  faults (surroundings w) ContainerFindUnique = None →
  faults (surroundings w) UserFindUnique = None →
  containers w !! cid = Some c →
  users w !! user_id (sock_user sock) = Some u →
  role u = "ADMIN" ∨ ownerId c = user_id (sock_user sock) →
  (dockerId c = None ∨ dockerId c = Some "" →
   ∃ w', connect_refused "Container has no Docker ID" [] sock cid w w')
  ∧ (∀ did, dockerId c = Some did → did ≠ "" → status c ≠ "RUNNING" →
     ∃ w', connect_refused "Container is not running" [] sock cid w w').
Proof.
  intros Hcid Hnone F1 F2 Hc Hu Hauth.
  destruct (start_not_ready (registered sock cid w) (fresh (dom (heap w)))
              (fresh_session sock cid w) c u) as [H1 H2]; try done.
  { apply registered_session. }
  split.
  - intros Hd. destruct (H1 Hd) as (w' & Hr). exists w'. by apply refused_connect.
  - intros did Hd Hdid Hst. destruct (H2 did Hd Hdid Hst) as (w' & Hr).
    exists w'. by apply refused_connect.
Qed.

Lemma connect_requires_running_witness :
  ∃ w', connect_refused "Container is not running" [] Scenario.alice_socket "c1"
          (Scenario.world0 {[ "c1" := Samples.c1_stopped ]} Scenario.no_faults) w'.
Proof.
  apply (proj2 (connect_requires_running Scenario.alice_socket "c1"
                  (Scenario.world0 {[ "c1" := Samples.c1_stopped ]} Scenario.no_faults)
                  Samples.c1_stopped Scenario.alice
                  ltac:(discriminate) eq_refl eq_refl eq_refl
                  ltac:(vm_compute; reflexivity) ltac:(vm_compute; reflexivity)
                  (or_intror eq_refl))
           "e1");
    [reflexivity | discriminate | discriminate].
Defined.

Lemma start_log_failure w this s c u did m :
  heap w !! this = Some s →
  faults (surroundings w) ContainerFindUnique = None →
  faults (surroundings w) UserFindUnique = None →
  faults (surroundings w) EngineExec = None →
  faults (surroundings w) EngineExecStart = None →
  faults (surroundings w) ContainerLogCreate = Some m →
  containers w !! containerId s = Some c →
  users w !! userId s = Some u →
  role u = "ADMIN" ∨ ownerId c = userId s →
  dockerId c = Some did → did ≠ "" →
  status c = "RUNNING" →
  ∃ w', start this w = (Ok tt, w')
    ∧ emitted (socket s) (trace w')
      = emitted (socket s) (trace w)
        ++ [console_connected (containerId s) (now (surroundings w));
            console_error "Failed to start console session" (Some m)]
    ∧ engine_calls (trace w')
      = engine_calls (trace w) ++ [Exec did ["/bin/sh"] true; ExecStart did]
    ∧ activeSessions w' = delete (socket s) (activeSessions w)
    ∧ heap w' = <[this := closed s]> (heap w)
    ∧ containerLogs w' = containerLogs w
    ∧ (faults (surroundings w) StreamDestroy = None →
       streams w' !! fresh (dom (streams w))
       = Some {| written := []; destroyed := true; listener := Some this |}).
Proof.
  intros Hs F1 F2 F3 F4 F5 Hc Hu Hauth Hd Hdid Hst.
  unfold start, self, prisma_container_findUnique, prisma_user_findUnique,
    Manager.execCommand, Manager.logged, engine, assign, stream_on,
    prisma_containerLog_create.
  run. rewrite Hs, F1. simpl. rewrite Hc, F2. simpl. rewrite Hu. simpl.
  assert (bool_decide (role u ≠ "ADMIN") && bool_decide (ownerId c ≠ userId s)
          = false) as ->.
  { destruct Hauth as [Ha|Ha]; rewrite Ha.
    - by rewrite bool_decide_eq_false_2 by (intros ?; done).
    - rewrite (bool_decide_eq_false_2 (_ ≠ userId _)) by (intros ?; done).
      apply andb_false_r. }
  rewrite Hd. destruct did as [|a did]; [done|].
  rewrite Hst. rewrite bool_decide_eq_false_2 by (intros ?; done).
  simpl. rewrite F3. simpl. rewrite F4. simpl. rewrite F5. simpl.
  rewrite !lookup_alter_eq, Hs. simpl.
  set (st := fresh (dom (streams w))).
  match goal with |- context [cleanup this ?w0] =>
    assert (Hs0 : heap w0 !! this = Some (opened st st s))
      by (simpl; by rewrite !lookup_alter_eq, Hs)
  end.
  catch_cleanup this (opened st st s) Hs0.
  rewrite Hemit, Hcalls, Hlog, Hheap, Hreg. simpl.
  rewrite F5, app_nil_r. autorewrite with trace_db.
  split; [by rewrite <- !app_assoc|].
  split; [by rewrite <- !app_assoc|].
  split; [done|].
  split.
  { apply map_eq. intros i. destruct (decide (i = this)) as [->|Hi].
    - by rewrite !lookup_insert_eq.
    - by rewrite !lookup_insert_ne, !lookup_alter_ne by done. }
  split; [done|].
  intros Fd. rewrite (Hdes st) by done.
  simpl. by rewrite lookup_alter_eq, lookup_insert_eq.
Qed.

(** X8: When the datastore rejects the writes to the container log, the
    CONSOLE_CONNECT entry and the CONSOLE_DISCONNECT entry of the
    teardown alike, a console that was already connected is torn down:
    the engine has created and started the exec and the client has been
    told [console:connected], then the client is told that the session
    failed to start, with the datastore's message; the session is closed
    and out of the registry, the log is as it was, and the stream is
    destroyed unless destroying it fails. *)
Theorem log_failure_aborts_console sock cid w c u did m :
  cid ≠ "" →
  activeSessions w !! sock_id sock = None →
  faults (surroundings w) ContainerFindUnique = None →
  faults (surroundings w) UserFindUnique = None →
  faults (surroundings w) EngineExec = None →
  faults (surroundings w) EngineExecStart = None →
  faults (surroundings w) ContainerLogCreate = Some m →
  containers w !! cid = Some c →
  users w !! user_id (sock_user sock) = Some u →
  role u = "ADMIN" ∨ ownerId c = user_id (sock_user sock) →
  dockerId c = Some did → did ≠ "" →
  status c = "RUNNING" →
  ∃ w', on_console_connect sock (Some cid) w = (Ok tt, w')
    ∧ emitted (sock_id sock) (trace w')
      = emitted (sock_id sock) (trace w)
        ++ [console_connected cid (now (surroundings w));
            console_error "Failed to start console session" (Some m)]
    ∧ engine_calls (trace w')
      = engine_calls (trace w) ++ [Exec did ["/bin/sh"] true; ExecStart did]
    ∧ activeSessions w' !! sock_id sock = None
    ∧ heap w' !! fresh (dom (heap w)) = Some (closed (fresh_session sock cid w))
    ∧ containerLogs w' = containerLogs w
    ∧ (faults (surroundings w) StreamDestroy = None →
       streams w' !! fresh (dom (streams w))
       = Some {| written := []; destroyed := true;
                 listener := Some (fresh (dom (heap w))) |}).
Proof.
  intros Hcid Hnone F1 F2 F3 F4 F5 Hc Hu Hauth Hd Hdid Hst.
  destruct (start_log_failure (registered sock cid w) (fresh (dom (heap w)))
              (fresh_session sock cid w) c u did m)
    as (w' & E & Hem & Hen & Hr & Hh & Hl & Hstr); try done.
  { apply registered_session. }
  exists w'. split; [by apply connect_runs_start|].
  split; [done|]. split; [done|].
  split; [rewrite Hr; apply lookup_delete_eq|].
  split; [rewrite Hh; apply lookup_insert_eq|].
  split; done.
Qed.

Lemma log_failure_aborts_console_witness :
  ∃ w', on_console_connect Scenario.alice_socket (Some "c1")
          (Scenario.world0 {[ "c1" := Scenario.c1 ]} Samples.log_fails) = (Ok tt, w')
    ∧ emitted "s1" (trace w')
      = [console_connected "c1" 1000;
         console_error "Failed to start console session" (Some "connection lost")]
    ∧ activeSessions w' !! "s1" = None.
Proof.
  destruct (log_failure_aborts_console Scenario.alice_socket "c1"
              (Scenario.world0 {[ "c1" := Scenario.c1 ]} Samples.log_fails)
              Scenario.c1 Scenario.alice "e1" "connection lost")
    as (w' & E & Hem & _ & Hr & _);
    [discriminate | reflexivity | reflexivity | reflexivity | reflexivity
    | reflexivity | reflexivity | vm_compute; reflexivity
    | vm_compute; reflexivity | right; reflexivity | reflexivity
    | discriminate | reflexivity |].
  exists w'. split; [exact E|]. split; [exact Hem | exact Hr].
Defined.

End SessionFacts.

(** ** What holds after any run of handlers *)

Module InvariantFacts.

Import Eff Console Stated Notions.
Import ConsoleFacts SessionFacts.

(** *** Console sessions *)

Lemma start_shape w this s :
  heap w !! this = Some s →
  ∃ w', start this w = (Ok tt, w')
    ∧ ((heap w' = <[this := closed s]> (heap w)
        ∧ activeSessions w' = delete (socket s) (activeSessions w))
       ∨ (∃ st, heap w' = <[this := opened st st s]> (heap w)
          ∧ activeSessions w' = activeSessions w)).
Proof.
  intros Hs.
  unfold start, self, prisma_container_findUnique, prisma_user_findUnique,
    Manager.execCommand, Manager.logged, engine, assign, stream_on,
    prisma_containerLog_create.
  run. rewrite Hs.
  repeat first
    [ progress (simpl; rewrite ?lookup_alter_eq, ?Hs)
    | match goal with
      | |- context [match faults (surroundings w) ?op with _ => _ end] =>
          destruct (faults (surroundings w) op) eqn:?
      | |- context [match containers w !! ?k with _ => _ end] =>
          destruct (containers w !! k) eqn:?
      | |- context [match users w !! ?k with _ => _ end] =>
          destruct (users w !! k) eqn:?
      | |- context [if bool_decide ?P && bool_decide ?Q then _ else _] =>
          destruct (bool_decide P && bool_decide Q) eqn:?
      | |- context [if bool_decide ?P then _ else _] =>
          destruct (bool_decide P) eqn:?
      | |- context [match dockerId ?c with _ => _ end] =>
          destruct (dockerId c) as [[|??]|] eqn:?
      end ];
  first
    [ match goal with |- context [cleanup this ?w0] =>
        let H0 := fresh in
        assert (H0 : heap w0 !! this = Some s) by exact Hs;
        destruct (cleanup_all w0 this s H0) as (w' & E & Hh & Hr & _);
        exists w'; split; [exact E|]; left; split; [exact Hh | exact Hr]
      end
    | match goal with |- context [cleanup this ?w0] =>
        let H0 := fresh in
        assert (H0 : heap w0 !! this
                     = Some (opened (fresh (dom (streams w)))
                               (fresh (dom (streams w))) s))
          by (simpl; by rewrite !lookup_alter_eq, Hs);
        destruct (cleanup_all w0 this _ H0) as (w' & E & Hh & Hr & _);
        exists w'; split; [exact E|]; left; split;
        [rewrite Hh; simpl; apply map_eq; intros i;
         destruct (decide (i = this)) as [->|Hi];
         [by rewrite !lookup_insert_eq
         |by rewrite !lookup_insert_ne, !lookup_alter_ne by done]
        | exact Hr]
      end
    | eexists; split; [reflexivity|]; right; exists (fresh (dom (streams w)));
      split; [|reflexivity]; simpl; apply map_eq; intros i;
      destruct (decide (i = this)) as [->|Hi];
      [by rewrite !lookup_alter_eq, lookup_insert_eq, Hs
      |by rewrite !lookup_alter_ne, lookup_insert_ne by done] ].
Qed.

Lemma sessions_ok_same w w' :
  heap w' = heap w → activeSessions w' = activeSessions w →
  sessions_ok w → sessions_ok w'.
Proof. intros Hh Hr [H1 H2]. split; intros ?; rewrite ?Hh, ?Hr; eauto. Qed.

(** One session object is replaced by a coherent one of the same
    connection; the registry stays as it is, or loses the entry of that
    connection. *)
Lemma sessions_ok_update w w' this s s' :
  heap w !! this = Some s →
  heap w' = <[this := s']> (heap w) →
  socket s' = socket s → coherent s' →
  activeSessions w' = activeSessions w
  ∨ activeSessions w' = delete (socket s) (activeSessions w) →
  sessions_ok w → sessions_ok w'.
Proof.
  intros Hs Hh Hsock Hco Hr [H1 H2]. split.
  - intros i x. rewrite Hh. destruct (decide (i = this)) as [->|Hi].
    + rewrite lookup_insert_eq. by intros [= <-].
    + rewrite lookup_insert_ne by done. apply H1.
  - intros sid i Hi.
    assert (Hi' : activeSessions w !! sid = Some i).
    { destruct Hr as [Hr|Hr]; rewrite Hr in Hi; [done|].
      by apply lookup_delete_Some in Hi as [_ Hi]. }
    destruct (H2 sid i Hi') as (x & Hx & Hsx). rewrite Hh.
    destruct (decide (i = this)) as [->|Hne].
    + exists s'. rewrite lookup_insert_eq. split; [done|]. congruence.
    + exists x. by rewrite lookup_insert_ne.
Qed.

(** A new session object is registered for its connection. *)
Lemma sessions_ok_registered sock cid w :
  sessions_ok w → sessions_ok (registered sock cid w).
Proof.
  intros [H1 H2]. split; simpl.
  - intros i x. destruct (decide (i = fresh (dom (heap w)))) as [->|Hi].
    + rewrite lookup_insert_eq. intros [= <-]. by right.
    + rewrite lookup_insert_ne by done. apply H1.
  - intros sid i. destruct (decide (sid = sock_id sock)) as [->|Hne].
    + rewrite lookup_insert_eq. intros [= <-]. eexists.
      by rewrite lookup_insert_eq.
    + rewrite lookup_insert_ne by done. intros Hi.
      destruct (H2 sid i Hi) as (x & Hx & Hsx). exists x. split; [|done].
      rewrite lookup_insert_ne; [done|]. intros <-.
      by apply (is_fresh (dom (heap w))), elem_of_dom.
Qed.

Lemma cleanup_ok w this :
  sessions_ok w → sessions_ok (cleanup this w).2.
Proof.
  intros Hok. destruct (heap w !! this) as [s|] eqn:Hs.
  - destruct (cleanup_all w this s Hs) as (w' & E & Hh & Hr & _).
    rewrite E. simpl.
    apply (sessions_ok_update w w' this s (closed s)); try done.
    + apply closed_coherent.
    + by right.
  - unfold cleanup, assign, self. run. simpl. rewrite lookup_alter_eq, Hs. simpl.
    apply (sessions_ok_same w); [|done|done]. simpl.
    apply map_eq. intros i. destruct (decide (i = this)) as [->|Hi].
    + by rewrite lookup_alter_eq, Hs.
    + by rewrite lookup_alter_ne.
Qed.

Lemma connect_ok sock cid w :
  sessions_ok w → sessions_ok (on_console_connect sock cid w).2.
Proof.
  intros Hok.
  destruct cid as [[|a cid]|];
    try (unfold on_console_connect; run; by apply (sessions_ok_same w)).
  destruct (activeSessions w !! sock_id sock) as [old|] eqn:Hold.
  { unfold on_console_connect. run. rewrite Hold. by apply (sessions_ok_same w). }
  destruct (start_shape (registered sock (String a cid) w) (fresh (dom (heap w)))
              (fresh_session sock (String a cid) w)
              (registered_session sock (String a cid) w))
    as (w' & E & Hcase).
  rewrite (connect_runs_start sock (String a cid) w w'); [|done|done|done].
  simpl.
  pose proof (sessions_ok_registered sock (String a cid) w Hok) as Hok1.
  destruct Hcase as [[Hh Hr]|(st & Hh & Hr)].
  - eapply (sessions_ok_update _ w'); [apply registered_session|exact Hh|done| |by right|done].
    apply closed_coherent.
  - eapply (sessions_ok_update _ w'); [apply registered_session|exact Hh|done| |by left|done].
    apply opened_coherent.
Qed.

Lemma sendCommand_ok w this command :
  sessions_ok w → sessions_ok (sendCommand this command w).2.
Proof.
  intros Hok. destruct (heap w !! this) as [s|] eqn:Hs.
  - destruct (isActive s) eqn:Ha; [destruct (stream s) as [st|] eqn:Hst|].
    + destruct (sendCommand_open w this s st command Hs Ha Hst)
        as (w' & E & Hh & Hr & _).
      rewrite E. simpl.
      eapply (sessions_ok_update w w'); [exact Hs|exact Hh|done| |by left|done].
      destruct Hok as [H1 _]. specialize (H1 this s Hs).
      destruct H1 as [H1|H1]; [left | right]; exact H1.
    + unfold sendCommand, self. run. rewrite Hs, Ha, Hst.
      by apply (sessions_ok_same w).
    + unfold sendCommand, self. run. rewrite Hs, Ha.
      by apply (sessions_ok_same w).
  - unfold sendCommand, self. run. by rewrite Hs.
Qed.

Lemma sendInput_same w this input :
  heap (sendInput this input w).2 = heap w
  ∧ activeSessions (sendInput this input w).2 = activeSessions w.
Proof.
  unfold sendInput, self, stream_write. run.
  destruct (heap w !! this) as [s|]; [|done].
  destruct (isActive s); [|done]. destruct (stream s); [|done]. simpl.
  by destruct (faults (surroundings w) StreamWrite).
Qed.

Lemma resize_same w this cols rows :
  heap (resize this cols rows w).2 = heap w
  ∧ activeSessions (resize this cols rows w).2 = activeSessions w.
Proof.
  unfold resize, self, engine. run.
  destruct (heap w !! this) as [s|]; [|done].
  destruct (isActive s); [|done]. destruct (dockerExec s); [|done]. simpl.
  by destruct (faults (surroundings w) EngineResize).
Qed.

Lemma disconnect_ok sock w :
  sessions_ok w → sessions_ok (on_console_disconnect sock w).2.
Proof.
  intros Hok. unfold on_console_disconnect. run.
  destruct (activeSessions w !! sock_id sock) as [this|]; [|exact Hok].
  by apply cleanup_ok.
Qed.

Lemma console_handler_ok e w :
  sessions_ok w → sessions_ok (console_handler e w).2.
Proof.
  intros Hok. destruct e; simpl.
  - by apply connect_ok.
  - unfold on_console_command. run.
    destruct (activeSessions w !! sock_id sock) as [this|].
    + by apply sendCommand_ok.
    + by apply (sessions_ok_same w).
  - unfold on_console_input. run.
    destruct (activeSessions w !! sock_id sock) as [this|]; [|exact Hok].
    destruct (sendInput_same w this input). by apply (sessions_ok_same w).
  - unfold on_console_resize. run.
    destruct (activeSessions w !! sock_id sock) as [this|]; [|exact Hok].
    destruct (resize_same w this cols rows). by apply (sessions_ok_same w).
  - by apply disconnect_ok.
  - unfold on_disconnect. run. apply disconnect_ok. by apply (sessions_ok_same w).
  - unfold stream_data, listening, self. run.
    destruct (streams w !! st) as [o|]; simpl; [|exact Hok].
    destruct (listener o) as [this|]; simpl; [|exact Hok].
    destruct (heap w !! this) as [s|]; simpl; [|exact Hok].
    by apply (sessions_ok_same w).
  - unfold stream_error, listening, self. run.
    destruct (streams w !! st) as [o|]; simpl; [|exact Hok].
    destruct (listener o) as [this|]; simpl; [|exact Hok].
    destruct (heap w !! this) as [s|]; simpl; [|exact Hok]. simpl.
    apply cleanup_ok. by apply (sessions_ok_same w).
  - unfold stream_end, listening, self. run.
    destruct (streams w !! st) as [o|]; simpl; [|exact Hok].
    destruct (listener o) as [this|]; simpl; [|exact Hok].
    destruct (heap w !! this) as [s|]; simpl; [|exact Hok]. simpl.
    apply cleanup_ok. by apply (sessions_ok_same w).
Qed.

(** X9: After any run of console messages and stream events, whichever calls
    fail, no session is half open: every session object is either active
    with a stream and an exec handle, or inactive with neither; and every
    entry of the registry points to a session object of the connection it
    is filed under. *)
Theorem sessions_stay_coherent es w :
  sessions_ok w →
  sessions_ok (after console_handler es w)
  ∧ ∀ this s, heap (after console_handler es w) !! this = Some s →
      (isActive s = true ↔ is_Some (stream s))
      ∧ (isActive s = true ↔ is_Some (dockerExec s)).
Proof.
  intros Hok.
  assert (Hafter : sessions_ok (after console_handler es w)).
  { revert w Hok. induction es as [|e es IH]; intros w Hok; [done|].
    rewrite after_cons. apply IH. by apply console_handler_ok. }
  split; [done|].
  intros this s Hs. destruct Hafter as [H1 _].
  destruct (H1 this s Hs) as [(Ha & Hst & Hex)|(Ha & Hst & Hex)];
    rewrite Ha, ?Hst, ?Hex; split; split; try done;
    intros [? ?]; discriminate.
Qed.

Lemma sessions_stay_coherent_witness :
  sessions_ok
    (after console_handler
       [ConsoleConnect Scenario.alice_socket (Some "c1");
        ConsoleCommand Scenario.alice_socket "ls";
        StreamEnd 0;
        SocketDisconnect Scenario.alice_socket]
       (Scenario.world0 {[ "c1" := Scenario.c1 ]} Scenario.no_faults)).
Proof.
  apply sessions_stay_coherent.
  split; [intros this s H | intros sid this H]; vm_compute in H; discriminate.
Defined.

(** *** Stats subscriptions *)

(** What one firing of a timer does. *)
Lemma tick_shape w t :
  ∃ w', stats_tick t w = (Ok tt, w')
    ∧ timers w' = timers w ∧ statsInterval w' = statsInterval w
    ∧ containers w' = containers w ∧ containerLogs w' = containerLogs w
    ∧ match timers w !! t with
      | None => w' = w
      | Some tm =>
          engine_calls (trace w')
          = engine_calls (trace w) ++ [Stats (t_dockerId tm)]
          ∧ emitted (t_socket tm) (trace w')
            = emitted (t_socket tm) (trace w)
              ++ [match faults (surroundings w) EngineStats,
                        Docker.getContainerStats
                          (sample (surroundings w) (t_dockerId tm)) with
                  | None, Some r =>
                      stats_data (t_containerId tm) r (now (surroundings w))
                  | Some e, _ =>
                      stats_error "Failed to get container stats" (Some e)
                  | None, None =>
                      stats_error "Failed to get container stats"
                        (Some "Cannot read properties of undefined (reading 'total_usage')")
                  end]
      end.
Proof.
  unfold stats_tick, Manager.getContainerStats, Manager.logged, engine.
  run. destruct (timers w !! t) as [tm|]; simpl; [|by eexists].
  destruct (faults (surroundings w) EngineStats) as [e|]; simpl.
  - eexists. split; [reflexivity|]. simpl. by autorewrite with trace_db.
  - destruct (Docker.getContainerStats _) as [r|]; simpl;
      eexists; (split; [reflexivity|]); simpl; by autorewrite with trace_db.
Qed.

(** X10: A firing of a subscription's timer always returns and leaves the
    timers, the subscriptions and the datastore as they are: a fetch that
    fails does not cancel the subscription.  A live timer makes exactly
    one call on the engine, for the engine identifier captured at
    subscription, and sends exactly one message to its connection: the
    statistics, or [stats:error] with the reason when the fetch failed.
    A cleared timer does nothing. *)
Theorem tick_keeps_the_timer w t :
  ∃ w', stats_tick t w = (Ok tt, w')
    ∧ timers w' = timers w ∧ statsInterval w' = statsInterval w
    ∧ containers w' = containers w ∧ containerLogs w' = containerLogs w
    ∧ match timers w !! t with
      | None => w' = w
      | Some tm =>
          engine_calls (trace w')
          = engine_calls (trace w) ++ [Stats (t_dockerId tm)]
          ∧ emitted (t_socket tm) (trace w')
            = emitted (t_socket tm) (trace w)
              ++ [match faults (surroundings w) EngineStats,
                        Docker.getContainerStats
                          (sample (surroundings w) (t_dockerId tm)) with
                  | None, Some r =>
                      stats_data (t_containerId tm) r (now (surroundings w))
                  | Some e, _ =>
                      stats_error "Failed to get container stats" (Some e)
                  | None, None =>
                      stats_error "Failed to get container stats"
                        (Some "Cannot read properties of undefined (reading 'total_usage')")
                  end]
      end.
Proof. exact (tick_shape w t). Qed.

(** What [stats:subscribe] does, whatever the request and the state. *)
Lemma subscribe_shape sock cid interval w :
  ∃ w', on_stats_subscribe sock cid interval w = (Ok tt, w')
    ∧ engine_calls (trace w') = engine_calls (trace w)
    ∧ ((∃ msg err,
          emitted (sock_id sock) (trace w')
          = emitted (sock_id sock) (trace w) ++ [stats_error msg err]
          ∧ timers w' = timers w ∧ statsInterval w' = statsInterval w)
       ∨ (∃ c t tm,
            cid = Some c
            ∧ emitted (sock_id sock) (trace w')
              = emitted (sock_id sock) (trace w)
                ++ [stats_subscribed c (default (of_Z 2000) interval)]
            ∧ statsInterval w' = <[sock_id sock := t]> (statsInterval w)
            ∧ timers w'
              = <[t := tm]>
                  (match statsInterval w !! sock_id sock with
                   | Some old => delete old (timers w)
                   | None => timers w
                   end)
            ∧ timers w' !! t = Some tm
            ∧ (∀ old, statsInterval w !! sock_id sock = Some old → old ≠ t →
                 timers w' !! old = None)
            ∧ t_socket tm = sock_id sock ∧ t_containerId tm = c
            ∧ delay tm = clamp (default (of_Z 2000) interval))).
Proof.
  unfold on_stats_subscribe, prisma_container_findUnique, setInterval, clearInterval.
  run.
  destruct cid as [[|a cid]|]; simpl;
    try (eexists; split; [reflexivity|]; simpl; autorewrite with trace_db;
         split; [done|]; left; by eexists _, _).
  destruct (faults (surroundings w) ContainerFindUnique) as [m|]; simpl.
  { eexists; split; [reflexivity|]; simpl; autorewrite with trace_db.
    split; [done|]. left. by eexists _, _. }
  destruct (containers w !! String a cid) as [c|]; simpl;
    [|eexists; split; [reflexivity|]; simpl; autorewrite with trace_db;
      split; [done|]; left; by eexists _, _].
  destruct (bool_decide (role (sock_user sock) ≠ "ADMIN")
            && bool_decide (ownerId c ≠ user_id (sock_user sock))); simpl;
    [eexists; split; [reflexivity|]; simpl; autorewrite with trace_db;
     split; [done|]; left; by eexists _, _|].
  destruct (dockerId c) as [[|b did]|]; simpl;
    try (eexists; split; [reflexivity|]; simpl; autorewrite with trace_db;
         split; [done|]; left; by eexists _, _).
  destruct (bool_decide (status c ≠ "RUNNING")); simpl;
    [eexists; split; [reflexivity|]; simpl; autorewrite with trace_db;
     split; [done|]; left; by eexists _, _|].
  destruct (statsInterval w !! sock_id sock) as [old|] eqn:Hold; simpl;
    eexists; (split; [reflexivity|]); simpl; autorewrite with trace_db;
    (split; [done|]); right; eexists _, _, _;
    (split; [reflexivity|]); (split; [reflexivity|]); (split; [reflexivity|]);
    (split; [reflexivity|]); (split; [apply lookup_insert_eq|]);
    (split; [|done]).
  - intros old' [= <-] Hne. rewrite lookup_insert_ne by done. apply lookup_delete_eq.
  - intros old' [=].
Qed.

Lemma subscribe_one_timer sock cid interval w :
  one_timer_each w → one_timer_each (on_stats_subscribe sock cid interval w).2.
Proof.
  intros Hinv.
  destruct (subscribe_shape sock cid interval w) as (w' & E & _ & Hcase).
  rewrite E. simpl.
  destruct Hcase as [(msg & err & _ & Ht & Hi)|(c & t & tm & _ & _ & Hi & Ht & _ & _ & Hsock & _)].
  - intros t tm. rewrite Ht, Hi. apply Hinv.
  - intros t' tm'. rewrite Ht, Hi.
    destruct (decide (t' = t)) as [->|Hne].
    + rewrite lookup_insert_eq. intros [= <-]. rewrite Hsock. apply lookup_insert_eq.
    + rewrite lookup_insert_ne by done. intros Hl.
      assert (Hl' : timers w !! t' = Some tm'
                    ∧ statsInterval w !! sock_id sock ≠ Some t').
      { destruct (statsInterval w !! sock_id sock) as [old|]; [|done].
        apply lookup_delete_Some in Hl as [Hn Hl]. split; [done|]. congruence. }
      destruct Hl' as [Hl' Hn]. pose proof (Hinv t' tm' Hl') as Hp.
      rewrite lookup_insert_ne; [done|]. intros Heq. by rewrite <- Heq in Hp.
Qed.

Lemma unsubscribe_shape sock w :
  ∃ w', on_stats_unsubscribe sock w = (Ok tt, w')
    ∧ trace w' = trace w ++ [Emit (sock_id sock) stats_unsubscribed]
    ∧ statsInterval w' = delete (sock_id sock) (statsInterval w)
    ∧ timers w'
      = match statsInterval w !! sock_id sock with
        | Some old => delete old (timers w)
        | None => timers w
        end.
Proof.
  unfold on_stats_unsubscribe, clearInterval. run.
  destruct (statsInterval w !! sock_id sock) as [old|] eqn:Hold; simpl;
    eexists; (split; [reflexivity|]); simpl; repeat split; try done.
  symmetry. by apply delete_id.
Qed.

Lemma unsubscribe_one_timer sock w :
  one_timer_each w → one_timer_each (on_stats_unsubscribe sock w).2.
Proof.
  intros Hinv. destruct (unsubscribe_shape sock w) as (w' & E & _ & Hi & Ht).
  rewrite E. simpl. intros t tm. rewrite Ht, Hi. intros Hl.
  assert (Hl' : timers w !! t = Some tm ∧ statsInterval w !! sock_id sock ≠ Some t).
  { destruct (statsInterval w !! sock_id sock) as [old|]; [|done].
    apply lookup_delete_Some in Hl as [Hn Hl]. split; [done|]. congruence. }
  destruct Hl' as [Hl' Hn]. pose proof (Hinv t tm Hl') as Hp.
  rewrite lookup_delete_ne; [done|]. intros Heq. by rewrite <- Heq in Hp.
Qed.

Lemma stats_handler_one_timer e w :
  one_timer_each w → one_timer_each (stats_handler e w).2.
Proof.
  intros Hinv. destruct e; simpl.
  - by apply subscribe_one_timer.
  - by apply unsubscribe_one_timer.
  - unfold on_stats_disconnect, clearInterval. run.
    destruct (statsInterval w !! sock_id sock) as [old|]; [|exact Hinv].
    simpl. intros t tm. simpl. intros [_ Hl]%lookup_delete_Some. by apply Hinv.
  - destruct (tick_shape w t) as (w' & E & Ht & Hi & _).
    rewrite E. simpl. intros t' tm. rewrite Ht, Hi. apply Hinv.
Qed.

(** X11: A connection has at most one stats timer.  After any run of
    subscriptions, cancellations, disconnections and timer firings,
    every timer is the one its connection currently holds, so two timers
    never deliver to the same connection: subscribing again replaces the
    connection's timer instead of adding one. *)
Theorem one_timer_per_connection es w :
  one_timer_each w →
  one_timer_each (after stats_handler es w)
  ∧ ∀ t1 t2 tm1 tm2,
      timers (after stats_handler es w) !! t1 = Some tm1 →
      timers (after stats_handler es w) !! t2 = Some tm2 →
      t_socket tm1 = t_socket tm2 → t1 = t2.
Proof.
  intros Hinv.
  assert (Hafter : one_timer_each (after stats_handler es w)).
  { revert w Hinv. induction es as [|e es IH]; intros w Hinv; [done|].
    rewrite after_cons. apply IH. by apply stats_handler_one_timer. }
  split; [done|].
  intros t1 t2 tm1 tm2 H1 H2 Hsock.
  pose proof (Hafter t1 tm1 H1) as P1. pose proof (Hafter t2 tm2 H2) as P2.
  rewrite Hsock in P1. congruence.
Qed.

Lemma one_timer_per_connection_witness :
  one_timer_each
    (after stats_handler
       [StatsSubscribe Scenario.alice_socket (Some "c1") None;
        StatsSubscribe Scenario.alice_socket (Some "c1") (Some (of_Z 5000));
        StatsTick 0]
       (Scenario.world0 {[ "c1" := Scenario.c1 ]} Scenario.no_faults)).
Proof.
  apply one_timer_per_connection. intros t tm H. vm_compute in H. discriminate.
Defined.


(** *** What a connection receives once it has cancelled *)

Lemma emitted_snoc_other sid s t m :
  s ≠ sid → emitted sid (t ++ [Emit s m]) = emitted sid t.
Proof.
  intros H. unfold emitted. rewrite omap_app. simpl.
  rewrite bool_decide_eq_false_2 by done. apply app_nil_r.
Qed.

Lemma subscribe_others sock cid interval w sid :
  sock_id sock ≠ sid →
  emitted sid (trace (on_stats_subscribe sock cid interval w).2)
  = emitted sid (trace w).
Proof.
  intros Hne.
  unfold on_stats_subscribe, prisma_container_findUnique, setInterval, clearInterval.
  run.
  destruct cid as [[|a cid]|]; simpl; try by rewrite emitted_snoc_other.
  destruct (faults (surroundings w) ContainerFindUnique) as [m|]; simpl.
  { by rewrite emitted_snoc_other, emitted_snoc_logger. }
  destruct (containers w !! String a cid) as [c|]; simpl;
    [|by rewrite emitted_snoc_other].
  destruct (bool_decide (role (sock_user sock) ≠ "ADMIN")
            && bool_decide (ownerId c ≠ user_id (sock_user sock))); simpl;
    [by rewrite emitted_snoc_other|].
  destruct (dockerId c) as [[|b did]|]; simpl; try by rewrite emitted_snoc_other.
  destruct (bool_decide (status c ≠ "RUNNING")); simpl;
    [by rewrite emitted_snoc_other|].
  destruct (statsInterval w !! sock_id sock) as [old|]; simpl;
    by rewrite emitted_snoc_other.
Qed.

Lemma tick_others w t sid :
  (∀ tm, timers w !! t = Some tm → t_socket tm ≠ sid) →
  emitted sid (trace (stats_tick t w).2) = emitted sid (trace w).
Proof.
  intros Hne.
  unfold stats_tick, Manager.getContainerStats, Manager.logged, engine. run.
  destruct (timers w !! t) as [tm|]; simpl; [|done].
  specialize (Hne tm eq_refl).
  destruct (faults (surroundings w) EngineStats) as [e|]; simpl.
  - rewrite emitted_snoc_other by done. by autorewrite with trace_db.
  - destruct (Docker.getContainerStats _) as [r|]; simpl;
      rewrite emitted_snoc_other by done; by autorewrite with trace_db.
Qed.

(** An event that is not of the connection leaves it without a timer and
    sends it nothing. *)
Lemma stats_handler_silent sid e w :
  silent sid w → ¬ of_connection sid e →
  silent sid (stats_handler e w).2
  ∧ emitted sid (trace (stats_handler e w).2) = emitted sid (trace w).
Proof.
  intros Hs Hne. destruct e as [sock cid interval|sock|sock|t]; simpl in *.
  - split; [|by apply subscribe_others].
    destruct (subscribe_shape sock cid interval w) as (w' & E & _ & Hcase).
    rewrite E. simpl.
    destruct Hcase as [(msg & err & _ & Ht & _)
                      |(c & t & tm & _ & _ & _ & Ht & _ & _ & Hsock & _)].
    + intros t tm. rewrite Ht. apply Hs.
    + intros t' tm'. rewrite Ht.
      destruct (decide (t' = t)) as [->|Hn].
      * rewrite lookup_insert_eq. intros [= <-]. by rewrite Hsock.
      * rewrite lookup_insert_ne by done.
        destruct (statsInterval w !! sock_id sock) as [old|]; [|apply Hs].
        intros [_ Hl]%lookup_delete_Some. by apply (Hs t').
  - destruct (unsubscribe_shape sock w) as (w' & E & Htr & _ & Ht).
    rewrite E. simpl. split.
    + intros t tm. rewrite Ht.
      destruct (statsInterval w !! sock_id sock) as [old|]; [|apply Hs].
      intros [_ Hl]%lookup_delete_Some. by apply (Hs t).
    + rewrite Htr. by apply emitted_snoc_other.
  - unfold on_stats_disconnect, clearInterval. run.
    destruct (statsInterval w !! sock_id sock) as [old|]; [|by split].
    simpl. split; [|done].
    intros t tm. simpl. intros [_ Hl]%lookup_delete_Some. by apply (Hs t).
  - split; [|apply tick_others; intros tm; apply Hs].
    destruct (tick_shape w t) as (w' & E & Ht & _).
    rewrite E. simpl. intros t' tm. rewrite Ht. apply Hs.
Qed.

Lemma silent_after sid es w :
  silent sid w → (∀ e, e ∈ es → ¬ of_connection sid e) →
  silent sid (after stats_handler es w)
  ∧ emitted sid (trace (after stats_handler es w)) = emitted sid (trace w).
Proof.
  revert w. induction es as [|e es IH]; intros w Hs Hes; [done|].
  rewrite after_cons.
  destruct (stats_handler_silent sid e w Hs) as [Hs' He];
    [apply Hes; by left|].
  destruct (IH (stats_handler e w).2 Hs') as [Hs'' He'];
    [intros e' He''; apply Hes; by right|].
  split; [exact Hs''|]. by rewrite He'.
Qed.

(** X13: With the handlers run one at a time, so that no subscription of the
    connection is in flight when the cancellation is handled:
    [stats:unsubscribe] always acknowledges; when every timer is the one
    its connection holds, no timer delivers to the connection afterwards,
    and whatever timers fire and whatever other connections send, the
    connection receives nothing more until it sends a message itself;
    asking again changes nothing but the trace. *)
Theorem unsubscribe_stops_delivery sock w :
  one_timer_each w →
  ∃ w', on_stats_unsubscribe sock w = (Ok tt, w')
    ∧ emitted (sock_id sock) (trace w')
      = emitted (sock_id sock) (trace w) ++ [stats_unsubscribed]
    ∧ engine_calls (trace w') = engine_calls (trace w)
    ∧ statsInterval w' !! sock_id sock = None
    ∧ (∀ t tm, timers w' !! t = Some tm → t_socket tm ≠ sock_id sock)
    ∧ (∀ t tm, timers w' !! t = Some tm → timers w !! t = Some tm)
    ∧ (∀ es, (∀ e, e ∈ es → ¬ of_connection (sock_id sock) e) →
         silent (sock_id sock) (after stats_handler es w')
         ∧ emitted (sock_id sock) (trace (after stats_handler es w'))
           = emitted (sock_id sock) (trace w'))
    ∧ ∃ w'', on_stats_unsubscribe sock w' = (Ok tt, w'')
        ∧ timers w'' = timers w' ∧ statsInterval w'' = statsInterval w'.
Proof.
  intros Hinv. destruct (unsubscribe_shape sock w) as (w' & E & Htr & Hi & Ht).
  exists w'. split; [done|].
  split; [rewrite Htr; by autorewrite with trace_db|].
  split; [rewrite Htr; by autorewrite with trace_db|].
  split; [rewrite Hi; apply lookup_delete_eq|].
  assert (Hsub : ∀ t tm, timers w' !! t = Some tm →
            timers w !! t = Some tm ∧ statsInterval w !! sock_id sock ≠ Some t).
  { intros t tm. rewrite Ht. intros Hl.
    destruct (statsInterval w !! sock_id sock) as [old|]; [|done].
    apply lookup_delete_Some in Hl as [Hn Hl]. split; [done|]. congruence. }
  assert (Hsilent : silent (sock_id sock) w').
  { intros t tm Hl Hsock. destruct (Hsub t tm Hl) as [Hl' Hn].
    apply Hn. rewrite <- Hsock. by apply Hinv. }
  split; [exact Hsilent|].
  split; [intros t tm Hl; by destruct (Hsub t tm Hl)|].
  split; [intros es Hes; by apply silent_after|].
  destruct (unsubscribe_shape sock w') as (w'' & E' & _ & Hi' & Ht').
  exists w''. split; [done|].
  rewrite Ht', Hi', Hi, lookup_delete_eq. split; [done|].
  apply delete_id. apply lookup_delete_eq.
Qed.

Lemma unsubscribe_stops_delivery_witness :
  ∃ w', on_stats_unsubscribe Scenario.alice_socket
          (on_stats_subscribe Scenario.alice_socket (Some "c1") None
             (Scenario.world0 {[ "c1" := Scenario.c1 ]} Scenario.no_faults)).2
        = (Ok tt, w')
    ∧ emitted "s1" (trace (after stats_handler
                             [StatsTick 0;
                              StatsSubscribe Scenario.bob_socket (Some "c1") None;
                              StatsTick 0]
                             w'))
      = emitted "s1" (trace w').
Proof.
  destruct (unsubscribe_stops_delivery Scenario.alice_socket
              (on_stats_subscribe Scenario.alice_socket (Some "c1") None
                 (Scenario.world0 {[ "c1" := Scenario.c1 ]} Scenario.no_faults)).2)
    as (w' & E & _ & _ & _ & _ & _ & H & _).
  - intros t tm Ht. destruct t as [|t].
    + vm_compute in Ht. injection Ht as <-. reflexivity.
    + exfalso. revert Ht. clear.
      change (timers _) with ({[ 0%nat := {| delay := clamp (of_Z 2000);
                t_socket := "s1"; t_containerId := "c1"; t_dockerId := "e1" |} ]}
                              : gmap nat timer).
      by rewrite lookup_singleton_ne.
  - exists w'. split; [exact E|].
    apply H. intros e He.
    apply elem_of_cons in He as [->|He]; [by intros []|].
    apply elem_of_cons in He as [->|He]; [by intros [=]|].
    apply elem_of_cons in He as [->|He]; [by intros []|].
    by apply elem_of_nil in He.
Defined.

End InvariantFacts.

(** ** Resource limits and statistics: bounds *)

Module TranslationFacts.

Import Docker Stated Validation.
Import Binary64Facts DockerFacts.

Lemma ratio_bounds (u l : Q) :
  (0 <= u)%Q → (u <= l)%Q → (0 < l)%Q → (0 <= u / l)%Q ∧ (u / l <= 1)%Q.
Proof.
  intros Hu Hul Hl. split.
  - apply Qle_shift_div_l; [done|]. by rewrite Qmult_0_l.
  - apply Qle_shift_div_r; [done|]. by rewrite Qmult_1_l.
Qed.

(** A ratio between 0 and 1, as a percentage: the quotient and the product
    are each rounded to a double, and rounding crosses neither 0 nor 1
    nor 100. *)
Lemma percent_bounds (u l : Qc) :
  (0 <= u)%Q → (u <= l)%Q → (0 < l)%Q →
  ∃ p : Qc, JsNum.mul (JsNum.div (Num u) (Num l)) (of_Z 100) = Num p
    ∧ (0 <= p)%Q ∧ (p <= inject_Z 100)%Q.
Proof.
  intros Hu Hul Hl. cbn [JsNum.div].
  destruct (decide (l = 0%Qc)) as [->|_]; [by apply Qlt_irrefl in Hl|].
  destruct (ratio_bounds u l Hu Hul Hl) as [H0 H1].
  destruct (double_between 0 1 (u / l)%Qc) as (x & -> & Hx0 & Hx1);
    [done | done | by rewrite this_div | by rewrite this_div |].
  unfold of_Z. cbn [JsNum.mul].
  apply (double_between 0 100); [done | done | |]; rewrite this_mul.
  - apply Qmult_le_0_compat; [exact Hx0 | by vm_compute].
  - change (this (Qc_of_Z 100)) with (inject_Z 100).
    rewrite <- (Qmult_1_l (inject_Z 100)) at 2.
    apply Qmult_le_compat_r; [exact Hx1 | by vm_compute].
Qed.

(** *** The CPU quota of a validated share *)



(** *** Memory settings that pass validation *)

Lemma memory_rule_shape s :
  memory_rule s = true →
  ∃ ds u, s = ds +:+ u ∧ digits ds
    ∧ (u = "" ∨ u = "k" ∨ u = "m" ∨ u = "g" ∨ u = "K" ∨ u = "M" ∨ u = "G").
Proof.
  unfold memory_rule. destruct (span_digits s) as [d r] eqn:E.
  apply span_digits_spec in E as (-> & Hd & _).
  destruct d as [|c d]; [done|].
  destruct r as [|x [|y r]]; intros H; try done.
  - exists (String c d), "". repeat split; [done | done | by left].
  - exists (String c d), (String x ""). repeat split; [done | done |].
    apply bool_decide_eq_true_1 in H.
    destruct H as [->|[->|[->|[->|[->| ->]]]]]; tauto.
Qed.

(** X15: A memory setting, a string of characters below U+0100, that passes
    the validation rule of the create route always matches the pattern
    of the parser, so that the default does not take its place: when its
    digits have a value below 2^53 it is read as that value times 1,
    1024, 1024^2 or 1024^3, a whole number of bytes that is not negative.
    The rule is stricter than the parser: it rejects the unit [b], which
    [parseMemory] reads as bytes. *)
Theorem validated_memory_is_honoured s :
  memory_rule s = true →
  (∃ ds u, s = ds +:+ u ∧ digits ds
     ∧ match_memory (toLowerCase s) = Some (ds, toLowerCase u)
     ∧ (digits_value ds < 2 ^ 53 →
        parseMemory (VStr s)
        = of_Z (digits_value ds * unit_bytes (toLowerCase u)))
     ∧ 0 ≤ digits_value ds * unit_bytes (toLowerCase u)
     ∧ unit_bytes (toLowerCase u) ∈ [1; 1024; 1024 ^ 2; 1024 ^ 3])
  ∧ memory_rule "512b" = false
  ∧ parseMemory (VStr "512b") = of_Z 512.
Proof.
  intros H. split; [|split; [reflexivity | evaluate]].
  destruct (memory_rule_shape s H) as (ds & u & -> & Hds & Hu).
  exists ds, u. split; [done|]. split; [done|].
  assert (Hopt : optional_unit (toLowerCase u)).
  { destruct Hu as [->|[->|[->|[->|[->|[->| ->]]]]]]; simpl; unfold optional_unit; tauto. }
  split.
  { rewrite toLowerCase_app, (toLowerCase_digits ds (proj2 Hds)).
    by apply match_memory_shape. }
  split; [by apply parseMemory_shape|].
  assert (Hv : 0 ≤ digits_value ds)
    by (apply digits_value_nonneg_acc; [done | apply Hds]).
  destruct Hu as [->|[->|[->|[->|[->|[->| ->]]]]]]; simpl;
    (split; [unfold unit_bytes; simpl; lia|]);
    unfold unit_bytes; simpl; set_solver.
Qed.

Lemma validated_memory_is_honoured_witness :
  ∃ ds u, "2G" = ds +:+ u
    ∧ match_memory (toLowerCase "2G") = Some (ds, toLowerCase u).
Proof.
  destruct (proj1 (validated_memory_is_honoured "2G" eq_refl))
    as (ds & u & E & _ & Hm & _).
  exists ds, u. split; [exact E | exact Hm].
Defined.

(** *** Percentages *)

Lemma or_default_pos (q : Qc) d : (0 < q)%Q → or_default (Some (Num q)) d = Num q.
Proof.
  intros Hq. unfold or_default. simpl. rewrite bool_decide_eq_false_2; [done|].
  intros ->. by apply Qlt_irrefl in Hq.
Qed.

Lemma or_default_nonneg (q : Qc) :
  (0 <= q)%Q → ∃ q' : Qc, or_default (Some (Num q)) (of_Z 0) = Num q' ∧ (q' == q)%Q.
Proof.
  intros Hq. unfold or_default. simpl. case_bool_decide as H.
  - subst q. exists (Qc_of_Z 0). split; [done|]. by vm_compute.
  - by exists q.
Qed.

(** X16: When the engine reports a memory use between zero and a positive
    limit, the memory percentage is a number between 0 and 100; when it
    reports a CPU time between zero and the system's, so is the CPU
    percentage. *)
Theorem percentages_within_bounds s r :
  getContainerStats s = Some r →
  (∀ u l : Qc,
     usage (memory_stats s) = Some (Num u) →
     limit (memory_stats s) = Some (Num l) →
     (0 <= u)%Q → (u <= l)%Q → (0 < l)%Q →
     ∃ p : Qc, memoryPercent r = Num p ∧ (0 <= p)%Q ∧ (p <= inject_Z 100)%Q)
  ∧ (∀ cd sd : Qc,
       cpuDelta s = Some (Num cd) → systemDelta s = Num sd →
       (0 <= cd)%Q → (cd <= sd)%Q →
       ∃ p : Qc, cpuPercent r = Num p ∧ (0 <= p)%Q ∧ (p <= inject_Z 100)%Q).
Proof.
  intros (cd0 & Hcd & Hcpu & Hu & Hl & Hmem)%getContainerStats_inv. split.
  - intros u l Eu El H0 Hul Hpos.
    rewrite Hmem, Hu, Hl, Eu, El. rewrite (or_default_pos l) by done.
    destruct (or_default_nonneg u H0) as (u' & -> & Eu').
    cbn [JsNum.gt of_Z]. rewrite bool_decide_eq_true_2 by done.
    apply percent_bounds; [by rewrite Eu' | by rewrite Eu' | done].
  - intros cd sd Ecd Esd H0 Hle.
    rewrite Hcd in Ecd. injection Ecd as ->. rewrite Hcpu, Esd.
    cbn [JsNum.gt of_Z].
    case_bool_decide as Hpos.
    + by apply percent_bounds.
    + exists (Qc_of_Z 0). split; [done|]. split; by vm_compute.
Qed.

Lemma percentages_within_bounds_witness :
  ∃ p : Qc, memoryPercent Scenario.four_cores_report = Num p
    ∧ (0 <= p)%Q ∧ (p <= inject_Z 100)%Q.
Proof.
  assert (H : getContainerStats Scenario.four_cores = Some Scenario.four_cores_report)
    by evaluate.
  apply (proj1 (percentages_within_bounds _ _ H) (Qc_of_Z 50) (Qc_of_Z 200));
    [reflexivity | reflexivity | by vm_compute | by vm_compute | by vm_compute].
Defined.

End TranslationFacts.

(** ** Creating containers: the engine calls of [createContainer] and the
    checks of the create route *)

Module CreateFacts.

Import Eff Routes Notions.
Import ConsoleFacts SessionFacts RoutesFacts.

(** *** [ContainerManager.createContainer] *)

(** The image is pulled before the container is created, and a container
    is created only from an image whose pull succeeded: when the pull
    fails the engine receives no create call.  An error of the engine is
    passed on as it is, and nothing but the trace changes. *)
Lemma image_pulled_before_create name image c w :
  let out := Manager.createContainer name image c w in
  engine_calls (trace out.2)
  = engine_calls (trace w)
    ++ Pull image
       :: match faults (surroundings w) EnginePull with
          | Some _ => []
          | None => [CreateContainer name image (Docker.hostConfig c)]
          end
  ∧ out.1 = match faults (surroundings w) EnginePull,
                  faults (surroundings w) EngineCreate with
            | Some m, _ => Throw (Error m)
            | None, Some m => Throw (Error m)
            | None, None => Ok (engine_id (surroundings w) name)
            end
  ∧ containers out.2 = containers w
  ∧ containerLogs out.2 = containerLogs w
  ∧ surroundings out.2 = surroundings w
  ∧ ∀ sid, emitted sid (trace out.2) = emitted sid (trace w).
Proof.
  unfold Manager.createContainer, Manager.pullImage, Manager.logged, engine.
  run. simpl.
  destruct (faults (surroundings w) EnginePull) as [m1|]; simpl;
    [|destruct (faults (surroundings w) EngineCreate) as [m2|]; simpl];
    autorewrite with trace_db; repeat split; try done;
    try (by rewrite <- app_assoc);
    intros; by autorewrite with trace_db.
Qed.

(** *** The try block of the create route *)

(** What the try block does, whichever calls fail: [i] is the identifier
    of the provisional record. *)
Lemma create_handler_try_shape req w :
  let i := fresh (dom (containers w)) in
  let row := provisional_row req w i in
  let eid := engine_id (surroundings w) ("panel_" +:+ i) in
  ∃ out w',
    create_handler_try req w = (out, w')
    ∧ surroundings w' = surroundings w
    ∧ containerLogs w' = containerLogs w
    ∧ match faults (surroundings w) ContainerCreate with
      | Some m =>
          out = Throw (Error m) ∧ containers w' = containers w
          ∧ engine_calls (trace w') = engine_calls (trace w)
      | None =>
          match faults (surroundings w) EnginePull with
          | Some m =>
              out = Throw (Error m)
              ∧ containers w' = <[i := row]> (containers w)
              ∧ engine_calls (trace w')
                = engine_calls (trace w) ++ [Pull (body_image req)]
          | None =>
              engine_calls (trace w')
              = engine_calls (trace w)
                ++ [Pull (body_image req);
                    CreateContainer ("panel_" +:+ i) (body_image req)
                      (requested_limits req)]
              ∧ match faults (surroundings w) EngineCreate with
                | Some m =>
                    out = Throw (Error m)
                    ∧ containers w' = <[i := row]> (containers w)
                | None =>
                    match faults (surroundings w) ContainerUpdate with
                    | Some m =>
                        out = Throw (Error m)
                        ∧ containers w' = <[i := row]> (containers w)
                    | None =>
                        out = Ok (Success 201 "Container created successfully"
                                    (with_dockerId eid row))
                        ∧ containers w'
                          = <[i := with_dockerId eid row]> (containers w)
                    end
                end
          end
      end.
Proof.
  intros i row eid.
  unfold create_handler_try, prisma_container_create, prisma_container_update,
    Manager.createContainer, Manager.pullImage, Manager.logged, engine, resolve.
  generalize function_scope. intros sc.
  run. simpl.
  destruct (faults (surroundings w) ContainerCreate) as [m0|]; simpl.
  { eexists _, _. split; [reflexivity|]. by repeat split. }
  match goal with |- context [BoundRow ?c] =>
    destruct (container_in_try_scope (BoundRow c) sc) as [-> ->]
  end.
  simpl.
  destruct (faults (surroundings w) EnginePull) as [m1|]; simpl.
  { eexists _, _. split; [reflexivity|]. simpl. autorewrite with trace_db.
    by repeat split. }
  destruct (faults (surroundings w) EngineCreate) as [m2|]; simpl.
  { eexists _, _. split; [reflexivity|]. simpl. autorewrite with trace_db.
    rewrite <- app_assoc. by repeat split. }
  destruct (faults (surroundings w) ContainerUpdate) as [m3|]; simpl.
  { eexists _, _. split; [reflexivity|]. simpl. autorewrite with trace_db.
    rewrite <- app_assoc. by repeat split. }
  rewrite lookup_insert_eq. simpl.
  eexists _, _. split; [reflexivity|]. simpl. autorewrite with trace_db.
  rewrite <- app_assoc. repeat split; try done.
  by rewrite insert_insert_eq.
Qed.

(** *** The checks of the create route *)

Lemma bind_Ok {A B} (m : M A) (k : A → M B) w a w1 :
  m w = (Ok a, w1) → (m ≫= k) w = k a w1.
Proof. intros H. unfold mbind, M_bind, bind. by rewrite H. Qed.

Lemma bind_Throw {A B} (m : M A) (k : A → M B) w e w1 :
  m w = (Throw e, w1) → (m ≫= k) w = (Throw e, w1).
Proof. intros H. unfold mbind, M_bind, bind. by rewrite H. Qed.

Lemma gt_of_Z a b : JsNum.gt (of_Z a) (of_Z b) = bool_decide (b < a).
Proof.
  unfold of_Z. simpl. apply bool_decide_ext. unfold Qclt. simpl.
  by rewrite <- Zlt_Qlt.
Qed.

Lemma truthy_of_Z a : a ≠ 0 → truthy (of_Z a) = true.
Proof.
  intros Ha. unfold of_Z, truthy. rewrite bool_decide_eq_false_2; [done|].
  intros H. apply (f_equal this) in H. simpl in H. injection H as H. lia.
Qed.

Lemma limit_value v limit :
  member_limit v limit →
  (if truthy (parseInt (default "undefined" v))
   then parseInt (default "undefined" v) else of_Z 1) = of_Z limit.
Proof.
  intros [[-> ->]|(ds & -> & Hds & -> & Hpos)]; [reflexivity|].
  simpl. rewrite (DockerFacts.parseInt_digits ds Hds).
  rewrite truthy_of_Z; [done | lia].
Qed.

Lemma checkContainerLimit_admin uid w :
  checkContainerLimit uid "ADMIN" w = (Ok true, w).
Proof. reflexivity. Qed.

Lemma checkContainerLimit_member uid urole w limit :
  urole ≠ "ADMIN" →
  faults (surroundings w) ContainerCount = None →
  member_limit (MAX_CONTAINERS_PER_MEMBER (env (surroundings w))) limit →
  checkContainerLimit uid urole w
  = (Ok (bool_decide (Z.of_nat (owned uid (containers w)) < limit)), w).
Proof.
  intros Hr Hf Hl. unfold checkContainerLimit, prisma_container_count.
  rewrite bool_decide_eq_false_2 by done. run. rewrite Hf. simpl.
  by rewrite (limit_value _ _ Hl), gt_of_Z.
Qed.

Lemma isImageAllowed_spec image allowed :
  existsb (λ a, bool_decide (a = image)
                || bool_decide (before_colon a = before_colon image)) allowed
  = true ↔ image_allowed image allowed.
Proof.
  rewrite existsb_exists. unfold image_allowed. split.
  - intros (a & Hin & H). exists a. split; [by apply list_elem_of_In|].
    apply orb_true_iff in H as [H|H]; apply bool_decide_eq_true_1 in H; tauto.
  - intros (a & Hin & H). exists a. split; [by apply list_elem_of_In|].
    apply orb_true_iff. destruct H as [H|H]; [left|right];
      by apply bool_decide_eq_true_2.
Qed.

Lemma getAllowedImages_shape w :
  ∃ allowed w0, getAllowedImages w = (Ok allowed, w0)
    ∧ allowed ≠ []
    ∧ containers w0 = containers w ∧ containerLogs w0 = containerLogs w
    ∧ surroundings w0 = surroundings w
    ∧ engine_calls (trace w0) = engine_calls (trace w)
    ∧ (∀ sid, emitted sid (trace w0) = emitted sid (trace w)).
Proof.
  unfold getAllowedImages. run.
  destruct (ALLOWED_IMAGES (env (surroundings w))) as [| |[|a l]];
    eexists _, _; (split; [reflexivity|]); simpl; autorewrite with trace_db;
    repeat split; try done; intros; by autorewrite with trace_db.
Qed.

Lemma findFirst_None name' uid (cs : gmap string container_row) :
  head (filter (λ r, name r = name' ∧ ownerId r = uid) (map_to_list cs).*2) = None →
  ∀ k r, cs !! k = Some r → ¬ (name r = name' ∧ ownerId r = uid).
Proof.
  intros H k r Hk Hp.
  assert (Hin : r ∈ filter (λ r, name r = name' ∧ ownerId r = uid) (map_to_list cs).*2).
  { apply list_elem_of_filter. split; [done|].
    apply list_elem_of_fmap. exists (k, r). split; [done|].
    by apply elem_of_map_to_list. }
  destruct (filter _ _); [by apply elem_of_nil in Hin | done].
Qed.

Lemma checkContainerLimit_shape uid urole w :
  (∃ e, checkContainerLimit uid urole w = (Throw e, w) ∧ ctor e = "Error")
  ∨ (∃ can, checkContainerLimit uid urole w = (Ok can, w)
       ∧ (can = false → urole ≠ "ADMIN")).
Proof.
  unfold checkContainerLimit, prisma_container_count.
  case_bool_decide as Hr; [right; by exists true|].
  run. destruct (faults (surroundings w) ContainerCount) as [m|]; simpl.
  - left. by eexists.
  - right. by eexists.
Qed.

Lemma findFirst_shape name' uid w :
  (∃ e, prisma_container_findFirst name' uid w = (Throw e, w) ∧ ctor e = "Error")
  ∨ (∃ r k, prisma_container_findFirst name' uid w = (Ok (Some r), w)
       ∧ containers w !! k = Some r ∧ name r = name' ∧ ownerId r = uid)
  ∨ (prisma_container_findFirst name' uid w = (Ok None, w)
     ∧ ∀ k r, containers w !! k = Some r → ¬ (name r = name' ∧ ownerId r = uid)).
Proof.
  unfold prisma_container_findFirst. run.
  destruct (faults (surroundings w) ContainerFindFirst) as [m|]; simpl.
  { left. by eexists. }
  right.
  destruct (head (filter (λ r, name r = name' ∧ ownerId r = uid)
                    (map_to_list (containers w)).*2)) as [r|] eqn:Hh.
  - left. apply head_Some_elem_of in Hh.
    apply list_elem_of_filter in Hh as [[Hn Ho] Hin].
    apply list_elem_of_fmap in Hin as ([k r'] & -> & Hin).
    apply elem_of_map_to_list in Hin. by exists r', k.
  - right. split; [done|]. by apply findFirst_None.
Qed.

Lemma provisional_row_env req w w0 i :
  surroundings w0 = surroundings w →
  provisional_row req w0 i = provisional_row req w i.
Proof. intros H. unfold provisional_row. by rewrite H. Qed.

(** Every way the create route can end. *)
Lemma create_handler_outcome req w :
  let uid := user_id (req_user req) in
  let i := fresh (dom (containers w)) in
  let row := provisional_row req w i in
  ∃ out w', create_handler req w = (out, w')
    ∧ containerLogs w' = containerLogs w
    ∧ surroundings w' = surroundings w
    ∧ ((∃ e, out = Throw e
          ∧ containers w' = containers w
          ∧ engine_calls (trace w') = engine_calls (trace w)
          ∧ (ctor e = "Error"
             ∨ (e = ValidationError "Validation failed"
                ∧ validation_errors req ≠ [])
             ∨ (e = ConflictError limit_reached
                ∧ role (req_user req) ≠ "ADMIN")
             ∨ (∃ allowed w0,
                  getAllowedImages w = (Ok allowed, w0)
                  ∧ e = ValidationError
                        ("Image " +:+ body_image req
                         +:+ " is not allowed. Allowed images: "
                         +:+ String.concat ", " allowed)
                  ∧ ¬ image_allowed (body_image req) allowed
                  ∧ role (req_user req) ≠ "ADMIN")
             ∨ (e = ConflictError "Container with this name already exists"
                ∧ ∃ k r, containers w !! k = Some r
                    ∧ name r = body_name req ∧ ownerId r = uid)))
       ∨ (validation_errors req = []
          ∧ faults (surroundings w) ContainerCreate = None
          ∧ (∀ k r, containers w !! k = Some r →
               ¬ (name r = body_name req ∧ ownerId r = uid))
          ∧ ((∃ e, out = Throw e ∧ ctor e = "Error"
                ∧ containers w' = <[i := row]> (containers w))
             ∨ (out = Ok (Success 201 "Container created successfully"
                            (with_dockerId
                               (engine_id (surroundings w) ("panel_" +:+ i)) row))
                ∧ containers w'
                  = <[i := with_dockerId
                             (engine_id (surroundings w) ("panel_" +:+ i)) row]>
                      (containers w)
                ∧ engine_calls (trace w')
                  = engine_calls (trace w)
                    ++ [Pull (body_image req);
                        CreateContainer ("panel_" +:+ i) (body_image req)
                          (requested_limits req)])))).
Proof.
  intros uid i row. unfold create_handler.
  destruct (decide (validation_errors req = [])) as [Hv|Hv];
    [rewrite (bool_decide_eq_true_2 _ Hv) | rewrite (bool_decide_eq_false_2 _ Hv)].
  2: { eexists _, _. split; [reflexivity|]. split; [done|]. split; [done|].
       left. eexists. split; [done|]. split; [done|]. split; [done|].
       right. by left. }
  rewrite (bind_Ok _ _ w tt w eq_refl).
  destruct (checkContainerLimit_shape uid (role (req_user req)) w)
    as [(e & Hcan & He)|(can & Hcan & Hrole)].
  { rewrite (bind_Throw _ _ _ _ _ Hcan). eexists _, _. split; [reflexivity|].
    split; [done|]. split; [done|]. left. eexists. split; [done|].
    split; [done|]. split; [done|]. by left. }
  rewrite (bind_Ok _ _ _ _ _ Hcan).
  destruct can; simpl.
  2: { eexists _, _. split; [reflexivity|]. split; [done|]. split; [done|].
       left. eexists. split; [done|]. split; [done|]. split; [done|].
       right. right. left. split; [done|]. by apply Hrole. }
  destruct (getAllowedImages_shape w)
    as (allowed & w0 & Hal & _ & Hc0 & Hl0 & Hs0 & He0 & Hm0).
  rewrite (bind_Ok _ _ _ _ _ Hal).
  assert (Hpast :
    ∃ out w', (prisma_container_findFirst (body_name req) (user_id (req_user req))
               ≫= λ existingContainer : option container_row,
                    match existingContainer with
                    | Some _ =>
                        throw (ConflictError "Container with this name already exists")
                    | None => try_catch (create_handler_try req) create_handler_catch
                    end) w0 = (out, w')
      ∧ containerLogs w' = containerLogs w
      ∧ surroundings w' = surroundings w
      ∧ ((∃ e, out = Throw e
            ∧ containers w' = containers w
            ∧ engine_calls (trace w') = engine_calls (trace w)
            ∧ (ctor e = "Error"
               ∨ (e = ConflictError "Container with this name already exists"
                  ∧ ∃ k r, containers w !! k = Some r
                      ∧ name r = body_name req ∧ ownerId r = uid)))
         ∨ (faults (surroundings w) ContainerCreate = None
            ∧ (∀ k r, containers w !! k = Some r →
                 ¬ (name r = body_name req ∧ ownerId r = uid))
            ∧ ((∃ e, out = Throw e ∧ ctor e = "Error"
                  ∧ containers w' = <[i := row]> (containers w))
               ∨ (out = Ok (Success 201 "Container created successfully"
                              (with_dockerId
                                 (engine_id (surroundings w) ("panel_" +:+ i)) row))
                  ∧ containers w'
                    = <[i := with_dockerId
                               (engine_id (surroundings w) ("panel_" +:+ i)) row]>
                        (containers w)
                  ∧ engine_calls (trace w')
                    = engine_calls (trace w)
                      ++ [Pull (body_image req);
                          CreateContainer ("panel_" +:+ i) (body_image req)
                            (requested_limits req)]))))).
  { destruct (findFirst_shape (body_name req) uid w0)
      as [(e & Hf & He)|[(r & k & Hf & Hk & Hn & Ho)|[Hf Hnone]]].
    - rewrite (bind_Throw _ _ _ _ _ Hf). eexists _, _. split; [reflexivity|].
      split; [done|]. split; [done|]. left. eexists. split; [done|].
      split; [done|]. split; [done|]. by left.
    - rewrite (bind_Ok _ _ _ _ _ Hf). eexists _, _. split; [reflexivity|].
      split; [done|]. split; [done|]. left. eexists. split; [done|].
      split; [done|]. split; [done|]. right. split; [done|].
      exists k, r. by rewrite <- Hc0.
    - rewrite (bind_Ok _ _ _ _ _ Hf).
      destruct (create_handler_try_shape req w0) as (out1 & w1 & E & Hs1 & Hl1 & Hcase).
      unfold try_catch. rewrite E.
      rewrite Hs0, Hc0, He0 in Hcase.
      rewrite (provisional_row_env req w w0) in Hcase by done.
      fold i row in Hcase.
      destruct (faults (surroundings w) ContainerCreate) as [m0|] eqn:F0.
      { destruct Hcase as (-> & Hc1 & He1). rewrite create_handler_catch_effect.
        eexists _, _. split; [reflexivity|]. simpl. autorewrite with trace_db.
        split; [congruence|]. split; [congruence|]. left. eexists.
        split; [done|]. split; [done|]. split; [done|]. by left. }
      assert (Hfree : ∀ k r, containers w !! k = Some r →
                ¬ (name r = body_name req ∧ ownerId r = uid))
        by (intros k r; rewrite <- Hc0; apply Hnone).
      destruct (faults (surroundings w) EnginePull) as [m1|] eqn:F1.
      { destruct Hcase as (-> & Hc1 & He1). rewrite create_handler_catch_effect.
        eexists _, _. split; [reflexivity|]. simpl.
        split; [congruence|]. split; [congruence|]. right.
        split; [done|]. split; [done|]. left. by eexists. }
      destruct Hcase as (He1 & Hcase).
      destruct (faults (surroundings w) EngineCreate) as [m2|] eqn:F2.
      { destruct Hcase as (-> & Hc1). rewrite create_handler_catch_effect.
        eexists _, _. split; [reflexivity|]. simpl.
        split; [congruence|]. split; [congruence|]. right.
        split; [done|]. split; [done|]. left. by eexists. }
      destruct (faults (surroundings w) ContainerUpdate) as [m3|] eqn:F3.
      { destruct Hcase as (-> & Hc1). rewrite create_handler_catch_effect.
        eexists _, _. split; [reflexivity|]. simpl.
        split; [congruence|]. split; [congruence|]. right.
        split; [done|]. split; [done|]. left. by eexists. }
      destruct Hcase as (-> & Hc1).
      eexists _, _. split; [reflexivity|].
      split; [congruence|]. split; [congruence|]. right.
      split; [done|]. split; [done|]. right. by repeat split. }
  destruct (decide (role (req_user req) = "ADMIN")) as [Hr|Hr];
    [rewrite (bool_decide_eq_false_2 (_ ≠ _)) by (intros ?; done)
    |rewrite (bool_decide_eq_true_2 (_ ≠ _)) by done].
  - rewrite andb_false_r.
    destruct Hpast as (out & w' & E & Hl & Hs & Hcase).
    exists out, w'. split; [done|]. split; [done|]. split; [done|].
    destruct Hcase as [(e & -> & Hc & He & Hk)|(F0 & Hfree & Hcase)].
    + left. exists e. split; [done|]. split; [done|]. split; [done|].
      destruct Hk as [Hk|Hk]; [by left | by do 4 right].
    + right. done.
  - rewrite andb_true_r.
    destruct (existsb _ allowed) eqn:Hex; simpl.
    + destruct Hpast as (out & w' & E & Hl & Hs & Hcase).
      exists out, w'. split; [done|]. split; [done|]. split; [done|].
      destruct Hcase as [(e & -> & Hc & He & Hk)|(F0 & Hfree & Hcase)].
      * left. exists e. split; [done|]. split; [done|]. split; [done|].
        destruct Hk as [Hk|Hk]; [by left | by do 4 right].
      * right. done.
    + eexists _, _. split; [reflexivity|]. split; [done|]. split; [done|].
      left. eexists. split; [done|]. split; [done|]. split; [done|].
      right. right. right. left. exists allowed, w0. split; [done|].
      split; [done|].
      split; [|done]. intros Hin. apply isImageAllowed_spec in Hin. congruence.
Qed.


Lemma owned_insert uid i r (cs : gmap string container_row) :
  ownerId r = uid → (1 ≤ owned uid (<[i := r]> cs))%nat.
Proof.
  intros Ho. unfold owned.
  assert (H : filter (λ kv, ownerId kv.2 = uid) (<[i := r]> cs) !! i = Some r).
  { apply map_lookup_filter_Some. split; [apply lookup_insert_eq | done]. }
  destruct (decide (size (filter (λ kv, ownerId kv.2 = uid) (<[i := r]> cs)) = 0%nat))
    as [Hz|Hz]; [|lia].
  apply map_size_empty_iff in Hz. rewrite Hz in H. by rewrite lookup_empty in H.
Qed.

(** A member at the limit is refused before anything is written. *)
Lemma quota_refusal req w limit :
  validation_errors req = [] →
  role (req_user req) ≠ "ADMIN" →
  faults (surroundings w) ContainerCount = None →
  member_limit (MAX_CONTAINERS_PER_MEMBER (env (surroundings w))) limit →
  limit ≤ Z.of_nat (owned (user_id (req_user req)) (containers w)) →
  create_handler req w = (Throw (ConflictError limit_reached), w).
Proof.
  intros Hv Hr Hf Hl Hle. unfold create_handler.
  rewrite (bool_decide_eq_true_2 _ Hv).
  rewrite (bind_Ok _ _ w tt w eq_refl).
  rewrite (bind_Ok _ _ _ _ _ (checkContainerLimit_member _ _ w limit Hr Hf Hl)).
  rewrite bool_decide_eq_false_2 by lia. reflexivity.
Qed.

(** X17: The quota of members.  A member who already owns as many containers
    as the limit allows (1 when MAX_CONTAINERS_PER_MEMBER is not set, its
    value when it is a positive whole number) is refused with a conflict
    error before anything is read or written besides the count; the
    message says 1 whatever the limit is.  Every record of the user
    counts, whatever its status. *)
Theorem member_quota_is_enforced req w limit :
  validation_errors req = [] →
  role (req_user req) ≠ "ADMIN" →
  faults (surroundings w) ContainerCount = None →
  member_limit (MAX_CONTAINERS_PER_MEMBER (env (surroundings w))) limit →
  limit ≤ Z.of_nat (owned (user_id (req_user req)) (containers w)) →
  create_handler req w = (Throw (ConflictError limit_reached), w).
Proof. exact (quota_refusal req w limit). Qed.

Lemma member_quota_is_enforced_witness :
  create_handler Scenario.create_web
    (Scenario.world0 {[ "c2" := Samples.provisional ]} Scenario.no_faults)
  = (Throw (ConflictError limit_reached),
     Scenario.world0 {[ "c2" := Samples.provisional ]} Scenario.no_faults).
Proof.
  apply (member_quota_is_enforced Scenario.create_web _ 1);
    [reflexivity | discriminate | reflexivity | by left | by vm_compute].
Defined.

(** X18: Whenever the create route answers with a validation error or a
    conflict error, it has written nothing and has not called the engine:
    the container table, the log and the engine are as they were. *)
Theorem refusals_write_nothing req w e w' :
  create_handler req w = (Throw e, w') →
  ctor e = "ValidationError" ∨ ctor e = "ConflictError" →
  containers w' = containers w
  ∧ engine_calls (trace w') = engine_calls (trace w)
  ∧ containerLogs w' = containerLogs w.
Proof.
  intros E Hctor.
  destruct (create_handler_outcome req w) as (out & w1 & E1 & Hl & Hs & Hcase).
  rewrite E in E1. injection E1 as <- <-.
  destruct Hcase as [(e' & [= <-] & Hc & He & _)|(_ & _ & _ & Hcase)]; [done|].
  destruct Hcase as [(e' & [= <-] & He & _)|(Habs & _)]; [|done].
  rewrite He in Hctor. destruct Hctor; discriminate.
Qed.

Lemma refusals_write_nothing_witness :
  ∃ w', create_handler Scenario.create_web
          (Scenario.world0 {[ "c2" := Samples.provisional ]} Scenario.no_faults)
        = (Throw (ConflictError limit_reached), w')
    ∧ containers w' = {[ "c2" := Samples.provisional ]}.
Proof.
  assert (E : create_handler Scenario.create_web
                (Scenario.world0 {[ "c2" := Samples.provisional ]} Scenario.no_faults)
              = (Throw (ConflictError limit_reached),
                 Scenario.world0 {[ "c2" := Samples.provisional ]} Scenario.no_faults))
    by (vm_compute; reflexivity).
  eexists. split; [exact E|].
  exact (proj1 (refusals_write_nothing _ _ _ _ E (or_intror eq_refl))).
Defined.

(** X19: The allow-list of images, for members, when ALLOWED_IMAGES is unset,
    is not valid JSON or holds a JSON array of strings.  The list is then
    never empty.  An image that is neither on the list nor names the
    repository of an image on the list is refused with a validation error
    that quotes the list, and nothing is written.  Tags are not compared:
    an image that names the repository of a listed image passes the rule
    whatever its tag, so that no validation error is raised for it. *)
Theorem image_rule_ignores_tags req w limit :
  validation_errors req = [] →
  role (req_user req) ≠ "ADMIN" →
  faults (surroundings w) ContainerCount = None →
  member_limit (MAX_CONTAINERS_PER_MEMBER (env (surroundings w))) limit →
  Z.of_nat (owned (user_id (req_user req)) (containers w)) < limit →
  ∃ allowed w0, getAllowedImages w = (Ok allowed, w0) ∧ allowed ≠ []
    ∧ (¬ image_allowed (body_image req) allowed →
       create_handler req w
       = (Throw (ValidationError
                   ("Image " +:+ body_image req
                    +:+ " is not allowed. Allowed images: "
                    +:+ String.concat ", " allowed)), w0)
       ∧ containers w0 = containers w
       ∧ engine_calls (trace w0) = engine_calls (trace w))
    ∧ (∀ a, a ∈ allowed → before_colon a = before_colon (body_image req) →
       ∀ e w', create_handler req w = (Throw e, w') →
         ctor e ≠ "ValidationError").
Proof.
  intros Hv Hr Hf Hl Hlt.
  destruct (getAllowedImages_shape w)
    as (allowed & w0 & Hal & Hne & Hc0 & Hl0 & Hs0 & He0 & Hm0).
  exists allowed, w0. split; [done|]. split; [done|]. split.
  - intros Hnot. split; [|done].
    unfold create_handler. rewrite (bool_decide_eq_true_2 _ Hv).
    rewrite (bind_Ok _ _ w tt w eq_refl).
    rewrite (bind_Ok _ _ _ _ _ (checkContainerLimit_member _ _ w limit Hr Hf Hl)).
    rewrite bool_decide_eq_true_2 by done. simpl.
    rewrite (bind_Ok _ _ _ _ _ Hal).
    destruct (existsb _ allowed) eqn:Hex.
    { by apply isImageAllowed_spec in Hex. }
    simpl. by rewrite bool_decide_eq_true_2.
  - intros a Hin Hrepo e w' E Hctor.
    destruct (create_handler_outcome req w) as (out & w1 & E1 & _ & _ & Hcase).
    rewrite E in E1. injection E1 as <- <-.
    destruct Hcase as [(e' & [= <-] & _ & _ & Hk)|(_ & _ & _ & Hcase)].
    + destruct Hk as [Hk|[[-> Hk]|[[-> Hk]|[(al & w2 & Hal' & -> & Hk & _)|[-> Hk]]]]];
        try (rewrite Hk in Hctor; discriminate); try done; try discriminate.
      rewrite Hal in Hal'. injection Hal' as <- <-.
      apply Hk. exists a. split; [done | by right].
    + destruct Hcase as [(e' & [= <-] & He & _)|(Habs & _)]; [|done].
      rewrite He in Hctor. discriminate.
Qed.

Lemma image_rule_ignores_tags_witness :
  ∃ allowed w0,
    getAllowedImages (Scenario.world0 ∅ Scenario.no_faults) = (Ok allowed, w0)
    ∧ "node:18-alpine" ∈ allowed.
Proof.
  destruct (image_rule_ignores_tags Scenario.create_web
              (Scenario.world0 ∅ Scenario.no_faults) 1)
    as (allowed & w0 & E & _);
    [reflexivity | discriminate | reflexivity | by left | by vm_compute |].
  exists allowed, w0. split; [exact E|].
  vm_compute in E. injection E as <- _. set_solver.
Defined.



(** X21: The create route keeps the names of one owner's containers distinct
    and never touches a record that exists.  With requests handled one at
    a time, whatever the request and whichever calls fail, every record
    that was in the table is still there unchanged, and if no owner had
    two containers of one name before, none has afterwards. *)
Theorem create_keeps_names_unique req w :
  names_unique (containers w) →
  names_unique (containers (create_handler req w).2)
  ∧ ∀ k r, containers w !! k = Some r →
      containers (create_handler req w).2 !! k = Some r.
Proof.
  intros Huniq.
  destruct (create_handler_outcome req w) as (out & w' & E & _ & _ & Hcase).
  rewrite E. simpl.
  assert (Hfresh : containers w !! fresh (dom (containers w)) = None)
    by apply not_elem_of_dom, is_fresh.
  assert (Hins : ∀ row,
            name row = body_name req → ownerId row = user_id (req_user req) →
            (∀ k r, containers w !! k = Some r →
               ¬ (name r = body_name req ∧ ownerId r = user_id (req_user req))) →
            containers w' = <[fresh (dom (containers w)) := row]> (containers w) →
            names_unique (containers w')
            ∧ ∀ k r, containers w !! k = Some r → containers w' !! k = Some r).
  { intros row Hn Ho Hfree ->. split.
    - intros a b r1 r2 Ha Hb Hown Hname.
      destruct (decide (a = fresh (dom (containers w)))) as [->|Hna];
        destruct (decide (b = fresh (dom (containers w)))) as [->|Hnb]; [done| | |].
      + rewrite lookup_insert_eq in Ha. injection Ha as <-.
        rewrite lookup_insert_ne in Hb by done.
        destruct (Hfree b r2 Hb). split; congruence.
      + rewrite lookup_insert_eq in Hb. injection Hb as <-.
        rewrite lookup_insert_ne in Ha by done.
        destruct (Hfree a r1 Ha). split; congruence.
      + rewrite lookup_insert_ne in Ha, Hb by done. by apply (Huniq a b r1 r2).
    - intros k r Hk. rewrite lookup_insert_ne; [done|]. intros <-. congruence. }
  destruct Hcase as [(e & _ & -> & _)|(_ & _ & Hfree & Hcase)]; [done|].
  destruct Hcase as [(e & _ & _ & Hc)|(_ & Hc & _)];
    (eapply Hins; last exact Hc; [reflexivity | reflexivity | exact Hfree]).
Qed.

Lemma create_keeps_names_unique_witness :
  names_unique
    (containers (create_handler Scenario.create_web
                   (Scenario.world0 ∅ Scenario.engine_create_fails)).2).
Proof.
  apply create_keeps_names_unique.
  intros i j r1 r2 H.
  change (containers (Scenario.world0 ∅ Scenario.engine_create_fails))
    with (∅ : gmap string container_row) in H.
  by rewrite lookup_empty in H.
Defined.

(** X22: A create that failed after its provisional record was written counts
    against the quota: the record stays in the table, so that with the
    default limit of one container every later create request of the
    same member is refused with 'Container limit reached', until the
    record is deleted. *)
Theorem failed_create_uses_up_quota req w e w' req' :
  create_handler req w = (Throw e, w') →
  containers w' ≠ containers w →
  role (req_user req) ≠ "ADMIN" →
  MAX_CONTAINERS_PER_MEMBER (env (surroundings w)) = None →
  faults (surroundings w) ContainerCount = None →
  req_user req' = req_user req →
  validation_errors req' = [] →
  create_handler req' w' = (Throw (ConflictError limit_reached), w').
Proof.
  intros E Hne Hr Hmax Hf Huser Hv.
  destruct (create_handler_outcome req w) as (out & w1 & E1 & _ & Hs & Hcase).
  rewrite E in E1. injection E1 as <- <-.
  destruct Hcase as [(e' & _ & Hc & _)|(_ & _ & _ & Hcase)]; [done|].
  destruct Hcase as [(e' & _ & _ & Hc)|(Habs & _)]; [|done].
  apply (quota_refusal req' w' 1); rewrite ?Huser, ?Hs; try done.
  - left. by rewrite Hmax.
  - rewrite Hc. pose proof (owned_insert (user_id (req_user req))
                              (fresh (dom (containers w)))
                              (provisional_row req w (fresh (dom (containers w))))
                              (containers w) eq_refl). lia.
Qed.

Lemma failed_create_uses_up_quota_witness :
  create_handler Scenario.create_web
    (create_handler Scenario.create_web
       (Scenario.world0 ∅ Scenario.engine_create_fails)).2
  = (Throw (ConflictError limit_reached),
     (create_handler Scenario.create_web
        (Scenario.world0 ∅ Scenario.engine_create_fails)).2).
Proof.
  apply (failed_create_uses_up_quota Scenario.create_web
           (Scenario.world0 ∅ Scenario.engine_create_fails)
           (Error "no such image") _ Scenario.create_web).
  - vm_compute. reflexivity.
  - intros H. apply (f_equal (λ m, m !! "0")) in H. vm_compute in H. discriminate.
  - discriminate.
  - reflexivity.
  - reflexivity.
  - reflexivity.
  - reflexivity.
Defined.

(** X23: The configured defaults reach the record but not the engine.  When a
    request names no memory limit and DEFAULT_CONTAINER_MEMORY is set,
    the provisional record carries the configured default, while the
    engine is asked for 512 MiB, the limit that '512m' translates to. *)
Theorem configured_default_reaches_record_only req w d :
  resources_memory req = None →
  DEFAULT_CONTAINER_MEMORY (env (surroundings w)) = Some d → d ≠ "" →
  faults (surroundings w) ContainerCreate = None →
  faults (surroundings w) EnginePull = None →
  let i := fresh (dom (containers w)) in
  ∃ out w' r hc,
    create_handler_try req w = (out, w')
    ∧ containers w' !! i = Some r ∧ res_memory r = VStr d
    ∧ CreateContainer ("panel_" +:+ i) (body_image req) hc
      ∈ engine_calls (trace w')
    ∧ Docker.Memory hc = of_Z (512 * 1024 * 1024).
Proof.
  intros Hm Hd Hne F0 F1 i.
  destruct (create_handler_try_shape req w) as (out & w' & E & _ & _ & Hcase).
  rewrite F0, F1 in Hcase. destruct Hcase as (Hcalls & Hcase).
  assert (Hrow : res_memory (provisional_row req w i) = VStr d).
  { unfold provisional_row. simpl. rewrite Hm, Hd. simpl.
    rewrite bool_decide_eq_false_2 by done. reflexivity. }
  assert (Hr : ∃ r, containers w' !! i = Some r ∧ res_memory r = VStr d).
  { destruct (faults (surroundings w) EngineCreate);
      [|destruct (faults (surroundings w) ContainerUpdate)];
      destruct Hcase as (_ & ->); eexists;
      (split; [apply lookup_insert_eq|]); done. }
  destruct Hr as (r & Hr & Hmem).
  exists out, w', r, (requested_limits req).
  split; [done|]. split; [done|]. split; [done|]. split.
  - rewrite Hcalls. set_solver.
  - unfold requested_limits, Docker.hostConfig. simpl. rewrite Hm. simpl.
    evaluate.
Qed.

Lemma configured_default_reaches_record_only_witness :
  ∃ out w' r hc,
    create_handler_try Scenario.create_web Samples.configured = (out, w')
    ∧ containers w' !! "0" = Some r ∧ res_memory r = VStr "1g"
    ∧ CreateContainer "panel_0" "node:18-alpine" hc ∈ engine_calls (trace w')
    ∧ Docker.Memory hc = of_Z (512 * 1024 * 1024).
Proof.
  exact (configured_default_reaches_record_only Scenario.create_web
           Samples.configured "1g" eq_refl eq_refl ltac:(discriminate)
           eq_refl eq_refl).
Defined.

End CreateFacts.

(** ** The middleware and the routes on one container *)

Module HttpFacts.

Import Eff Notions Auth Http.
Import ConsoleFacts SessionFacts CreateFacts.

(** *** [requireContainerOwnership] *)

(** X24: The ownership middleware never throws: it hands the request on or
    answers it.  An administrator is handed on without the datastore
    being read.  For any other user the answer follows the record as it
    is when the request is handled: 404 when there is none, 403 (and a
    security log entry) when it belongs to someone else, and the request
    is handed on when the user is the owner; when the lookup fails the
    answer is 500.  The middleware writes nothing to the container table
    or the log and calls no engine. *)
Theorem ownership_middleware_decides cid user w :
  ∃ o w', requireContainerOwnership cid user w = (Ok o, w')
    ∧ containers w' = containers w ∧ containerLogs w' = containerLogs w
    ∧ engine_calls (trace w') = engine_calls (trace w)
    ∧ (o = Respond 403 "Access denied to this container" →
       Logger "security" "Unauthorized container access attempt" ∈ trace w')
    ∧ (role user = "ADMIN" → o = Next ∧ w' = w)
    ∧ (role user ≠ "ADMIN" →
       o = match faults (surroundings w) ContainerFindUnique with
           | Some _ => Respond 500 "Authorization error"
           | None =>
               match containers w !! cid with
               | None => Respond 404 "Container not found"
               | Some c =>
                   if bool_decide (ownerId c = user_id user) then Next
                   else Respond 403 "Access denied to this container"
               end
           end)
    ∧ (o = Next ↔
       role user = "ADMIN"
       ∨ (faults (surroundings w) ContainerFindUnique = None
          ∧ ∃ c, containers w !! cid = Some c ∧ ownerId c = user_id user)).
Proof.
  unfold requireContainerOwnership, prisma_container_findUnique. run.
  destruct (decide (role user = "ADMIN")) as [Hr|Hr].
  { rewrite bool_decide_eq_true_2 by done. eexists _, _.
    split; [reflexivity|]. split_and!; try done. split; [by left|done]. }
  rewrite bool_decide_eq_false_2 by done. simpl.
  destruct (faults (surroundings w) ContainerFindUnique) as [m|]; simpl.
  { eexists _, _. split; [reflexivity|]. simpl. autorewrite with trace_db.
    split_and!; try done. split; [done|]. by intros [?|[? _]]. }
  destruct (containers w !! cid) as [c|] eqn:Hc; simpl.
  - destruct (decide (ownerId c = user_id user)) as [Ho|Ho].
    + rewrite (bool_decide_eq_false_2 (_ ≠ _)) by (intros ?; done).
      rewrite bool_decide_eq_true_2 by done.
      eexists _, _. split; [reflexivity|]. split_and!; try done.
      split; [intros _|done]. right. split; [done|]. by exists c.
    + rewrite (bool_decide_eq_true_2 (_ ≠ _)) by done.
      rewrite bool_decide_eq_false_2 by done.
      eexists _, _. split; [reflexivity|]. simpl. autorewrite with trace_db.
      split_and!; try done.
      * intros _. apply elem_of_app. right. apply list_elem_of_singleton. done.
      * split; [done|]. intros [?|(_ & c' & [= <-] & ?)]; done.
  - eexists _, _. split; [reflexivity|]. split_and!; try done.
    split; [done|]. intros [?|(_ & c' & ? & ?)]; done.
Qed.

(** *** GET /api/containers/:id/stats *)

(** X25: The statistics route.  A container without a record is answered
    with a not-found error and one without an engine identifier with a
    validation error; in both cases the engine is not called.  Otherwise
    the engine is asked for the statistics of the record's engine
    identifier, whatever the status of the container, and the answer
    carries what [getContainerStats] computes from the sample.  The route
    writes nothing. *)
Theorem stats_route_reads_engine id w :
  faults (surroundings w) ContainerFindUnique = None →
  match containers w !! id with
  | None => stats_handler id w = (Throw (NotFoundError "Container not found"), w)
  | Some c =>
      match dockerId c with
      | None | Some EmptyString =>
          stats_handler id w
          = (Throw (Routes.ValidationError "Container has no Docker ID"), w)
      | Some did =>
          ∃ out w', stats_handler id w = (out, w')
            ∧ engine_calls (trace w') = engine_calls (trace w) ++ [Stats did]
            ∧ containers w' = containers w
            ∧ containerLogs w' = containerLogs w
            ∧ (faults (surroundings w) EngineStats = None →
               ∀ r, Docker.getContainerStats (sample (surroundings w) did) = Some r →
                 out = Ok (Sent 200 "Container stats retrieved successfully"
                             (Some r)))
            ∧ (∀ m, faults (surroundings w) EngineStats = Some m →
                 out = Throw (Error m))
      end
  end.
Proof.
  intros Hf. unfold stats_handler, prisma_container_findUnique,
    Manager.getContainerStats, Manager.logged, engine.
  run. rewrite Hf. simpl.
  destruct (containers w !! id) as [c|]; simpl; [|done].
  destruct (dockerId c) as [[|a did]|]; simpl; try done.
  destruct (faults (surroundings w) EngineStats) as [m|]; simpl.
  - eexists _, _. split; [reflexivity|]. simpl. autorewrite with trace_db.
    repeat split; try done. by intros m' [= <-].
  - destruct (Docker.getContainerStats _) as [r|]; simpl;
      eexists _, _; (split; [reflexivity|]); simpl; autorewrite with trace_db;
      repeat split; try done; by intros ? r' [= <-].
Qed.

Lemma stats_route_reads_engine_witness :
  ∃ out w', stats_handler "c1"
              (Scenario.world0 {[ "c1" := Samples.c1_stopped ]} Scenario.no_faults)
            = (out, w')
    ∧ engine_calls (trace w') = [Stats "e1"]
    ∧ out = Ok (Sent 200 "Container stats retrieved successfully"
                  (Some Scenario.four_cores_report)).
Proof.
  pose proof (stats_route_reads_engine "c1"
                (Scenario.world0 {[ "c1" := Samples.c1_stopped ]} Scenario.no_faults)
                eq_refl) as H.
  change (containers _ !! "c1") with (Some Samples.c1_stopped) in H.
  simpl in H. destruct H as (out & w' & E & Hc & _ & _ & Hok & _).
  exists out, w'. split; [exact E|]. split; [exact Hc|].
  apply Hok; [reflexivity | evaluate].
Defined.

(** *** PUT /api/containers/:id *)

Lemma findFirst_other_shape n uid i w :
  (∃ e, prisma_container_findFirst_other n uid i w = (Throw e, w)
        ∧ faults (surroundings w) ContainerFindFirst = Some (message e))
  ∨ (faults (surroundings w) ContainerFindFirst = None
     ∧ ((∃ r, prisma_container_findFirst_other n uid i w = (Ok (Some r), w))
        ∨ (prisma_container_findFirst_other n uid i w = (Ok None, w)
           ∧ ∀ k r, containers w !! k = Some r → k ≠ i →
               ¬ (name r = n ∧ ownerId r = uid)))
     ∧ ((∃ k r, containers w !! k = Some r ∧ k ≠ i ∧ name r = n ∧ ownerId r = uid) →
        ∃ r, prisma_container_findFirst_other n uid i w = (Ok (Some r), w))).
Proof.
  unfold prisma_container_findFirst_other. run.
  destruct (faults (surroundings w) ContainerFindFirst) as [m|]; simpl.
  { left. by eexists. }
  right. split; [done|].
  set (P := λ kv : string * container_row,
              name kv.2 = n ∧ ownerId kv.2 = uid ∧ kv.1 ≠ i).
  destruct (filter P (map_to_list (containers w))) as [|kv l] eqn:Hfil; simpl.
  - assert (Hfree : ∀ k r, containers w !! k = Some r → k ≠ i →
              ¬ (name r = n ∧ ownerId r = uid)).
    { intros k r Hk Hne [Hn Ho].
      assert (Hin : (k, r) ∈ filter P (map_to_list (containers w))).
      { apply list_elem_of_filter. split; [done|]. by apply elem_of_map_to_list. }
      rewrite Hfil in Hin. by apply elem_of_nil in Hin. }
    split; [right; by split|].
    intros (k & r & Hk & Hne & Hn & Ho). by destruct (Hfree k r Hk Hne).
  - split; [left; by eexists|]. intros _. by eexists.
Qed.

Lemma update_shape i f w :
  (∃ m, faults (surroundings w) ContainerUpdate = Some m
        ∧ Routes.prisma_container_update i f w = (Throw (Error m), w))
  ∨ (faults (surroundings w) ContainerUpdate = None
     ∧ match containers w !! i with
       | None =>
           Routes.prisma_container_update i f w
           = (Throw (Error "Record to update not found."), w)
       | Some r =>
           Routes.prisma_container_update i f w
           = (Ok (f r), with_containers <[i := f r]> w)
       end).
Proof.
  unfold Routes.prisma_container_update. run.
  destruct (faults (surroundings w) ContainerUpdate) as [m|]; simpl.
  - left. by eexists.
  - right. split; [done|]. by destruct (containers w !! i).
Qed.

(** X26: Renaming a container.  When the requester owns the container and
    requests are handled one at a time, the route keeps the names of the
    owner's containers distinct: a name that another container of the
    requester carries is refused with a conflict error, when the lookup
    succeeds, and nothing changes; otherwise at most the name of this
    one record changes.  Every other record stays as it is. *)
Theorem rename_keeps_names_unique id n user w r :
  containers w !! id = Some r →
  ownerId r = user_id user →
  n ≠ "" →
  names_unique (containers w) →
  let out := update_handler [] id (Some n) user w in
  names_unique (containers out.2)
  ∧ (∀ k, k ≠ id → containers out.2 !! k = containers w !! k)
  ∧ (containers out.2 !! id = Some r
     ∨ containers out.2 !! id = Some (set_name n r)
       ∧ out.1 = Ok (Sent 200 "Container updated successfully"
                       (Some (set_name n r))))
  ∧ ((∃ k x, containers w !! k = Some x ∧ k ≠ id
             ∧ name x = n ∧ ownerId x = user_id user) →
     faults (surroundings w) ContainerFindFirst = None →
     out = (Throw (Routes.ConflictError "Container with this name already exists"),
            w)).
Proof.
  intros Hr Ho Hn Huniq out. subst out. unfold update_handler.
  rewrite bool_decide_eq_true_2 by done.
  rewrite (bind_Ok _ _ w tt w eq_refl).
  destruct n as [|a n]; [done|].
  destruct (findFirst_other_shape (String a n) (user_id user) id w)
    as [(e & E & Hf)|(Hf & Hcase & Htaken)].
  { rewrite (bind_Throw _ _ w e w).
    2: { by rewrite (bind_Throw _ _ _ _ _ E). }
    simpl. repeat split; try done; [by left|].
    intros _ Hf'. rewrite Hf' in Hf. discriminate. }
  destruct Hcase as [(x & E)|(E & Hfree)].
  { rewrite (bind_Throw _ _ w
               (Routes.ConflictError "Container with this name already exists") w).
    2: { by rewrite (bind_Ok _ _ _ _ _ E). }
    simpl. repeat split; try done. by left. }
  rewrite (bind_Ok _ _ w tt w).
  2: { by rewrite (bind_Ok _ _ _ _ _ E). }
  assert (Hnot : ¬ (∃ k x, containers w !! k = Some x ∧ k ≠ id
                      ∧ name x = String a n ∧ ownerId x = user_id user)).
  { intros (k & x & Hk & Hne & Hx). by destruct (Hfree k x Hk Hne). }
  destruct (update_shape id (λ r0, set_name (String a n) r0) w)
    as [(m & Hu & E')|(Hu & E')].
  { rewrite (bind_Throw _ _ _ _ _ E'). simpl. repeat split; try done. by left. }
  rewrite Hr in E'. rewrite (bind_Ok _ _ _ _ _ E'). simpl.
  split; [|split; [|split; [|done]]].
  - intros i j r1 r2 Hi Hj Hown Hname.
    destruct (decide (i = id)) as [->|Hni]; destruct (decide (j = id)) as [->|Hnj];
      [done| | |].
    + rewrite lookup_insert_eq in Hi. injection Hi as <-.
      rewrite lookup_insert_ne in Hj by done. simpl in *.
      destruct (Hfree j r2 Hj); [done|]. split; congruence.
    + rewrite lookup_insert_eq in Hj. injection Hj as <-.
      rewrite lookup_insert_ne in Hi by done. simpl in *.
      destruct (Hfree i r1 Hi); [done|]. split; congruence.
    + rewrite lookup_insert_ne in Hi, Hj by done. by apply (Huniq i j r1 r2).
  - intros k Hk. by rewrite lookup_insert_ne.
  - right. by rewrite lookup_insert_eq.
Qed.

Lemma rename_keeps_names_unique_witness :
  names_unique
    (containers (update_handler [] "c1" (Some "api") Scenario.alice
                   (Scenario.world0 {[ "c1" := Scenario.c1 ]} Scenario.no_faults)).2).
Proof.
  assert (H1 : containers (Scenario.world0 {[ "c1" := Scenario.c1 ]} Scenario.no_faults)
               !! "c1" = Some Scenario.c1) by (vm_compute; reflexivity).
  apply (rename_keeps_names_unique "c1" "api" Scenario.alice
           (Scenario.world0 {[ "c1" := Scenario.c1 ]} Scenario.no_faults)
           Scenario.c1 H1 eq_refl ltac:(discriminate)).
  intros i j r1 r2 Hi Hj _ _.
  change (containers _) with ({[ "c1" := Scenario.c1 ]} : gmap string container_row)
    in Hi, Hj.
  apply lookup_singleton_Some in Hi as [<- _].
  by apply lookup_singleton_Some in Hj as [<- _].
Defined.

End HttpFacts.

(** ** Starting, stopping, restarting and deleting a container *)

Module LifecycleFacts.

Import Eff Notions Http Lifecycle.
Import ConsoleFacts.

(** Unfolds the plumbing of a route so that it runs on a symbolic server. *)
Ltac run_route :=
  repeat (cbn [mbind mret H_bind H_ret M_bind M_ret bind ret throw try_catch gets
               modify fst snd state issued refuses];
          unfold mbind, mret, H_bind, H_ret, raise, attempt, lift, call,
                 M_bind, M_ret, bind, ret, throw, try_catch, gets, modify,
                 record, emit, logger, external, Date_now).

Ltac unfold_routes :=
  unfold handler, start_handler, stop_handler, restart_handler, delete_handler,
    find_with_dockerId, startContainer, stopContainer, restartContainer,
    removeContainer, prisma_container_findUnique, prisma_containerLog_create,
    Routes.prisma_container_update, Routes.prisma_container_delete.

(** An action on a container that has no record is answered with a
    not-found error, and one on a container whose record has no engine
    identifier with a validation error.  In both cases the engine is not
    called and nothing is written. *)
Lemma action_needs_engine_id a id s :
  faults (surroundings (state s)) ContainerFindUnique = None →
  match containers (state s) !! id ≫= dockerId with
  | Some (String _ _) => True
  | _ =>
      ∃ s', handler a id s
            = (Throw (match containers (state s) !! id with
                      | None => NotFoundError "Container not found"
                      | Some _ =>
                          Routes.ValidationError "Container has no Docker ID"
                      end), s')
        ∧ state s' = state s ∧ issued s' = issued s
  end.
Proof.
  intros Hf.
  destruct (containers (state s) !! id) as [c|] eqn:Hc; simpl;
    [destruct (dockerId c) as [[|x did]|] eqn:Hd; [| done |]|];
    destruct a; unfold_routes; run_route; rewrite Hf; simpl; rewrite Hc; simpl;
    rewrite ?Hd; simpl; eexists; (split; [reflexivity|]); simpl;
    split; try done; by destruct (state s).
Qed.

(** X27: An action that the engine accepts, when the datastore accepts the two
    writes: the engine received exactly the one call of the action, on the
    record's engine identifier (stop and restart with the timeout of the
    request, 10 seconds when it has none); the record's status is RUNNING
    after a start or a restart and STOPPED after a stop, whatever it was;
    the log gains one entry, with exit code 0; no other record changes;
    the answer is 200. *)
Theorem action_updates_status a id s c did :
  faults (surroundings (state s)) ContainerFindUnique = None →
  faults (surroundings (state s)) ContainerUpdate = None →
  faults (surroundings (state s)) ContainerLogCreate = None →
  containers (state s) !! id = Some c →
  dockerId c = Some did → did ≠ "" →
  refuses s (action_call a did) = None →
  ∃ s', handler a id s = (Ok (Sent 200 (action_message a) None), s')
    ∧ issued s' = issued s ++ [action_call a did]
    ∧ containers (state s')
      = <[id := set_status (action_status a) c]> (containers (state s))
    ∧ containerLogs (state s') = containerLogs (state s) ++ [action_entry a id]
    ∧ exitCode (action_entry a id) = Some 0.
Proof.
  intros F1 F2 F3 Hc Hd Hdid Hacc. destruct did as [|x did]; [done|].
  destruct a; simpl in Hacc; unfold_routes; run_route;
    rewrite F1; simpl; rewrite Hc; simpl; rewrite Hd; simpl;
    rewrite Hacc; simpl; rewrite F2; simpl; rewrite Hc; simpl;
    rewrite F3; simpl; eexists; (split; [reflexivity|]); by simpl.
Qed.

Lemma action_updates_status_witness :
  ∃ s', stop_handler "c1" None
          (Samples.server0 {[ "c1" := Scenario.c1 ]} Samples.engine_accepts)
        = (Ok (Sent 200 "Container stopped successfully" None), s')
    ∧ issued s' = [Stop "e1" 10]
    ∧ status <$> containers (state s') !! "c1" = Some "STOPPED".
Proof.
  assert (H1 : containers (state (Samples.server0 {[ "c1" := Scenario.c1 ]}
                                    Samples.engine_accepts)) !! "c1"
               = Some Scenario.c1) by (vm_compute; reflexivity).
  destruct (action_updates_status (DoStop None) "c1"
              (Samples.server0 {[ "c1" := Scenario.c1 ]} Samples.engine_accepts)
              Scenario.c1 "e1" eq_refl eq_refl eq_refl H1 eq_refl
              ltac:(discriminate) eq_refl)
    as (s' & E & Hi & Hc & _).
  exists s'. split; [exact E|]. split; [exact Hi|].
  rewrite Hc. by rewrite lookup_insert_eq.
Defined.

(** X28: What an action that fails leaves behind; in each case the engine
    received the one call of the action and the log gains no entry.  When
    the engine refuses the call, its error is passed on and nothing is
    written.  When the engine accepts the call and the datastore then
    rejects the status update, the error of the datastore is passed on:
    the engine has acted, but the record still shows the old status.
    When the update succeeds and the datastore then rejects the log
    entry, that error is passed on as well: the request fails although
    the engine has acted and the record shows the new status. *)
Theorem failed_action_effects a id s c did m :
  faults (surroundings (state s)) ContainerFindUnique = None →
  containers (state s) !! id = Some c →
  dockerId c = Some did → did ≠ "" →
  (refuses s (action_call a did) = Some m
   ∨ (refuses s (action_call a did) = None
      ∧ faults (surroundings (state s)) ContainerUpdate = Some m) →
   ∃ s', handler a id s = (Throw (Error m), s')
     ∧ issued s' = issued s ++ [action_call a did]
     ∧ containers (state s') = containers (state s)
     ∧ containerLogs (state s') = containerLogs (state s))
  ∧ (refuses s (action_call a did) = None →
     faults (surroundings (state s)) ContainerUpdate = None →
     faults (surroundings (state s)) ContainerLogCreate = Some m →
     ∃ s', handler a id s = (Throw (Error m), s')
       ∧ issued s' = issued s ++ [action_call a did]
       ∧ containers (state s')
         = <[id := set_status (action_status a) c]> (containers (state s))
       ∧ containerLogs (state s') = containerLogs (state s)).
Proof.
  intros F1 Hc Hd Hdid. destruct did as [|x did]; [done|]. split.
  - intros Hm.
    destruct Hm as [Hm|[Hm F2]];
      destruct a; simpl in Hm; unfold_routes; run_route;
      rewrite F1; simpl; rewrite Hc; simpl; rewrite Hd; simpl;
      rewrite Hm; simpl; rewrite ?F2; simpl;
      eexists; (split; [reflexivity|]); by simpl.
  - intros Hacc F2 F3.
    destruct a; simpl in Hacc; unfold_routes; run_route;
      rewrite F1; simpl; rewrite Hc; simpl; rewrite Hd; simpl;
      rewrite Hacc; simpl; rewrite F2; simpl; rewrite Hc; simpl;
      rewrite F3; simpl; eexists; (split; [reflexivity|]); by simpl.
Qed.

Lemma failed_action_effects_witness :
  (∃ s', start_handler "c1"
           (Samples.server0 {[ "c1" := Samples.c1_stopped ]} Samples.engine_refuses)
         = (Throw (Error "no such container"), s')
     ∧ status <$> containers (state s') !! "c1" = Some "STOPPED")
  ∧ (∃ s', start_handler "c1"
             (Samples.server_with Samples.log_fails
                {[ "c1" := Samples.c1_stopped ]} Samples.engine_accepts)
           = (Throw (Error "connection lost"), s')
       ∧ issued s' = [Start "e1"]
       ∧ status <$> containers (state s') !! "c1" = Some "RUNNING"
       ∧ containerLogs (state s') = []).
Proof.
  split.
  - assert (H1 : containers (state (Samples.server0 {[ "c1" := Samples.c1_stopped ]}
                                      Samples.engine_refuses)) !! "c1"
                 = Some Samples.c1_stopped) by (vm_compute; reflexivity).
    destruct (proj1 (failed_action_effects DoStart "c1"
                (Samples.server0 {[ "c1" := Samples.c1_stopped ]} Samples.engine_refuses)
                Samples.c1_stopped "e1" "no such container" eq_refl H1 eq_refl
                ltac:(discriminate)) (or_introl eq_refl))
      as (s' & E & _ & Hc & _).
    exists s'. split; [exact E|]. rewrite Hc, H1. reflexivity.
  - assert (H1 : containers (state (Samples.server_with Samples.log_fails
                                      {[ "c1" := Samples.c1_stopped ]}
                                      Samples.engine_accepts)) !! "c1"
                 = Some Samples.c1_stopped) by (vm_compute; reflexivity).
    destruct (proj2 (failed_action_effects DoStart "c1"
                (Samples.server_with Samples.log_fails
                   {[ "c1" := Samples.c1_stopped ]} Samples.engine_accepts)
                Samples.c1_stopped "e1" "connection lost" eq_refl H1 eq_refl
                ltac:(discriminate)) eq_refl eq_refl eq_refl)
      as (s' & E & Hi & Hc & Hl).
    exists s'. split; [exact E|]. split; [exact Hi|].
    split; [rewrite Hc; by rewrite lookup_insert_eq | exact Hl].
Defined.



End LifecycleFacts.

(** ** The per-user rate limiter *)

Module LimiterFacts.

Import Auth.

Lemma filter_after_filter (lo0 lo : Z) (l : list Z) :
  lo0 ≤ lo →
  filter (λ x, lo < x) (filter (λ x, lo0 < x) l) = filter (λ x, lo < x) l.
Proof.
  intros Hlo. induction l as [|x l IH]; [done|].
  rewrite !filter_cons. destruct (decide (lo0 < x)) as [H0|H0].
  - rewrite filter_cons. destruct (decide (lo < x)); by rewrite IH.
  - rewrite IH. destruct (decide (lo < x)); [lia | done].
Qed.

Lemma filter_length_impl (P Q : Z → Prop) `{∀ x, Decision (P x)}
    `{∀ x, Decision (Q x)} (l : list Z) :
  (∀ x, x ∈ l → P x → Q x) →
  (length (filter P l) ≤ length (filter Q l))%nat.
Proof.
  induction l as [|x l IH]; intros Himp; [done|].
  rewrite !filter_cons.
  assert (IH' : (length (filter P l) ≤ length (filter Q l))%nat).
  { apply IH. intros y Hy. apply Himp. by right. }
  destruct (decide (P x)) as [HP|HP].
  - rewrite decide_True by (apply Himp; [left | done]). simpl. lia.
  - destruct (decide (Q x)); simpl; lia.
Qed.

(** One request: what the limiter answers and what it holds afterwards. *)
Lemma limiter_step maxRequests windowMs key now requests :
  let cur := filter (λ x, now - windowMs < x) (recorded key requests) in
  let out := userRateLimit maxRequests windowMs key now requests in
  (∀ k, k ≠ key → recorded k out.2 = recorded k requests)
  ∧ (if bool_decide (maxRequests ≤ Z.of_nat (length cur))
     then out.1 = Respond 429 "Too many requests" ∧ recorded key out.2 = cur
     else out.1 = Next ∧ recorded key out.2 = cur ++ [now]).
Proof.
  intros cur out. subst cur out. unfold userRateLimit, recorded.
  destruct (requests !! key) as [l|] eqn:Hl; simpl.
  - rewrite lookup_insert_eq. simpl. case_bool_decide; simpl.
    + split; [|by rewrite lookup_insert_eq].
      intros k Hk. by rewrite lookup_insert_ne.
    + split; [|by rewrite lookup_insert_eq].
      intros k Hk. by rewrite !lookup_insert_ne.
  - rewrite Hl. simpl. case_bool_decide; simpl.
    + split; [done|]. by rewrite Hl.
    + split; [|by rewrite lookup_insert_eq].
      intros k Hk. by rewrite lookup_insert_ne.
Qed.

Lemma accounts_later maxRequests windowMs key requests requests' h t0 now :
  t0 ≤ now →
  recorded key requests' = recorded key requests
  ∨ recorded key requests'
    = filter (λ x, now - windowMs < x) (recorded key requests) →
  accounts maxRequests windowMs key requests h t0 →
  accounts maxRequests windowMs key requests' h now.
Proof.
  intros Hle Hrec (H1 & H2 & H3). split; [|split; [|done]].
  - intros x Hx. specialize (H1 x Hx). lia.
  - assert (E : filter (λ x, now - windowMs < x) (recorded key requests)
                = filter (λ x, now - windowMs < x) h).
    { rewrite <- (filter_after_filter (t0 - windowMs) (now - windowMs)) by lia.
      rewrite H2. apply filter_after_filter. lia. }
    destruct Hrec as [-> | ->]; [done|].
    rewrite <- E. apply filter_after_filter. lia.
Qed.

Lemma serve_accounts maxRequests windowMs key reqs requests h t0 :
  0 ≤ maxRequests →
  in_order t0 (reqs.*2) →
  accounts maxRequests windowMs key requests h t0 →
  ∀ t, Z.of_nat (within windowMs t
                   (h ++ let_through key reqs
                           (serve maxRequests windowMs reqs requests)))
       ≤ maxRequests.
Proof.
  intros Hmax. revert requests h t0.
  induction reqs as [|[k now] reqs IH]; intros requests h t0 Hord Hacc t.
  - simpl. rewrite app_nil_r. apply Hacc.
  - simpl in Hord. destruct Hord as [Hle Hord]. simpl.
    pose proof (limiter_step maxRequests windowMs k now requests) as Hstep.
    destruct (userRateLimit maxRequests windowMs k now requests) as [o requests'].
    simpl in Hstep. destruct Hstep as [Hother Hkey]. simpl.
    destruct (decide (k = key)) as [->|Hk].
    + rewrite bool_decide_eq_true_2 by done. simpl.
      destruct (bool_decide (maxRequests
                             ≤ Z.of_nat (length (filter (λ x, now - windowMs < x)
                                                   (recorded key requests)))))
        eqn:Hfull.
      * destruct Hkey as [-> Hrec]. simpl.
        apply (IH requests' h now); [done|].
        apply (accounts_later _ _ _ requests requests' h t0 now); [done| |done].
        by right.
      * destruct Hkey as [-> Hrec]. simpl.
        rewrite cons_middle, (assoc_L app).
        apply (IH requests' (h ++ [now]) now); [done|].
        apply bool_decide_eq_false_1 in Hfull.
        pose proof (accounts_later _ _ _ requests requests h t0 now Hle
                      (or_introl eq_refl) Hacc) as (H1 & H2 & H3).
        split; [|split].
        -- intros x [Hx|Hx%list_elem_of_singleton]%elem_of_app; [by apply H1|lia].
        -- rewrite Hrec, !filter_app. f_equal.
           rewrite <- H2. apply filter_after_filter. lia.
        -- intros t'. unfold within. rewrite filter_app, length_app.
           rewrite filter_cons, filter_nil.
           destruct (decide (t' - windowMs < now ∧ now ≤ t')) as [[Hlo Hhi]|Hout].
           ++ simpl.
              assert (Hcount :
                        Nat.le
                          (length (filter (λ x : Z, t' - windowMs < x ∧ x ≤ t') h))
                          (length (filter (λ x : Z, now - windowMs < x) h))).
              { apply filter_length_impl. intros x Hx [Hx1 Hx2]. lia. }
              rewrite <- H2 in Hcount. lia.
           ++ simpl. specialize (H3 t'). unfold within in H3. lia.
    + rewrite bool_decide_eq_false_2 by done. simpl.
      apply (IH requests' h now); [done|].
      apply (accounts_later _ _ _ requests requests' h t0 now); [done| |done].
      left. by apply Hother.
Qed.

(** X30: The guarantee of the limiter.  For a limit that is not negative and
    a limiter that starts with no record, when requests arrive in the
    order of their times, the requests of one key that the limiter hands
    on never number more than [maxRequests] in any window of [windowMs]
    milliseconds, however many requests arrive and whatever the other
    keys do. *)
Theorem rate_limit_holds maxRequests windowMs reqs key t0 t :
  0 ≤ maxRequests →
  in_order t0 (reqs.*2) →
  Z.of_nat (within windowMs t
              (let_through key reqs (serve maxRequests windowMs reqs ∅)))
  ≤ maxRequests.
Proof.
  intros Hmax Hord.
  apply (serve_accounts maxRequests windowMs key reqs ∅ [] t0 Hmax Hord).
  split; [|split].
  - intros x Hx. by apply elem_of_nil in Hx.
  - done.
  - intros t'. unfold within. simpl. lia.
Qed.

Lemma rate_limit_holds_witness :
  serve 2 1000 [("u1", 0); ("u1", 10); ("u1", 20); ("u2", 30); ("u1", 1005)] ∅
  = [Next; Next; Respond 429 "Too many requests"; Next; Next]
  ∧ Z.of_nat (within 1000 1005
                (let_through "u1"
                   [("u1", 0); ("u1", 10); ("u1", 20); ("u2", 30); ("u1", 1005)]
                   (serve 2 1000
                      [("u1", 0); ("u1", 10); ("u1", 20); ("u2", 30); ("u1", 1005)]
                      ∅)))
    ≤ 2.
Proof.
  split; [by vm_compute|].
  apply (rate_limit_holds 2 1000 _ "u1" 0 1005); [lia|].
  simpl. lia.
Defined.

End LimiterFacts.
